(** * openmumble: push-to-talk dictation pipeline

    A shallow embedding of the orchestration code of openmumble
    ([app.py], [audio.py], [transcriber.py], [processor.py], [inserter.py],
    [config.py]) and the properties its specification states about it.

    Conventions of the embedding.
    - A Python [str] is the list of its code points.
    - An object with mutable fields is a record; a method is a computation
      in the monad [M], which threads the object, may raise, and logs the
      observable effects (console lines and collaborator calls).
    - The collaborators (capture device, speech-to-text engine, cleanup
      service, clipboard and paste commands) are black boxes: what they
      answer is read from a [World]. *)

From Stdlib Require Import String Ascii.
From Stdlib Require Import Bool Arith NArith ZArith Lia List.
From Stdlib Require Import Floats.SpecFloat.
Import ListNotations.

Set Implicit Arguments.

(* ===================================================================== *)
(** * Python strings *)
(* ===================================================================== *)

Module Str.

(** A [str] is a sequence of Unicode code points; [len] counts them. *)
Definition str := list N.

(** The literal [py "ctrl"]: an ASCII literal as a [str]. *)
Definition py (s : string) : str := map N_of_ascii (list_ascii_of_string s).
Arguments py s%_string.

Definition eqb (a b : str) : bool :=
  if list_eq_dec N.eq_dec a b then true else false.

(** Truth value of a string: [if s:] holds for the non-empty ones. *)
Definition truthy (s : str) : bool :=
  match s with [] => false | _ :: _ => true end.

(** [str.lower()] on one code point.  The ASCII capitals are mapped to
    their small letters.  Code points outside ASCII are left as they are:
    Python maps some of them to other code points outside ASCII, and
    U+212A to [k]; none of these results occurs in a key of
    [_SPECIAL_KEYS], the only place this development lowers a string, so
    the lookup there gives the same answer. *)
Definition lower_cp (c : N) : N :=
  if ((65 <=? c) && (c <=? 90))%N then (c + 32)%N else c.

Definition lower (s : str) : str := map lower_cp s.

(** [str.isspace()] on one code point, the set [str.strip()] removes. *)
Definition isspace (c : N) : bool :=
  (((9 <=? c) && (c <=? 13)) || ((28 <=? c) && (c <=? 32))
   || (c =? 133) || (c =? 160) || (c =? 5760)
   || ((8192 <=? c) && (c <=? 8202))
   || (c =? 8232) || (c =? 8233) || (c =? 8239) || (c =? 8287)
   || (c =? 12288))%N.

Fixpoint dropwhile (p : N -> bool) (s : str) : str :=
  match s with
  | [] => []
  | c :: t => if p c then dropwhile p t else s
  end.

(** [s.rstrip(chars)] and [s.lstrip(chars)] for a predicate on code points. *)
Definition rstrip_by (p : N -> bool) (s : str) : str :=
  rev (dropwhile p (rev s)).

Definition lstrip_by (p : N -> bool) (s : str) : str := dropwhile p s.

(** [s.rstrip(chars)]: drops the trailing code points that occur in [chars]. *)
Definition rstrip (chars s : str) : str :=
  rstrip_by (fun c => existsb (N.eqb c) chars) s.

(** [s.strip()]: drops leading and trailing whitespace. *)
Definition strip (s : str) : str := rstrip_by isspace (lstrip_by isspace s).

(** [sep.join(parts)]. *)
Fixpoint join (sep : str) (parts : list str) : str :=
  match parts with
  | [] => []
  | [p] => p
  | p :: rest => p ++ sep ++ join sep rest
  end.

(** A string is blank when it has no code point that is not whitespace. *)
Definition blank (s : str) : bool := forallb isspace s.

End Str.

Abbreviation str := Str.str.
Abbreviation py := Str.py.

(* ===================================================================== *)
(** * float32 samples *)
(* ===================================================================== *)

Module F32.

(** A sample is an IEEE 754 binary32 number ([dtype="float32"]): 24 bits of
    precision, exponents up to 128. *)
Definition prec : Z := 24.
Definition emax : Z := 128.

Definition t := spec_float.

Definition add (x y : t) : t := SFadd prec emax x y.
Definition div (x y : t) : t := SFdiv prec emax x y.

(** The binary32 number of an integer. *)
Definition of_Z (z : Z) : t := binary_normalize prec emax z 0 false.

(** The binary32 number nearest to the fraction [n/d] of two integers
    below 2^24, the value of a decimal literal: [ratio 3 10] is [0.3]. *)
Definition ratio (n d : Z) : t := div (of_Z n) (of_Z d).

(** [row.mean()], the reduction [ndarray.mean(axis=1)] applies to every
    row: the sum of the samples, added one after the other (the order of
    numpy for a row of fewer than eight samples), divided by their
    number, all at binary32. *)
Definition sum (row : list t) : t :=
  match row with
  | [] => of_Z 0
  | x :: rest => fold_left add rest x
  end.

Definition mean (row : list t) : t :=
  div (sum row) (of_Z (Z.of_nat (length row))).

End F32.

(** A 1-D array of samples, and a 2-D array: a list of rows, one row per
    frame and one sample per channel. *)
Definition array1 := list F32.t.
Definition array2 := list (list F32.t).

(** [np.concatenate(frames, axis=0)] on 2-D arrays of one width. *)
Definition concatenate (frames : list array2) : array2 := concat frames.

(** [audio.mean(axis=1)]. *)
Definition mean_axis1 (a : array2) : array1 := map F32.mean a.

(** [audio.size] of a 1-D array. *)
Definition size (a : array1) : nat := length a.

(* ===================================================================== *)
(** * Exceptions, effects and the monad of methods *)
(* ===================================================================== *)

(** The exceptions of this program are instances of Python's [Exception]:
    the three the code itself can raise, and whatever a collaborator
    raises, kept as the name of its class and its message. *)
Inductive exc :=
| ValueError_unknown_hotkey (name : str)
| ZeroDivisionError
| IndexError
| AttributeError
| CollaboratorError (class message : str).

Inductive result (A : Type) :=
| Ok (a : A)
| Raised (e : exc).
Arguments Ok {A} a.
Arguments Raised {A} e.

(** The console lines of the program, without the timings some of them
    carry. *)
Inductive line :=
| Ready (hotkey : str)
| Bye
| Recording_started
| No_audio_captured
| Captured (samples : nat) (sample_rate : Z)
| No_speech_detected
| Raw (text : str)
| Cleaned (text : str)
| Done_inserted
| Loading_model (model_size device compute_type : str)
| Model_loaded
| No_api_key
| Cleanup_failed (e : exc)
| Clipboard_only (system : str)
| Audio_status (flags : str).

(** The targets of the threads the program starts: the warm-up of
    [App.run] calls [transcriber.transcribe], a pipeline run calls
    [App._process]. *)
Inductive thread_target :=
| Target_transcribe
| Target_process.

(** What a run of the program does to the outside, in order. *)
Inductive effect :=
| Print (l : line)
| InputStream_new (samplerate channels : Z)
| InputStream_start
| InputStream_stop
| InputStream_close
| WhisperModel_new (model_size device compute_type : str)
| WhisperModel_transcribe (audio : array1)
| Anthropic_new (api_key : str)
| Messages_create (model text : str)
| Subprocess_run (argv : list str) (input : option str)
| Pyperclip_copy (text : str)
| Thread_start (target : thread_target) (audio : array1)
| Thread_excepthook (e : exc).

Definition trace := list effect.

(** A method on an object of type [S]: it returns or raises, leaves the
    object in a new state (what it assigned before raising stays
    assigned), and logs its effects. *)
Definition M (S A : Type) : Type := S -> result A * S * trace.

Definition ret {S A} (a : A) : M S A := fun s => (Ok a, s, []).

Definition bind {S A B} (m : M S A) (f : A -> M S B) : M S B :=
  fun s =>
    match m s with
    | (Ok a, s1, t1) => let '(r, s2, t2) := f a s1 in (r, s2, t1 ++ t2)
    | (Raised e, s1, t1) => (Raised e, s1, t1)
    end.

Definition raise {S A} (e : exc) : M S A := fun s => (Raised e, s, []).

Definition emit {S} (x : effect) : M S unit := fun s => (Ok tt, s, [x]).

Definition print {S} (l : line) : M S unit := emit (Print l).

Definition get {S} : M S S := fun s => (Ok s, s, []).

Definition modify {S} (f : S -> S) : M S unit := fun s => (Ok tt, f s, []).

(** [try: m  except Exception as exc: h exc]. *)
Definition try_except {S A} (m : M S A) (h : exc -> M S A) : M S A :=
  fun s =>
    match m s with
    | (Ok a, s1, t1) => (Ok a, s1, t1)
    | (Raised e, s1, t1) => let '(r, s2, t2) := h e s1 in (r, s2, t1 ++ t2)
    end.

(** A call of a collaborator that answers nothing: it returns, or raises. *)
Definition call {S} (answer : option exc) : M S unit :=
  match answer with
  | None => ret tt
  | Some e => raise e
  end.

(** A call of a collaborator that answers a value. *)
Definition call_value {S A} (answer : result A) : M S A :=
  match answer with
  | Ok a => ret a
  | Raised e => raise e
  end.

(** A method of the field [proj] run on the enclosing object. *)
Definition on_field {S F A} (proj : S -> F) (upd : F -> S -> S) (m : M F A)
  : M S A :=
  fun s => let '(r, f, t) := m (proj s) in (r, upd f s, t).

Declare Scope py_scope.
Delimit Scope py_scope with py.
Notation "x <- m ;; k" := (bind m (fun x => k))
  (at level 61, m at next level, right associativity) : py_scope.
Notation "m ;; k" := (bind m (fun _ => k))
  (at level 61, right associativity) : py_scope.
Open Scope py_scope.

(* ===================================================================== *)
(** * The collaborators *)
(* ===================================================================== *)

(** What the collaborators answer while one handler or one pipeline run
    executes; each is called at most once in it, with the arguments that
    are listed.  Stopping and closing an input stream return. *)
Record World := {
  (** [platform.system()] *)
  platform_system : str;
  (** [sd.InputStream(...)] and [stream.start()] *)
  sd_InputStream : option exc;
  sd_start : option exc;
  (** [WhisperModel(...)] *)
  WhisperModel : option exc;
  (** [model.transcribe(audio, ...)]: the texts of the segments *)
  model_transcribe : array1 -> result (list str);
  (** [anthropic.Anthropic(api_key=...)] *)
  Anthropic : option exc;
  (** [client.messages.create(model=..., messages=[... raw_text])]: the
      blocks of [response.content], each by its [text] when it has one *)
  messages_create : str -> str -> result (list (option str));
  (** [subprocess.run(argv, input=..., check=True)] *)
  subprocess_run : list str -> option exc;
  (** [import pyperclip; pyperclip.copy(text)] *)
  pyperclip_copy : option exc
}.

(* ===================================================================== *)
(** * config.py *)
(* ===================================================================== *)

Module Config.

Record WhisperConfig := {
  model_size : str;
  device : str;
  compute_type : str
}.

Record AudioConfig := {
  sample_rate : Z;
  channels : Z
}.

Record Config := {
  anthropic_api_key : str;
  claude_model : str;
  whisper : WhisperConfig;
  audio : AudioConfig;
  hotkey : str;
  enable_cleanup : bool
}.

(** The defaults of the dataclasses. *)
Definition default_whisper : WhisperConfig :=
  {| model_size := py "small.en"; device := py "auto";
     compute_type := py "int8" |}.

Definition default_audio : AudioConfig :=
  {| sample_rate := 16000; channels := 1 |}.

Definition default : Config :=
  {| anthropic_api_key := [];
     claude_model := py "claude-sonnet-4-20250514";
     whisper := default_whisper;
     audio := default_audio;
     hotkey := py "ctrl";
     enable_cleanup := true |}.

End Config.

(* ===================================================================== *)
(** * audio.py *)
(* ===================================================================== *)

Module Recorder.

(** An open [sd.InputStream]. *)
Record InputStream := {
  samplerate : Z;
  stream_channels : Z
}.

Record Recorder := {
  sample_rate : Z;
  channels : Z;
  _frames : list array2;
  _stream : option InputStream
}.

Definition set_frames (f : list array2) (r : Recorder) : Recorder :=
  {| sample_rate := sample_rate r; channels := channels r;
     _frames := f; _stream := _stream r |}.

Definition set_stream (s : option InputStream) (r : Recorder) : Recorder :=
  {| sample_rate := sample_rate r; channels := channels r;
     _frames := _frames r; _stream := s |}.

Definition __init__ (audio_cfg : Config.AudioConfig) : Recorder :=
  {| sample_rate := Config.sample_rate audio_cfg;
     channels := Config.channels audio_cfg;
     _frames := [];
     _stream := None |}.

Section Methods.
Variable w : World.

(** [start]: under the lock, clear the frames, open the stream and start
    it. *)
Definition start : M Recorder unit :=
  modify (set_frames []) ;;
  r <- get ;;
  emit (InputStream_new (sample_rate r) (channels r)) ;;
  call (sd_InputStream w) ;;
  modify (set_stream (Some {| samplerate := sample_rate r;
                              stream_channels := channels r |})) ;;
  emit InputStream_start ;;
  call (sd_start w).

(** [stop]: under the lock, tear the stream down if there is one; with no
    frame return the empty array, else concatenate the frames and clear
    them; outside the lock, average the channels.  The frames are the
    2-D arrays the callback was given, so [audio.ndim > 1] holds. *)
Definition stop : M Recorder array1 :=
  r <- get ;;
  match _stream r with
  | Some _ =>
      emit InputStream_stop ;;
      emit InputStream_close ;;
      modify (set_stream None)
  | None => ret tt
  end ;;
  r <- get ;;
  match _frames r with
  | [] => ret []
  | _ :: _ =>
      let audio := concatenate (_frames r) in
      modify (set_frames []) ;;
      ret (mean_axis1 audio)
  end.

(** [_callback(indata, frames, time_info, status)]: the capture thread
    hands over one chunk. *)
Definition _callback (indata : array2) (status : option str)
  : M Recorder unit :=
  match status with
  | Some flags => print (Audio_status flags)
  | None => ret tt
  end ;;
  r <- get ;;
  modify (set_frames (_frames r ++ [indata])).

End Methods.
End Recorder.

(* ===================================================================== *)
(** * transcriber.py *)
(* ===================================================================== *)

Module Transcriber.

(** A loaded [WhisperModel]. *)
Record Model := {
  loaded_size : str;
  loaded_device : str;
  loaded_compute_type : str
}.

Record Transcriber := {
  _cfg : Config.WhisperConfig;
  _model : option Model
}.

Definition set_model (m : option Model) (t : Transcriber) : Transcriber :=
  {| _cfg := _cfg t; _model := m |}.

Definition __init__ (whisper_cfg : Config.WhisperConfig) : Transcriber :=
  {| _cfg := whisper_cfg; _model := None |}.

Section Methods.
Variable w : World.

Definition _load_model : M Transcriber unit :=
  t <- get ;;
  let device := Config.device (_cfg t) in
  let device := if Str.eqb device (py "auto") then py "cpu" else device in
  let model_size := Config.model_size (_cfg t) in
  let compute_type := Config.compute_type (_cfg t) in
  print (Loading_model model_size device compute_type) ;;
  emit (WhisperModel_new model_size device compute_type) ;;
  call (WhisperModel w) ;;
  modify (set_model (Some {| loaded_size := model_size;
                             loaded_device := device;
                             loaded_compute_type := compute_type |})) ;;
  print Model_loaded.

(** [transcribe]: nothing to do for an array of size 0; else load the
    model if it is not loaded, run it, and join the stripped texts of the
    segments with a blank. *)
Definition transcribe (audio : array1) : M Transcriber str :=
  if (size audio =? 0)%nat then ret []
  else
    t <- get ;;
    match _model t with
    | None => _load_model
    | Some _ => ret tt
    end ;;
    emit (WhisperModel_transcribe audio) ;;
    segments <- call_value (model_transcribe w audio) ;;
    let text := Str.join (py " ") (map Str.strip segments) in
    ret (Str.strip text).

End Methods.
End Transcriber.

(* ===================================================================== *)
(** * processor.py *)
(* ===================================================================== *)

Module Processor.

(** A constructed [anthropic.Anthropic] client. *)
Record Client := {
  client_api_key : str
}.

Record Processor := {
  _cfg : Config.Config;
  _client : option Client
}.

Definition set_client (c : option Client) (p : Processor) : Processor :=
  {| _cfg := _cfg p; _client := c |}.

Definition __init__ (cfg : Config.Config) : Processor :=
  {| _cfg := cfg; _client := None |}.

Section Methods.
Variable w : World.

Definition _ensure_client : M Processor unit :=
  p <- get ;;
  match _client p with
  | Some _ => ret tt
  | None =>
      let api_key := Config.anthropic_api_key (_cfg p) in
      emit (Anthropic_new api_key) ;;
      call (Anthropic w) ;;
      modify (set_client (Some {| client_api_key := api_key |}))
  end.

(** [response.content[0].text.strip()]. *)
Definition first_text (content : list (option str)) : M Processor str :=
  match content with
  | [] => raise IndexError
  | None :: _ => raise AttributeError
  | Some text :: _ => ret (Str.strip text)
  end.

(** [cleanup]: a blank text and a missing API key give the text back
    before anything is constructed; the call of the service is inside
    [try ... except Exception], the construction of the client is not. *)
Definition cleanup (raw_text : str) : M Processor str :=
  if negb (Str.truthy (Str.strip raw_text)) then ret raw_text
  else
    p <- get ;;
    if negb (Str.truthy (Config.anthropic_api_key (_cfg p))) then
      print No_api_key ;;
      ret raw_text
    else
      _ensure_client ;;
      try_except
        (let model := Config.claude_model (_cfg p) in
         emit (Messages_create model raw_text) ;;
         content <- call_value (messages_create w model raw_text) ;;
         first_text content)
        (fun exc =>
           print (Cleanup_failed exc) ;;
           ret raw_text).

End Methods.
End Processor.

(* ===================================================================== *)
(** * inserter.py *)
(* ===================================================================== *)

Module Inserter.

Section Functions.
Variable w : World.

(** [subprocess.run(argv, input=..., check=True)]. *)
Definition run (argv : list str) (input : option str) : M unit unit :=
  emit (Subprocess_run argv input) ;;
  call (subprocess_run w argv).

Definition _insert_macos (text : str) : M unit unit :=
  run [py "pbcopy"] (Some text) ;;
  run [py "osascript"; py "-e";
       py "tell application " ++ [34%N] ++ py "System Events" ++ [34%N]
       ++ py " to keystroke " ++ [34%N] ++ py "v" ++ [34%N]
       ++ py " using command down"]
      None.

Definition _insert_linux (text : str) : M unit unit :=
  run [py "xclip"; py "-selection"; py "clipboard"] (Some text) ;;
  run [py "xdotool"; py "key"; py "ctrl+v"] None.

Definition insert_text (text : str) : M unit unit :=
  let system := platform_system w in
  if Str.eqb system (py "Darwin") then _insert_macos text
  else if Str.eqb system (py "Linux") then _insert_linux text
  else
    emit (Pyperclip_copy text) ;;
    call (pyperclip_copy w) ;;
    print (Clipboard_only system).

End Functions.
End Inserter.

(* ===================================================================== *)
(** * pynput.keyboard *)
(* ===================================================================== *)

Module Keyboard.

(** What a listener hands to a callback: a member of the enumeration
    [keyboard.Key], known by the [name] it answers to; a
    [keyboard.KeyCode]; or [None] for a key pynput does not know. *)
Inductive key :=
| Key (name : str)
| KeyCode (vk : option Z) (char : option str) (is_dead : bool)
| NoKey.

(** [KeyCode.from_char(char)]. *)
Definition from_char (char : str) : key := KeyCode None (Some char) false.

Definition option_eqb {A} (eqb : A -> A -> bool) (a b : option A) : bool :=
  match a, b with
  | Some x, Some y => eqb x y
  | None, None => true
  | _, _ => false
  end.

(** [a == b]: two members of the enumeration are equal when they are the
    same member; two key codes compare as [KeyCode.__eq__] says, by
    [char] and [is_dead] when both have a [char], by [vk] otherwise;
    nothing else is equal. *)
Definition eqb (a b : key) : bool :=
  match a, b with
  | Key n1, Key n2 => Str.eqb n1 n2
  | KeyCode vk1 (Some c1) d1, KeyCode vk2 (Some c2) d2 =>
      Str.eqb c1 c2 && Bool.eqb d1 d2
  | KeyCode vk1 _ _, KeyCode vk2 _ _ => option_eqb Z.eqb vk1 vk2
  | NoKey, NoKey => true
  | _, _ => false
  end.

End Keyboard.

(* ===================================================================== *)
(** * app.py *)
(* ===================================================================== *)

Module App.

Import Keyboard.

(** Map config hotkey names to pynput [Key] objects. *)
Definition _SPECIAL_KEYS : list (str * key) :=
  [ (py "ctrl", Key (py "ctrl_l"));
    (py "alt", Key (py "alt_l"));
    (py "shift", Key (py "shift_l"));
    (py "cmd", Key (py "cmd_l"));
    (py "option", Key (py "alt_l"));
    (py "f1", Key (py "f1"));
    (py "f2", Key (py "f2"));
    (py "f3", Key (py "f3"));
    (py "f4", Key (py "f4"));
    (py "f5", Key (py "f5"));
    (py "f6", Key (py "f6"));
    (py "f7", Key (py "f7"));
    (py "f8", Key (py "f8"));
    (py "f9", Key (py "f9"));
    (py "f10", Key (py "f10"));
    (py "f11", Key (py "f11"));
    (py "f12", Key (py "f12")) ].

(** [d[k]] when [k in d], for a dict literal. *)
Fixpoint lookup (k : str) (d : list (str * key)) : option key :=
  match d with
  | [] => None
  | (k', v) :: rest => if Str.eqb k k' then Some v else lookup k rest
  end.

Record App := {
  cfg : Config.Config;
  recorder : Recorder.Recorder;
  transcriber : Transcriber.Transcriber;
  processor : option Processor.Processor;
  _recording : bool;
  _hotkey : key
}.

Definition set_recorder (r : Recorder.Recorder) (a : App) : App :=
  {| cfg := cfg a; recorder := r; transcriber := transcriber a;
     processor := processor a; _recording := _recording a;
     _hotkey := _hotkey a |}.

Definition set_transcriber (t : Transcriber.Transcriber) (a : App) : App :=
  {| cfg := cfg a; recorder := recorder a; transcriber := t;
     processor := processor a; _recording := _recording a;
     _hotkey := _hotkey a |}.

Definition set_processor (p : Processor.Processor) (a : App) : App :=
  {| cfg := cfg a; recorder := recorder a; transcriber := transcriber a;
     processor := Some p; _recording := _recording a;
     _hotkey := _hotkey a |}.

Definition set_recording (b : bool) (a : App) : App :=
  {| cfg := cfg a; recorder := recorder a; transcriber := transcriber a;
     processor := processor a; _recording := b;
     _hotkey := _hotkey a |}.

(** [_resolve_hotkey(name)]. *)
Definition _resolve_hotkey (name : str) : result key :=
  let lower := Str.lower name in
  match lookup lower _SPECIAL_KEYS with
  | Some k => Ok k
  | None =>
      if (length name =? 1)%nat then Ok (from_char name)
      else Raised (ValueError_unknown_hotkey name)
  end.

(** [App(cfg)]. *)
Definition __init__ (cfg : Config.Config) : result App :=
  match _resolve_hotkey (Config.hotkey cfg) with
  | Ok k =>
      Ok {| cfg := cfg;
            recorder := Recorder.__init__ (Config.audio cfg);
            transcriber := Transcriber.__init__ (Config.whisper cfg);
            processor := if Config.enable_cleanup cfg
                         then Some (Processor.__init__ cfg) else None;
            _recording := false;
            _hotkey := k |}
  | Raised e => Raised e
  end.

(** [_key_matches(key)], as a function of the resolved hotkey. *)
Definition key_matches (hotkey k : key) : bool :=
  match hotkey with
  | Key hotkey_name =>
      match k with
      | Key name =>
          Str.eqb (Str.rstrip (py "_lr") name)
                  (Str.rstrip (py "_lr") hotkey_name)
          || Keyboard.eqb k hotkey
      | _ => false
      end
  | _ => Keyboard.eqb k hotkey
  end.

Definition _key_matches (a : App) (k : key) : bool :=
  key_matches (_hotkey a) k.

Section Methods.
Variable w : World.

Definition on_recorder {A} (m : M Recorder.Recorder A) : M App A :=
  on_field recorder set_recorder m.

Definition on_transcriber {A} (m : M Transcriber.Transcriber A) : M App A :=
  on_field transcriber set_transcriber m.

Definition on_processor {A} (p : Processor.Processor)
  (m : M Processor.Processor A) : M App A :=
  fun a => let '(r, p', t) := m p in (r, set_processor p' a, t).

(** A function of a module, called from a method. *)
Definition function {A} (m : M unit A) : M App A :=
  fun a => let '(r, _, t) := m tt in (r, a, t).

(** [_on_press(key)]. *)
Definition _on_press (k : key) : M App unit :=
  a <- get ;;
  if _key_matches a k && negb (_recording a) then
    modify (set_recording true) ;;
    print Recording_started ;;
    on_recorder (Recorder.start w)
  else ret tt.

(** [threading.Thread(target=..., args=(audio,), daemon=True).start()]. *)
Definition start_thread (target : thread_target) (audio : array1)
  : M App unit :=
  emit (Thread_start target audio).

(** [_on_release(key)]. *)
Definition _on_release (k : key) : M App unit :=
  a <- get ;;
  if _key_matches a k && _recording a then
    modify (set_recording false) ;;
    audio <- on_recorder (Recorder.stop) ;;
    if (size audio =? 0)%nat then
      print No_audio_captured
    else
      let rate := Config.sample_rate (Config.audio (cfg a)) in
      (if (rate =? 0)%Z then raise ZeroDivisionError else ret tt) ;;
      print (Captured (size audio) rate) ;;
      start_thread Target_process audio
  else ret tt.

(** [_process(audio)], the pipeline of one run. *)
Definition _process (audio : array1) : M App unit :=
  raw_text <- on_transcriber (Transcriber.transcribe w audio) ;;
  if negb (Str.truthy raw_text) then
    print No_speech_detected
  else
    print (Raw raw_text) ;;
    a <- get ;;
    final_text <-
      match processor a with
      | Some p =>
          final_text <- on_processor p (Processor.cleanup w raw_text) ;;
          (if negb (Str.eqb final_text raw_text)
           then print (Cleaned final_text) else ret tt) ;;
          ret final_text
      | None => ret raw_text
      end ;;
    function (Inserter.insert_text w final_text) ;;
    print Done_inserted.

End Methods.
End App.

(* ===================================================================== *)
(** * The process: listener, capture thread and worker threads *)
(* ===================================================================== *)

Module Main.

Import Keyboard.

(** The process is the [App] object and the threads that were started and
    have not run yet. *)
Record Process := {
  app : App.App;
  started : list (thread_target * array1)
}.

(** What happens next in the process: the listener delivers a key event,
    the capture thread delivers a chunk, or one of the started threads
    runs, from its start to its end. *)
Inductive step :=
| Press (k : key)
| Release (k : key)
| Callback (indata : array2) (status : option str)
| Run (i : nat).

Definition threads_of (t : trace) : list (thread_target * array1) :=
  flat_map (fun e => match e with
                     | Thread_start target audio => [(target, audio)]
                     | _ => []
                     end) t.

(** A method of the [App], run inside the process: the threads it starts
    are added to the started ones. *)
Definition in_process {A} (m : M App.App A) : M Process A :=
  fun p =>
    let '(r, a, t) := m (app p) in
    (r, {| app := a; started := started p ++ threads_of t |}, t).

Fixpoint remove_nth {A} (i : nat) (l : list A) : list A :=
  match l, i with
  | [], _ => []
  | _ :: rest, O => rest
  | x :: rest, S j => x :: remove_nth j rest
  end.

Definition set_started (l : list (thread_target * array1)) (p : Process)
  : Process :=
  {| app := app p; started := l |}.

Section Steps.
Variable w : World.

(** The body of a thread: its target; an exception that leaves the target
    is handed to [threading.excepthook], which prints the traceback, and
    the thread ends. *)
Definition thread_run (target : thread_target) (audio : array1)
  : M App.App unit :=
  try_except
    match target with
    | Target_transcribe =>
        App.on_transcriber (Transcriber.transcribe w audio) ;; ret tt
    | Target_process => App._process w audio
    end
    (fun e => emit (Thread_excepthook e)).

(** One step of the process.  The capture thread calls back only while a
    stream is open. *)
Definition deliver (s : step) : M Process unit :=
  match s with
  | Press k => in_process (App._on_press w k)
  | Release k => in_process (App._on_release k)
  | Callback indata status =>
      p <- get ;;
      match Recorder._stream (App.recorder (app p)) with
      | Some _ =>
          in_process (App.on_recorder (Recorder._callback indata status))
      | None => ret tt
      end
  | Run i =>
      p <- get ;;
      match nth_error (started p) i with
      | Some (target, audio) =>
          modify (set_started (remove_nth i (started p))) ;;
          in_process (thread_run target audio)
      | None => ret tt
      end
  end.

End Steps.

(** The steps of the process while the listener is joined, each in its
    world; an exception that leaves a callback of the listener ends it. *)
Fixpoint listen (steps : list (World * step)) : M Process unit :=
  match steps with
  | [] => ret tt
  | (w, s) :: rest => deliver w s ;; listen rest
  end.

(** [App.run()]: the warm-up thread is started with an empty array, then
    the listener runs until the interrupt at the end of [steps]. *)
Definition run (steps : list (World * step)) : M Process unit :=
  p <- get ;;
  print (Ready (Config.hotkey (App.cfg (app p)))) ;;
  in_process (App.start_thread Target_transcribe []) ;;
  listen steps ;;
  print Bye.

(** [main], from the merged configuration on: [App(cfg)], then [run]. *)
Definition main (cfg : Config.Config) (steps : list (World * step))
  : result unit * trace :=
  match App.__init__ cfg with
  | Raised e => (Raised e, [])
  | Ok a =>
      let '(r, _, t) := run steps {| app := a; started := [] |} in (r, t)
  end.

End Main.

(* ===================================================================== *)
(** * Vocabulary of the specification *)
(* ===================================================================== *)

Module Spec.

Import Keyboard.

(** ** Hotkeys *)

(** Two strings that differ in the case of their letters only. *)
Definition caseless_eq (a b : str) : Prop := Str.lower a = Str.lower b.

(** The names of the special keys. *)
Definition special_names : list str := map fst App._SPECIAL_KEYS.

(** A hotkey spec that names a special key, whatever the case of its
    letters. *)
Definition names_special_key (name : str) : Prop :=
  exists special, In special special_names /\ caseless_eq name special.

(** The named modifier keys of the configuration, each with the family of
    physical keys it stands for. *)
Definition modifiers : list (str * str) :=
  [ (py "ctrl", py "ctrl"); (py "alt", py "alt"); (py "shift", py "shift");
    (py "cmd", py "cmd"); (py "option", py "alt") ].

(** The left and the right physical key of a family. *)
Definition left_key (family : str) : key := Key (family ++ py "_l").
Definition right_key (family : str) : key := Key (family ++ py "_r").

(** The keys of a family under the names a platform may give them: where
    pynput makes [ctrl_l] an alias of [ctrl], the left key answers to the
    name [ctrl]. *)
Definition family_keys (family : str) : list key :=
  [Key family; left_key family; right_key family].

(** ** The session automaton of the orchestrator *)

Inductive session := Idle | Recording.

Definition session_of (recording : bool) : session :=
  if recording then Recording else Idle.

(** A key event, as the listener delivers it. *)
Inductive key_event :=
| Pressed (k : key)
| Released (k : key).

(** What a key event is for the automaton. *)
Inductive edge := Matching_press | Matching_release | Other.

Definition edge_of (hotkey : key) (ev : key_event) : edge :=
  match ev with
  | Pressed k => if App.key_matches hotkey k then Matching_press else Other
  | Released k => if App.key_matches hotkey k then Matching_release else Other
  end.

(** [Idle --matching press--> Recording --matching release--> Idle];
    everything else is a no-op. *)
Definition next (s : session) (e : edge) : session :=
  match s, e with
  | Idle, Matching_press => Recording
  | Recording, Matching_release => Idle
  | _, _ => s
  end.

(** The session after a sequence of edges. *)
Definition run_session (s : session) (edges : list edge) : session :=
  fold_left next edges s.

(** The handler of a key event. *)
Definition handle (w : World) (ev : key_event) : M App.App unit :=
  match ev with
  | Pressed k => App._on_press w k
  | Released k => App._on_release k
  end.

(** The [App] after the handlers of the events ran one after the other,
    each in its world, and what they did. *)
Fixpoint handle_all (evs : list (World * key_event)) (a : App.App)
  : App.App * trace :=
  match evs with
  | [] => (a, [])
  | (w, ev) :: rest =>
      let '(_, a1, t1) := handle w ev a in
      let '(a2, t2) := handle_all rest a1 in
      (a2, t1 ++ t2)
  end.

(** ** Effects of the stages *)

(** The effects of the cleanup stage: constructing the client, calling
    the service, and its console lines. *)
Definition cleanup_effect (e : effect) : bool :=
  match e with
  | Anthropic_new _ | Messages_create _ _
  | Print No_api_key | Print (Cleanup_failed _) | Print (Cleaned _) => true
  | _ => false
  end.

(** The effects of the insertion stage. *)
Definition insertion_effect (e : effect) : bool :=
  match e with
  | Subprocess_run _ _ | Pyperclip_copy _
  | Print (Clipboard_only _) | Print Done_inserted => true
  | _ => false
  end.

(** The effects of the transcription stage. *)
Definition transcription_effect (e : effect) : bool :=
  match e with
  | WhisperModel_new _ _ _ | WhisperModel_transcribe _
  | Print (Loading_model _ _ _) | Print Model_loaded => true
  | _ => false
  end.

(** The effects of dispatching or running a pipeline. *)
Definition pipeline_effect (e : effect) : bool :=
  match e with
  | Thread_start _ _ => true
  | _ => transcription_effect e || cleanup_effect e || insertion_effect e
  end.

Definition free_of (p : effect -> bool) (t : trace) : Prop :=
  forallb (fun e => negb (p e)) t = true.

(** Every effect of a method satisfies [P], in whatever state it is
    called. *)
Definition effects_in {S A} (P : effect -> Prop) (m : M S A) : Prop :=
  forall s, Forall P (snd (m s)).

(** An effect that starts no thread. *)
Definition starts_no_thread (e : effect) : Prop :=
  match e with
  | Thread_start _ _ => False
  | _ => True
  end.

(** ** The stages of a pipeline run *)

(** [_process] up to the insertion: transcription and cleanup.  The
    answer is the final text, or [None] when no speech was detected. *)
Definition produce_text (w : World) (audio : array1)
  : M App.App (option str) :=
  raw_text <- App.on_transcriber (Transcriber.transcribe w audio) ;;
  if negb (Str.truthy raw_text) then
    print No_speech_detected ;;
    ret None
  else
    print (Raw raw_text) ;;
    a <- get ;;
    match App.processor a with
    | Some p =>
        final_text <- App.on_processor p (Processor.cleanup w raw_text) ;;
        (if negb (Str.eqb final_text raw_text)
         then print (Cleaned final_text) else ret tt) ;;
        ret (Some final_text)
    | None => ret (Some raw_text)
    end.


(** The recorder after [stop]: no stream, no frames. *)
Definition stopped (r : Recorder.Recorder) : Recorder.Recorder :=
  Recorder.set_frames [] (Recorder.set_stream None r).

(** The recorder after [start] got its stream: no frames, the stream. *)
Definition opened (r : Recorder.Recorder) : Recorder.Recorder :=
  Recorder.set_stream
    (Some {| Recorder.samplerate := Recorder.sample_rate r;
             Recorder.stream_channels := Recorder.channels r |})
    (Recorder.set_frames [] r).

(** The teardown of the stream, when there is one. *)
Definition teardown (r : Recorder.Recorder) : trace :=
  match Recorder._stream r with
  | Some _ => [InputStream_stop; InputStream_close]
  | None => []
  end.

End Spec.

(* ===================================================================== *)
(** * Concrete worlds and objects *)
(* ===================================================================== *)

Module Example.

Import Keyboard.

(** A Linux machine where every collaborator answers. *)
Definition world : World :=
  {| platform_system := py "Linux";
     sd_InputStream := None;
     sd_start := None;
     WhisperModel := None;
     model_transcribe := fun _ => Ok [py " hello"; py "world "];
     Anthropic := None;
     messages_create := fun _ _ => Ok [Some (py "Hello, world.")];
     subprocess_run := fun _ => None;
     pyperclip_copy := None |}.

Definition with_model_transcribe (f : array1 -> result (list str))
  (w : World) : World :=
  {| platform_system := platform_system w;
     sd_InputStream := sd_InputStream w;
     sd_start := sd_start w;
     WhisperModel := WhisperModel w;
     model_transcribe := f;
     Anthropic := Anthropic w;
     messages_create := messages_create w;
     subprocess_run := subprocess_run w;
     pyperclip_copy := pyperclip_copy w |}.

Definition with_messages_create
  (f : str -> str -> result (list (option str))) (w : World) : World :=
  {| platform_system := platform_system w;
     sd_InputStream := sd_InputStream w;
     sd_start := sd_start w;
     WhisperModel := WhisperModel w;
     model_transcribe := model_transcribe w;
     Anthropic := Anthropic w;
     messages_create := f;
     subprocess_run := subprocess_run w;
     pyperclip_copy := pyperclip_copy w |}.

Definition with_subprocess_run (f : list str -> option exc) (w : World)
  : World :=
  {| platform_system := platform_system w;
     sd_InputStream := sd_InputStream w;
     sd_start := sd_start w;
     WhisperModel := WhisperModel w;
     model_transcribe := model_transcribe w;
     Anthropic := Anthropic w;
     messages_create := messages_create w;
     subprocess_run := f;
     pyperclip_copy := pyperclip_copy w |}.

(** The recording was silence: the engine answers blank segments. *)
Definition world_silence : World :=
  with_model_transcribe (fun _ => Ok [py "  "; py ""]) world.

(** The cleanup service is unreachable. *)
Definition timeout : exc :=
  CollaboratorError (py "APITimeoutError") (py "Request timed out.").

Definition world_cleanup_down : World :=
  with_messages_create (fun _ _ => Raised timeout) world.

(** [xdotool] exits with a status that is not zero. *)
Definition paste_failed : exc :=
  CollaboratorError (py "CalledProcessError")
    (py "Command 'xdotool' returned non-zero exit status 1.").

Definition world_paste_fails : World :=
  with_subprocess_run
    (fun argv => if Str.eqb (hd [] argv) (py "xdotool")
                 then Some paste_failed else None)
    world.

(** The default configuration with an API key. *)
Definition cfg : Config.Config :=
  {| Config.anthropic_api_key := py "sk-test";
     Config.claude_model := Config.claude_model Config.default;
     Config.whisper := Config.default_whisper;
     Config.audio := Config.default_audio;
     Config.hotkey := py "ctrl";
     Config.enable_cleanup := true |}.

(** The [App] of that configuration, as [App(cfg)] builds it. *)
Definition app : App.App :=
  {| App.cfg := cfg;
     App.recorder := Recorder.__init__ Config.default_audio;
     App.transcriber := Transcriber.__init__ Config.default_whisper;
     App.processor := Some (Processor.__init__ cfg);
     App._recording := false;
     App._hotkey := Key (py "ctrl_l") |}.

(** The numbers of the two-channel example. *)
Definition stereo : array2 :=
  [ [F32.ratio 2 10; F32.ratio 4 10]; [F32.of_Z 0; F32.of_Z 1] ].

Definition mono : array1 := [F32.ratio 3 10; F32.ratio 1 2].

(** One second of a quiet mono signal would be long; four samples do. *)
Definition chunk : array2 :=
  [ [F32.ratio 1 10]; [F32.ratio 2 10]; [F32.ratio 1 10]; [F32.of_Z 0] ].

(** The [App] while it records, with one chunk captured. *)
Definition app_recording : App.App :=
  App.set_recording true
    (App.set_recorder
       {| Recorder.sample_rate := 16000; Recorder.channels := 1;
          Recorder._frames := [chunk];
          Recorder._stream :=
            Some {| Recorder.samplerate := 16000;
                    Recorder.stream_channels := 1 |} |}
       app).

(** The [App] while it records, with nothing captured yet. *)
Definition app_armed : App.App :=
  App.set_recording true
    (App.set_recorder
       {| Recorder.sample_rate := 16000; Recorder.channels := 1;
          Recorder._frames := [];
          Recorder._stream :=
            Some {| Recorder.samplerate := 16000;
                    Recorder.stream_channels := 1 |} |}
       app).

(** The [App] after a recording was stopped. *)
Definition app_stopped : App.App :=
  App.set_recording false
    (App.set_recorder (Recorder.__init__ Config.default_audio) app_armed).

End Example.

(* ===================================================================== *)
(** * Facts about strings *)
(* ===================================================================== *)

(* ===================================================================== *)
(** * Vocabulary for the parts of the [App] *)
(* ===================================================================== *)

Module Session.

(** The part of the [App] the key handlers work on: the flag and the
    recorder. *)
Definition set_session (recording : bool) (r : Recorder.Recorder)
  (a : App.App) : App.App :=
  App.set_recording recording (App.set_recorder r a).

(** The part of the [App] a pipeline run works on: the transcriber and
    the processor. *)
Definition set_stages (t : Transcriber.Transcriber)
  (p : option Processor.Processor) (a : App.App) : App.App :=
  {| App.cfg := App.cfg a; App.recorder := App.recorder a;
     App.transcriber := t; App.processor := p;
     App._recording := App._recording a; App._hotkey := App._hotkey a |}.

(** Two states of the [App] with the same session part, and with the
    same stages. *)
Definition same_session (a a' : App.App) : Prop :=
  a' = set_stages (App.transcriber a') (App.processor a') a.

Definition same_stages (a a' : App.App) : Prop :=
  a' = set_session (App._recording a') (App.recorder a') a.

(** An idle [App] holds no stream and no frames. *)
Definition idle_clean (a : App.App) : Prop :=
  App._recording a = false ->
  Recorder._stream (App.recorder a) = None
  /\ Recorder._frames (App.recorder a) = [].

(** A recording [App] holds a stream. *)
Definition armed_open (a : App.App) : Prop :=
  App._recording a = true -> Recorder._stream (App.recorder a) <> None.


End Session.

(* ===================================================================== *)
(** * Vocabulary for the pipeline *)
(* ===================================================================== *)

Module Pipeline.

(** The end of a run whose final text is [text]: the insertion, and the
    last line when it returned; [before] is what the run did so far. *)
Definition insertion (w : World) (text : str) (a : App.App)
  (before : trace) : result unit * App.App * trace :=
  match Inserter.insert_text w text tt with
  | (Ok _, _, ti) => (Ok tt, a, before ++ ti ++ [Print Done_inserted])
  | (Raised e, _, ti) => (Raised e, a, before ++ ti)
  end.

(** The effects that load the speech-to-text model. *)
Definition load_effect (e : effect) : bool :=
  match e with
  | WhisperModel_new _ _ _ | Print (Loading_model _ _ _)
  | Print Model_loaded => true
  | _ => false
  end.

(** The construction of the client of the cleanup service. *)
Definition client_effect (e : effect) : bool :=
  match e with
  | Anthropic_new _ => true
  | _ => false
  end.

(** The calls of the collaborators, by kind. *)
Definition engine_call (e : effect) : bool :=
  match e with
  | WhisperModel_transcribe _ => true
  | _ => false
  end.

Definition service_call (e : effect) : bool :=
  match e with
  | Messages_create _ _ => true
  | _ => false
  end.

(** The effect that puts [text] on the clipboard, and the effect that
    sends the paste keystroke, on the platform of the world. *)
Definition copy_effect (e : effect) : bool :=
  match e with
  | Subprocess_run _ (Some _) | Pyperclip_copy _ => true
  | _ => false
  end.

Definition paste_effect (e : effect) : bool :=
  match e with
  | Subprocess_run _ None => true
  | _ => false
  end.

(** The construction of the speech-to-text model. *)
Definition model_effect (e : effect) : bool :=
  match e with
  | WhisperModel_new _ _ _ => true
  | _ => false
  end.



(** The line that reports a failure of the cleanup. *)
Definition failure_line (e : effect) : bool :=
  match e with
  | Print (Cleanup_failed _) => true
  | _ => false
  end.

(** The number of effects of a kind in a trace. *)
Definition count (p : effect -> bool) (t : trace) : nat :=
  length (filter p t).

(** A method that has at most [n] effects of a kind, in whatever state
    it is called. *)
Definition at_most {S A} (p : effect -> bool) (n : nat) (m : M S A)
  : Prop :=
  forall s, count p (snd (m s)) <= n.

End Pipeline.

(* ===================================================================== *)
(** * Further concrete worlds and objects *)
(* ===================================================================== *)

Module Case.

(** No input device: the constructor of the stream raises. *)
Definition no_device : exc :=
  CollaboratorError (py "PortAudioError") (py "Error querying device -1").

Definition world_no_device : World :=
  {| platform_system := py "Linux";
     sd_InputStream := Some no_device;
     sd_start := None;
     WhisperModel := None;
     model_transcribe := model_transcribe Example.world;
     Anthropic := None;
     messages_create := messages_create Example.world;
     subprocess_run := fun _ => None;
     pyperclip_copy := None |}.

(** The engine raises. *)
Definition engine_failed : exc :=
  CollaboratorError (py "RuntimeError") (py "CUDA out of memory").

Definition world_engine_fails : World :=
  Example.with_model_transcribe (fun _ => Raised engine_failed)
    Example.world.

(** The service answers a text of blanks, and no block at all. *)
Definition world_blank_answer : World :=
  Example.with_messages_create (fun _ _ => Ok [Some (py "  ")])
    Example.world.

Definition world_no_block : World :=
  Example.with_messages_create (fun _ _ => Ok []) Example.world.

(** The package of the client is not installed. *)
Definition no_package : exc :=
  CollaboratorError (py "ModuleNotFoundError")
    (py "No module named 'anthropic'").

Definition world_no_client : World :=
  {| platform_system := py "Linux";
     sd_InputStream := None;
     sd_start := None;
     WhisperModel := None;
     model_transcribe := model_transcribe Example.world;
     Anthropic := Some no_package;
     messages_create := messages_create Example.world;
     subprocess_run := fun _ => None;
     pyperclip_copy := None |}.

(** The example [App] with the cleanup disabled. *)
Definition app_no_cleanup : App.App :=
  Session.set_stages (App.transcriber Example.app) None Example.app.

(** The audio of the example chunk. *)
Definition audio : array1 := mean_axis1 Example.chunk.

End Case.

(* ===================================================================== *)
(** * config.py: loading the configuration *)
(* ===================================================================== *)

Module Loader.

(** A value of a parsed YAML document, by what the code can see of it:
    what [str], [bool] and [int] give on it ([number] is [None] when
    [int] raises), and, when it is a dict, its entries under string
    keys, each key once. *)
#[local] Unset Elimination Schemes.
Inductive value :=
| Value (text : str) (truth : bool) (number : option Z)
        (mapping : option (list (str * value))).
#[local] Set Elimination Schemes.

Definition text (v : value) : str :=
  match v with Value t _ _ _ => t end.

Definition truth (v : value) : bool :=
  match v with Value _ b _ _ => b end.

Definition number (v : value) : option Z :=
  match v with Value _ _ n _ => n end.

Definition mapping (v : value) : option (list (str * value)) :=
  match v with Value _ _ _ m => m end.

(** Why loading raises: [_merge] was given a document that is not a dict
    ([TypeError] or [AttributeError]), [int] raised on a value
    ([ValueError] or [TypeError]), or opening and parsing the file
    raised. *)
Inductive failure :=
| Not_a_mapping
| Not_an_int (v : value)
| Read_failed (e : exc).

Inductive loaded (A : Type) :=
| Loaded (a : A)
| Failed (f : failure).
Arguments Loaded {A} a.
Arguments Failed {A} f.

(** The environment of the process: [os.environ.get], [Path.exists], and
    [open] followed by [yaml.safe_load]. *)
Record Env := {
  environ : str -> option str;
  path_exists : str -> bool;
  safe_load : str -> result value
}.

(** [d.get(k)] on the entries of a dict. *)
Fixpoint get (k : str) (d : list (str * value)) : option value :=
  match d with
  | [] => None
  | (k', v) :: rest => if Str.eqb k k' then Some v else get k rest
  end.

Definition set_anthropic_api_key (s : str) (c : Config.Config)
  : Config.Config :=
  {| Config.anthropic_api_key := s;
     Config.claude_model := Config.claude_model c;
     Config.whisper := Config.whisper c; Config.audio := Config.audio c;
     Config.hotkey := Config.hotkey c;
     Config.enable_cleanup := Config.enable_cleanup c |}.

Definition set_claude_model (s : str) (c : Config.Config) : Config.Config :=
  {| Config.anthropic_api_key := Config.anthropic_api_key c;
     Config.claude_model := s;
     Config.whisper := Config.whisper c; Config.audio := Config.audio c;
     Config.hotkey := Config.hotkey c;
     Config.enable_cleanup := Config.enable_cleanup c |}.

Definition set_hotkey (s : str) (c : Config.Config) : Config.Config :=
  {| Config.anthropic_api_key := Config.anthropic_api_key c;
     Config.claude_model := Config.claude_model c;
     Config.whisper := Config.whisper c; Config.audio := Config.audio c;
     Config.hotkey := s;
     Config.enable_cleanup := Config.enable_cleanup c |}.

Definition set_enable_cleanup (b : bool) (c : Config.Config)
  : Config.Config :=
  {| Config.anthropic_api_key := Config.anthropic_api_key c;
     Config.claude_model := Config.claude_model c;
     Config.whisper := Config.whisper c; Config.audio := Config.audio c;
     Config.hotkey := Config.hotkey c;
     Config.enable_cleanup := b |}.

Definition set_whisper (x : Config.WhisperConfig) (c : Config.Config)
  : Config.Config :=
  {| Config.anthropic_api_key := Config.anthropic_api_key c;
     Config.claude_model := Config.claude_model c;
     Config.whisper := x; Config.audio := Config.audio c;
     Config.hotkey := Config.hotkey c;
     Config.enable_cleanup := Config.enable_cleanup c |}.

Definition set_audio (x : Config.AudioConfig) (c : Config.Config)
  : Config.Config :=
  {| Config.anthropic_api_key := Config.anthropic_api_key c;
     Config.claude_model := Config.claude_model c;
     Config.whisper := Config.whisper c; Config.audio := x;
     Config.hotkey := Config.hotkey c;
     Config.enable_cleanup := Config.enable_cleanup c |}.

Definition set_model_size (s : str) (x : Config.WhisperConfig)
  : Config.WhisperConfig :=
  {| Config.model_size := s; Config.device := Config.device x;
     Config.compute_type := Config.compute_type x |}.

Definition set_device (s : str) (x : Config.WhisperConfig)
  : Config.WhisperConfig :=
  {| Config.model_size := Config.model_size x; Config.device := s;
     Config.compute_type := Config.compute_type x |}.

Definition set_compute_type (s : str) (x : Config.WhisperConfig)
  : Config.WhisperConfig :=
  {| Config.model_size := Config.model_size x;
     Config.device := Config.device x; Config.compute_type := s |}.

(** [if key in d: set(str(d[key]))]. *)
Definition merge_str {C} (d : list (str * value)) (key : str)
  (set : str -> C -> C) (c : C) : C :=
  match get key d with
  | Some v => set (text v) c
  | None => c
  end.

(** [if key in d: set(int(d[key]))]. *)
Definition merge_int {C} (d : list (str * value)) (key : str)
  (set : Z -> C -> C) (c : C) : loaded C :=
  match get key d with
  | Some v =>
      match number v with
      | Some z => Loaded (set z c)
      | None => Failed (Not_an_int v)
      end
  | None => Loaded c
  end.

(** [data.get(key, {})] when it is a dict: its entries. *)
Definition section (d : list (str * value)) (key : str)
  : option (list (str * value)) :=
  match get key d with
  | Some v => mapping v
  | None => Some []
  end.

(** The blocks of [_merge]: the four keys of the top level, the
    [whisper] section, the [audio] section. *)
Definition merge_top (d : list (str * value)) (cfg : Config.Config)
  : Config.Config :=
  let cfg := merge_str d (py "anthropic_api_key")
               set_anthropic_api_key cfg in
  let cfg := merge_str d (py "claude_model") set_claude_model cfg in
  let cfg := merge_str d (py "hotkey") set_hotkey cfg in
  match get (py "enable_cleanup") d with
  | Some v => set_enable_cleanup (truth v) cfg
  | None => cfg
  end.

Definition merge_whisper (d : list (str * value)) (cfg : Config.Config)
  : Config.Config :=
  match section d (py "whisper") with
  | Some whisper_data =>
      let x := Config.whisper cfg in
      let x := merge_str whisper_data (py "model_size") set_model_size x in
      let x := merge_str whisper_data (py "device") set_device x in
      let x := merge_str whisper_data (py "compute_type")
                 set_compute_type x in
      set_whisper x cfg
  | None => cfg
  end.

Definition merge_audio (d : list (str * value)) (cfg : Config.Config)
  : loaded Config.Config :=
  match section d (py "audio") with
  | Some audio_data =>
      match merge_int audio_data (py "sample_rate")
              (fun z x => {| Config.sample_rate := z;
                             Config.channels := Config.channels x |})
              (Config.audio cfg) with
      | Failed f => Failed f
      | Loaded x =>
          match merge_int audio_data (py "channels")
                  (fun z x => {| Config.sample_rate :=
                                   Config.sample_rate x;
                                 Config.channels := z |}) x with
          | Failed f => Failed f
          | Loaded x => Loaded (set_audio x cfg)
          end
      end
  | None => Loaded cfg
  end.

(** [_merge(cfg, data)]. *)
Definition _merge (cfg : Config.Config) (data : value)
  : loaded Config.Config :=
  match mapping data with
  | None => Failed Not_a_mapping
  | Some d => merge_audio d (merge_whisper d (merge_top d cfg))
  end.

(** The empty dict of [yaml.safe_load(f) or {}]. *)
Definition empty_dict : value := Value (py "{}") false None (Some []).

(** An environment variable that is set to a string that is not empty. *)
Definition env_set (env : Env) (name : str) : option str :=
  match environ env name with
  | Some s => if Str.truthy s then Some s else None
  | None => None
  end.

(** The overrides of [load] from the environment. *)
Definition env_overrides (env : Env) (cfg : Config.Config)
  : Config.Config :=
  let cfg := match env_set env (py "ANTHROPIC_API_KEY") with
             | Some s => set_anthropic_api_key s cfg
             | None => cfg
             end in
  let cfg := match env_set env (py "OPENMUMBLE_MODEL") with
             | Some s => set_whisper (set_model_size s (Config.whisper cfg))
                           cfg
             | None => cfg
             end in
  match env_set env (py "OPENMUMBLE_HOTKEY") with
  | Some s => set_hotkey s cfg
  | None => cfg
  end.

(** [Config.load(path)]. *)
Definition load (env : Env) (path : option str) : loaded Config.Config :=
  let merged :=
    match path with
    | Some p =>
        if path_exists env p then
          match safe_load env p with
          | Ok data =>
              _merge Config.default
                (if truth data then data else empty_dict)
          | Raised e => Failed (Read_failed e)
          end
        else Loaded Config.default
    | None => Loaded Config.default
    end in
  match merged with
  | Loaded cfg => Loaded (env_overrides env cfg)
  | Failed f => Failed f
  end.

End Loader.

(* ===================================================================== *)
(** * __main__.py *)
(* ===================================================================== *)

Module Cli.

(** The parsed arguments of the command line. *)
Record Args := {
  config : option str;
  model : option str;
  hotkey : option str;
  no_cleanup : bool
}.

(** An option that was given a string that is not empty. *)
Definition given (o : option str) : option str :=
  match o with
  | Some s => if Str.truthy s then Some s else None
  | None => None
  end.

(** The config file: the one of the command line, else the first of
    [config.yaml] and [config.example.yaml] that exists. *)
Definition config_path (env : Loader.Env) (args : Args) : option str :=
  match config args with
  | Some p => Some p
  | None =>
      if Loader.path_exists env (py "config.yaml")
      then Some (py "config.yaml")
      else if Loader.path_exists env (py "config.example.yaml")
      then Some (py "config.example.yaml")
      else None
  end.

(** The overrides of the command line. *)
Definition cli_overrides (args : Args) (cfg : Config.Config)
  : Config.Config :=
  let cfg := match given (model args) with
             | Some s =>
                 Loader.set_whisper
                   (Loader.set_model_size s (Config.whisper cfg)) cfg
             | None => cfg
             end in
  let cfg := match given (hotkey args) with
             | Some s => Loader.set_hotkey s cfg
             | None => cfg
             end in
  if no_cleanup args then Loader.set_enable_cleanup false cfg else cfg.

(** [main] up to the construction of the [App]: the configuration. *)
Definition configure (env : Loader.Env) (args : Args)
  : Loader.loaded Config.Config :=
  match Loader.load env (config_path env args) with
  | Loader.Loaded cfg => Loader.Loaded (cli_overrides args cfg)
  | Loader.Failed f => Loader.Failed f
  end.

(** [main(argv)], from the parsed arguments on. *)
Definition main (env : Loader.Env) (args : Args)
  (steps : list (World * Main.step))
  : Loader.loaded (result unit * trace) :=
  match configure env args with
  | Loader.Loaded cfg => Loader.Loaded (Main.main cfg steps)
  | Loader.Failed f => Loader.Failed f
  end.

(** The entries of the document that is merged: those of the config
    file when it exists and holds a dict, none otherwise. *)
Definition file_entries (env : Loader.Env) (args : Args)
  : list (str * Loader.value) :=
  match config_path env args with
  | Some p =>
      if Loader.path_exists env p then
        match Loader.safe_load env p with
        | Ok data =>
            if Loader.truth data then
              match Loader.mapping data with
              | Some d => d
              | None => []
              end
            else []
        | Raised _ => []
        end
      else []
  | None => []
  end.

(** The first source that gives a value, the default when none does. *)
Fixpoint first_of (sources : list (option str)) (default : str) : str :=
  match sources with
  | [] => default
  | Some s :: _ => s
  | None :: rest => first_of rest default
  end.

End Cli.

(* ===================================================================== *)
(** * Concrete environments and command lines *)
(* ===================================================================== *)

Module Setup.

(** A string that is not a number, an integer, and a dict, as values of
    a document. *)
Definition str_value (s : str) : Loader.value :=
  Loader.Value s (Str.truthy s) None None.

Definition int_value (z : Z) (written : str) : Loader.value :=
  Loader.Value written (negb (z =? 0)%Z) (Some z) None.

Definition false_value : Loader.value :=
  Loader.Value (py "False") false (Some 0%Z) None.

Definition dict_value (entries : list (str * Loader.value))
  : Loader.value :=
  Loader.Value (py "{...}")
    (match entries with [] => false | _ :: _ => true end) None
    (Some entries).

(** The file [config.yaml]:
    [hotkey: alt], [enable_cleanup: false], [whisper: {model_size:
    tiny.en}], [audio: {sample_rate: 44100}]. *)
Definition document : Loader.value :=
  dict_value
    [ (py "hotkey", str_value (py "alt"));
      (py "enable_cleanup", false_value);
      (py "whisper",
       dict_value [(py "model_size", str_value (py "tiny.en"))]);
      (py "audio",
       dict_value [(py "sample_rate", int_value 44100 (py "44100"))]) ].

(** An environment with that file and [OPENMUMBLE_HOTKEY=f9]. *)
Definition env : Loader.Env :=
  {| Loader.environ :=
       fun name => if Str.eqb name (py "OPENMUMBLE_HOTKEY")
                   then Some (py "f9") else None;
     Loader.path_exists := fun p => Str.eqb p (py "config.yaml");
     Loader.safe_load := fun _ => Ok document |}.

(** An environment with no file and no variable. *)
Definition env_bare : Loader.Env :=
  {| Loader.environ := fun _ => None;
     Loader.path_exists := fun _ => false;
     Loader.safe_load := fun _ => Ok Loader.empty_dict |}.

(** An environment whose [config.yaml] holds a plain string, and one
    whose [audio.sample_rate] is not a number. *)
Definition env_text : Loader.Env :=
  {| Loader.environ := fun _ => None;
     Loader.path_exists := fun p => Str.eqb p (py "config.yaml");
     Loader.safe_load := fun _ => Ok (str_value (py "hotkey alt")) |}.

Definition env_rate : Loader.Env :=
  {| Loader.environ := fun _ => None;
     Loader.path_exists := fun p => Str.eqb p (py "config.yaml");
     Loader.safe_load :=
       fun _ => Ok (dict_value
                      [(py "audio",
                        dict_value [(py "sample_rate",
                                     str_value (py "fast"))])]) |}.

(** The command lines [openmumble --model medium], [openmumble] and
    [openmumble --no-cleanup]. *)
Definition args : Cli.Args :=
  {| Cli.config := None; Cli.model := Some (py "medium");
     Cli.hotkey := None; Cli.no_cleanup := false |}.

Definition args_none : Cli.Args :=
  {| Cli.config := None; Cli.model := None;
     Cli.hotkey := None; Cli.no_cleanup := false |}.

Definition args_no_cleanup : Cli.Args :=
  {| Cli.config := None; Cli.model := None;
     Cli.hotkey := None; Cli.no_cleanup := true |}.

(** The configuration and the [App] of an environment and a command
    line that start (the defaults and the example [App] stand in when
    they do not). *)
Definition configured (env : Loader.Env) (args : Cli.Args)
  : Config.Config :=
  match Cli.configure env args with
  | Loader.Loaded cfg => cfg
  | Loader.Failed _ => Config.default
  end.

Definition app_of (cfg : Config.Config) : App.App :=
  match App.__init__ cfg with
  | Ok a => a
  | Raised _ => Example.app
  end.

End Setup.

Unset Implicit Arguments.

Section StrFacts.

Lemma Str_eqb_eq (a b : str) : Str.eqb a b = true <-> a = b.
Proof.
  unfold Str.eqb. destruct (list_eq_dec N.eq_dec a b); split; congruence.
Qed.

Lemma Str_eqb_refl (a : str) : Str.eqb a a = true.
Proof. now apply Str_eqb_eq. Qed.

Lemma Str_eqb_neq (a b : str) : Str.eqb a b = false <-> a <> b.
Proof.
  unfold Str.eqb. destruct (list_eq_dec N.eq_dec a b); split; congruence.
Qed.

Variable p : N -> bool.

(** What [dropwhile] leaves is empty or starts with a code point it does
    not drop. *)
Lemma dropwhile_head (s : str) :
  match Str.dropwhile p s with
  | [] => True
  | c :: _ => p c = false
  end.
Proof.
  induction s as [|c s IH]; simpl; [exact I|].
  destruct (p c) eqn:E; [exact IH | exact E].
Qed.

Lemma dropwhile_nil_iff (s : str) :
  Str.dropwhile p s = [] <-> forallb p s = true.
Proof.
  induction s as [|c s IH]; simpl; [tauto|].
  destruct (p c); simpl; [exact IH | split; discriminate].
Qed.

Lemma forallb_rev (s : str) : forallb p (rev s) = forallb p s.
Proof.
  induction s as [|c s IH]; simpl; [reflexivity|].
  rewrite forallb_app, IH. simpl. rewrite andb_true_r. apply andb_comm.
Qed.

(** Stripping on the right gives the empty string only for a string of
    dropped code points. *)
Lemma rstrip_by_nil_iff (s : str) :
  Str.rstrip_by p s = [] <-> forallb p s = true.
Proof.
  unfold Str.rstrip_by. rewrite <- (forallb_rev s), <- dropwhile_nil_iff.
  split; intro H.
  - apply (f_equal (@rev N)) in H. now rewrite rev_involutive in H.
  - now rewrite H.
Qed.

(** What [rstrip_by] leaves is empty or ends with a code point it does
    not drop; in particular it is not all dropped code points. *)
Lemma rstrip_by_forallb (s : str) :
  forallb p (Str.rstrip_by p s) = true -> Str.rstrip_by p s = [].
Proof.
  unfold Str.rstrip_by. rewrite forallb_rev. intro H.
  pose proof (dropwhile_head (rev s)) as Hd.
  destruct (Str.dropwhile p (rev s)) as [|c t]; [reflexivity|].
  simpl in H. rewrite Hd in H. discriminate.
Qed.

End StrFacts.

(** A blank string strips to the empty string. *)
Lemma strip_blank (s : str) : Str.blank s = true -> Str.strip s = [].
Proof.
  unfold Str.blank, Str.strip, Str.lstrip_by. intro H.
  apply dropwhile_nil_iff in H. now rewrite H.
Qed.

(** A string that strips to the empty string is blank. *)
Lemma strip_nil_blank (s : str) : Str.strip s = [] -> Str.blank s = true.
Proof.
  unfold Str.blank, Str.strip, Str.lstrip_by. intro H.
  apply rstrip_by_nil_iff in H.
  pose proof (dropwhile_head Str.isspace s) as Hd.
  destruct (Str.dropwhile Str.isspace s) as [|c t] eqn:E.
  - now apply dropwhile_nil_iff.
  - simpl in H. rewrite Hd in H. discriminate.
Qed.

(** A stripped string is blank only when it is empty. *)
Lemma strip_blank_nil (s : str) :
  Str.blank (Str.strip s) = true -> Str.strip s = [].
Proof. unfold Str.blank, Str.strip. apply rstrip_by_forallb. Qed.

Lemma truthy_strip (s : str) :
  Str.truthy (Str.strip s) = negb (Str.blank s).
Proof.
  destruct (Str.blank s) eqn:B.
  - now rewrite (strip_blank s B).
  - destruct (Str.strip s) eqn:E; [|reflexivity].
    apply strip_nil_blank in E. congruence.
Qed.

Lemma blank_truthy (s : str) : Str.blank s = false -> Str.truthy s = true.
Proof. destruct s; [discriminate | reflexivity]. Qed.

(* ===================================================================== *)
(** * Hotkey resolution and matching *)
(* ===================================================================== *)

Lemma lookup_Some_iff (k : str) (d : list (str * Keyboard.key)) :
  (exists v, App.lookup k d = Some v) <-> In k (map fst d).
Proof.
  induction d as [|[k' v'] d IH]; simpl.
  - split; [intros [v H]; discriminate | tauto].
  - destruct (Str.eqb k k') eqn:E.
    + apply Str_eqb_eq in E. subst k'. split; eauto.
    + apply Str_eqb_neq in E. rewrite IH. split; [tauto|].
      intros [H|H]; [congruence | exact H].
Qed.

(** The names in the table are written in small letters. *)
Lemma special_names_lower :
  Forall (fun name => Str.lower name = name) Spec.special_names.
Proof. repeat constructor. Qed.

Lemma names_special_key_iff (name : str) :
  Spec.names_special_key name <-> In (Str.lower name) Spec.special_names.
Proof.
  pose proof special_names_lower as L.
  rewrite Forall_forall in L.
  unfold Spec.names_special_key, Spec.caseless_eq. split.
  - intros [special [Hin Heq]]. rewrite Heq, (L _ Hin). exact Hin.
  - intro Hin. exists (Str.lower name). split; [exact Hin|].
    symmetry. apply (L _ Hin).
Qed.

Lemma resolve_hotkey_cases (name : str) :
  (In (Str.lower name) Spec.special_names /\
   exists k, App._resolve_hotkey name = Ok k) \/
  (~ In (Str.lower name) Spec.special_names /\
   App._resolve_hotkey name =
     if (length name =? 1)%nat then Ok (Keyboard.from_char name)
     else Raised (ValueError_unknown_hotkey name)).
Proof.
  unfold App._resolve_hotkey.
  destruct (App.lookup (Str.lower name) App._SPECIAL_KEYS) as [k|] eqn:E.
  - left. split; [|eauto]. apply lookup_Some_iff. eauto.
  - right. split; [|reflexivity]. intro Hin.
    apply lookup_Some_iff in Hin. destruct Hin as [v Hv]. congruence.
Qed.

(** C8. Resolution of a hotkey spec succeeds exactly when the spec names
    a special key, whatever the case of its letters, or is one character
    long.  For every other spec it raises the [ValueError] for an unknown
    hotkey, and it does so at startup: the construction of the [App]
    fails and [main] ends with that error before it has done anything,
    whatever key events would have followed. *)
Theorem resolve_hotkey_succeeds_iff
  (cfg : Config.Config) (steps : list (World * Main.step)) :
  let name := Config.hotkey cfg in
  let valid := Spec.names_special_key name \/ length name = 1%nat in
  ((exists k, App._resolve_hotkey name = Ok k) <-> valid)
  /\ (~ valid ->
      App._resolve_hotkey name = Raised (ValueError_unknown_hotkey name)
      /\ App.__init__ cfg = Raised (ValueError_unknown_hotkey name)
      /\ Main.main cfg steps = (Raised (ValueError_unknown_hotkey name), [])).
Proof.
  intros name valid. subst valid.
  rewrite names_special_key_iff.
  assert (Hinit : forall e, App._resolve_hotkey name = Raised e ->
            App.__init__ cfg = Raised e /\ Main.main cfg steps = (Raised e, [])).
  { intros e He. unfold Main.main, App.__init__. fold name.
    now rewrite He. }
  destruct (resolve_hotkey_cases name) as [[Hin [k Hk]] | [Hnin Hr]].
  - split.
    + split; eauto.
    + intro Hn. exfalso. apply Hn. now left.
  - destruct (length name =? 1)%nat eqn:L.
    + apply Nat.eqb_eq in L. split.
      * split; eauto.
      * intro Hn. exfalso. apply Hn. now right.
    + apply Nat.eqb_neq in L. split.
      * split.
        -- intros [k Hk]. congruence.
        -- intros [H|H]; contradiction.
      * intros _. split; [exact Hr|]. now apply Hinit.
Qed.

(** An unknown hotkey: [main] ends with the error, a known one is
    resolved. *)
Lemma resolve_hotkey_succeeds_iff_witness :
  App._resolve_hotkey (py "F5") = Ok (Keyboard.Key (py "f5"))
  /\ Main.main
       {| Config.anthropic_api_key := [];
          Config.claude_model := [];
          Config.whisper := Config.default_whisper;
          Config.audio := Config.default_audio;
          Config.hotkey := py "ctrl+x";
          Config.enable_cleanup := true |}
       [] = (Raised (ValueError_unknown_hotkey (py "ctrl+x")), []).
Proof.
  split; [reflexivity|].
  apply (resolve_hotkey_succeeds_iff
           {| Config.anthropic_api_key := [];
              Config.claude_model := [];
              Config.whisper := Config.default_whisper;
              Config.audio := Config.default_audio;
              Config.hotkey := py "ctrl+x";
              Config.enable_cleanup := true |} []).
  simpl. rewrite names_special_key_iff.
  intros [H|H]; [|discriminate].
  simpl in H.
  repeat (destruct H as [H|H]; [discriminate|]). exact H.
Defined.

(** The handlers look at a key through [_key_matches] only. *)
Lemma on_press_matches (w : World) (a : App.App) (k1 k2 : Keyboard.key) :
  App._key_matches a k1 = App._key_matches a k2 ->
  App._on_press w k1 a = App._on_press w k2 a.
Proof.
  intro H. unfold App._on_press, bind, get. now rewrite H.
Qed.

Lemma on_release_matches (a : App.App) (k1 k2 : Keyboard.key) :
  App._key_matches a k1 = App._key_matches a k2 ->
  App._on_release k1 a = App._on_release k2 a.
Proof.
  intro H. unfold App._on_release, bind, get. now rewrite H.
Qed.

(** Every named modifier resolves, and its resolved key matches the left
    and the right physical key of its family. *)
Lemma modifiers_match :
  Forall (fun m =>
            exists hk, App._resolve_hotkey (fst m) = Ok hk
              /\ App.key_matches hk (Spec.left_key (snd m)) = true
              /\ App.key_matches hk (Spec.right_key (snd m)) = true)
         Spec.modifiers.
Proof.
  repeat constructor;
    (eexists; split; [reflexivity | split; vm_compute; reflexivity]).
Qed.

(** Within a family every key matches every key, under each of its
    names. *)
Lemma family_keys_match :
  Forall (fun m =>
            forallb (fun hk =>
                       forallb (App.key_matches hk)
                               (Spec.family_keys (snd m)))
                    (Spec.family_keys (snd m)) = true)
         Spec.modifiers.
Proof. repeat constructor. Qed.

(** C7. When the configured hotkey is a named modifier key ([ctrl],
    [alt], [shift], [cmd] or [option]), it resolves to a key that
    [_key_matches] accepts for both the left and the right physical key of
    its family, and the press and the release handlers do the same on the
    two: same result, same state, same effects.  The match does not
    depend on the name the platform gives to a key of the family. *)
Theorem modifier_matches_left_and_right
  (name family : str) (w : World) (a : App.App) :
  In (name, family) Spec.modifiers ->
  App._resolve_hotkey name = Ok (App._hotkey a) ->
  App._key_matches a (Spec.left_key family) = true
  /\ App._key_matches a (Spec.right_key family) = true
  /\ App._on_press w (Spec.left_key family) a
     = App._on_press w (Spec.right_key family) a
  /\ App._on_release (Spec.left_key family) a
     = App._on_release (Spec.right_key family) a
  /\ (forall hk k,
        In hk (Spec.family_keys family) -> In k (Spec.family_keys family) ->
        App.key_matches hk k = true).
Proof.
  intros Hin Hres.
  pose proof modifiers_match as F. rewrite Forall_forall in F.
  destruct (F _ Hin) as [hk [Hhk [Hl Hr]]]. simpl in Hhk, Hl, Hr.
  assert (hk = App._hotkey a) by congruence. subst hk.
  assert (Hl' : App._key_matches a (Spec.left_key family) = true) by exact Hl.
  assert (Hr' : App._key_matches a (Spec.right_key family) = true) by exact Hr.
  split; [exact Hl'|]. split; [exact Hr'|]. split; [|split].
  - apply on_press_matches. congruence.
  - apply on_release_matches. congruence.
  - pose proof family_keys_match as G. rewrite Forall_forall in G.
    specialize (G _ Hin). cbn [snd] in G.
    rewrite forallb_forall in G. intros hk k Hhk' Hk.
    specialize (G hk Hhk'). rewrite forallb_forall in G. now apply G.
Qed.

(** The hotkey [ctrl] on the example [App]: the left and the right ctrl
    key match and are handled alike. *)
Lemma modifier_matches_left_and_right_witness :
  App._key_matches Example.app (Keyboard.Key (py "ctrl_l")) = true
  /\ App._key_matches Example.app (Keyboard.Key (py "ctrl_r")) = true
  /\ App._on_press Example.world (Keyboard.Key (py "ctrl_l")) Example.app
     = App._on_press Example.world (Keyboard.Key (py "ctrl_r")) Example.app
  /\ App._on_release (Keyboard.Key (py "ctrl_l")) Example.app
     = App._on_release (Keyboard.Key (py "ctrl_r")) Example.app.
Proof.
  pose proof (modifier_matches_left_and_right
                (py "ctrl") (py "ctrl") Example.world Example.app) as H.
  destruct H as [Hl [Hr [Hp [Hq _]]]].
  - simpl. left. reflexivity.
  - reflexivity.
  - repeat split; assumption.
Defined.

(* ===================================================================== *)
(** * The recording session *)
(* ===================================================================== *)

(** The samples of the example are the binary32 numbers they stand for:
    0.2 is 13421773 * 2^-26, and the mean of 0.2 and 0.4 is 0.3. *)
Example f32_one_fifth :
  F32.ratio 2 10 = S754_finite false 13421773 (-26).
Proof. reflexivity. Qed.

Example f32_mean_stereo : mean_axis1 Example.stereo = Example.mono.
Proof. reflexivity. Qed.

(** [stop] in one equation: the mono audio of the frames, a recorder with
    no stream and no frames, and the teardown of the stream. *)
Lemma stop_eq (r : Recorder.Recorder) :
  Recorder.stop r
  = (Ok (mean_axis1 (concatenate (Recorder._frames r))),
     Spec.stopped r, Spec.teardown r).
Proof.
  destruct r as [rate ch frames [stream|]]; destruct frames; reflexivity.
Qed.




(** What [_on_release] does on a matching release while recording. *)
Lemma on_release_recording (a : App.App) (k : Keyboard.key) :
  App._key_matches a k = true ->
  App._recording a = true ->
  App._on_release k a
  = let r := App.recorder a in
    let audio := mean_axis1 (concatenate (Recorder._frames r)) in
    let a' := App.set_recorder (Spec.stopped r) (App.set_recording false a) in
    if (size audio =? 0)%nat then
      (Ok tt, a', Spec.teardown r ++ [Print No_audio_captured])
    else if (Config.sample_rate (Config.audio (App.cfg a)) =? 0)%Z then
      (Raised ZeroDivisionError, a', Spec.teardown r)
    else
      (Ok tt, a',
       Spec.teardown r
       ++ [Print (Captured (size audio)
                    (Config.sample_rate (Config.audio (App.cfg a))));
           Thread_start Target_process audio]).
Proof.
  intros Hm Hr. unfold App._on_release, bind at 1, get. rewrite Hm, Hr.
  cbn [andb]. unfold bind at 1. unfold modify at 1.
  unfold bind at 1. unfold App.on_recorder, on_field.
  cbn [App.recorder App.set_recording]. rewrite stop_eq.
  cbv zeta. cbn [app].
  destruct (size _ =? 0)%nat; [reflexivity|].
  cbn [App.cfg App.set_recorder].
  destruct (Config.sample_rate _ =? 0)%Z; [|reflexivity].
  cbn. now rewrite app_nil_r.
Qed.

(** [_on_release] starts a thread for audio that is not empty only. *)
Lemma on_release_threads (a : App.App) (k : Keyboard.key) :
  forall target audio,
    In (Thread_start target audio) (snd (App._on_release k a)) ->
    size audio <> 0%nat.
Proof.
  intros target audio.
  destruct (App._key_matches a k && App._recording a) eqn:E.
  - apply andb_prop in E. destruct E as [Hm Hr].
    rewrite (on_release_recording a k Hm Hr). cbv zeta.
    destruct (size _ =? 0)%nat eqn:Z.
    + simpl. rewrite in_app_iff. unfold Spec.teardown.
      destruct (Recorder._stream _); simpl; intuition discriminate.
    + apply Nat.eqb_neq in Z.
      destruct (Config.sample_rate _ =? 0)%Z; simpl;
        rewrite ?in_app_iff; unfold Spec.teardown;
        destruct (Recorder._stream _); simpl; intuition try discriminate;
        match goal with H : Thread_start _ _ = Thread_start _ _ |- _ =>
          inversion H; subst; contradiction end.
  - unfold App._on_release, bind, get. rewrite E. simpl. tauto.
Qed.

(** C5. On a matching release while recording with no captured frame,
    [stop] returns an array of size zero, and the orchestrator goes back
    to idle, prints that no audio was captured and dispatches nothing:
    its effects are the teardown of the stream and that line, no thread
    is started in the process and no stage of the pipeline is called.
    More generally a release never starts a run for an empty array. *)
Theorem empty_capture_is_not_dispatched
  (a : App.App) (k : Keyboard.key) (p : Main.Process) :
  App._key_matches a k = true ->
  App._recording a = true ->
  Recorder._frames (App.recorder a) = [] ->
  Main.app p = a ->
  let r := App.recorder a in
  let a' := App.set_recorder (Spec.stopped r) (App.set_recording false a) in
  let t := Spec.teardown r ++ [Print No_audio_captured] in
  Recorder.stop r = (Ok [], Spec.stopped r, Spec.teardown r)
  /\ size [] = 0%nat
  /\ App._on_release k a = (Ok tt, a', t)
  /\ Spec.free_of Spec.pipeline_effect t
  /\ Main.in_process (App._on_release k) p
     = (Ok tt, {| Main.app := a'; Main.started := Main.started p |}, t)
  /\ (forall a0 k0 target audio,
        In (Thread_start target audio) (snd (App._on_release k0 a0)) ->
        size audio <> 0%nat).
Proof.
  intros Hm Hr Hf Hp. cbv zeta.
  assert (Hrel : App._on_release k a
            = (Ok tt,
               App.set_recorder (Spec.stopped (App.recorder a))
                 (App.set_recording false a),
               Spec.teardown (App.recorder a) ++ [Print No_audio_captured])).
  { rewrite (on_release_recording a k Hm Hr). cbv zeta. now rewrite Hf. }
  assert (Hfree : Spec.free_of Spec.pipeline_effect
            (Spec.teardown (App.recorder a) ++ [Print No_audio_captured])).
  { unfold Spec.free_of, Spec.teardown.
    destruct (Recorder._stream _); reflexivity. }
  repeat split.
  - rewrite stop_eq. now rewrite Hf.
  - exact Hrel.
  - exact Hfree.
  - unfold Main.in_process. rewrite Hp, Hrel. f_equal. f_equal.
    replace (Main.threads_of _) with (@nil (thread_target * array1)).
    + now rewrite app_nil_r.
    + unfold Spec.teardown, Main.threads_of.
      destruct (Recorder._stream _); reflexivity.
  - apply on_release_threads.
Qed.

(** The right ctrl key is released right after the press: the stream is
    torn down, the line is printed, nothing is started. *)
Lemma empty_capture_is_not_dispatched_witness :
  App._on_release (Keyboard.Key (py "ctrl_r")) Example.app_armed
  = (Ok tt, Example.app_stopped,
     [InputStream_stop; InputStream_close; Print No_audio_captured]).
Proof.
  refine (proj1 (proj2 (proj2 (empty_capture_is_not_dispatched
    Example.app_armed (Keyboard.Key (py "ctrl_r"))
    {| Main.app := Example.app_armed; Main.started := [] |} _ _ _ _))));
    reflexivity.
Defined.

(* ===================================================================== *)
(** * The stages *)
(* ===================================================================== *)

Lemma set_transcriber_same (a : App.App) :
  App.set_transcriber (App.transcriber a) a = a.
Proof. now destruct a. Qed.

Lemma set_recorder_same (a : App.App) :
  App.set_recorder (App.recorder a) a = a.
Proof. now destruct a. Qed.

(** C9. [transcribe] on an array of size zero returns the empty string at
    once: the transcriber is left as it was, so a model that was not
    loaded is still not loaded, and nothing is printed or called.  The
    warm-up thread that [run] starts is given the empty array; whenever
    it runs it therefore leaves the [App] as it was, and after it ran on a
    freshly built [App] the model is still [None]. *)
Theorem transcribe_empty_does_not_load
  (w : World) (t : Transcriber.Transcriber) (audio : array1)
  (cfg : Config.Config) (a : App.App) :
  size audio = 0%nat ->
  Transcriber.transcribe w audio t = (Ok [], t, [])
  /\ Main.thread_run w Target_transcribe audio a = (Ok tt, a, [])
  /\ (App.__init__ cfg = Ok a ->
      Main.run [(w, Main.Run 0)] {| Main.app := a; Main.started := [] |}
      = (Ok tt, {| Main.app := a; Main.started := [] |},
         [Print (Ready (Config.hotkey cfg));
          Thread_start Target_transcribe []; Print Bye])
      /\ Transcriber._model (App.transcriber a) = None).
Proof.
  intro Hsize. destruct audio as [|x audio]; [clear Hsize|discriminate].
  assert (Ht : forall t0, Transcriber.transcribe w [] t0 = (Ok [], t0, []))
    by reflexivity.
  assert (Hrun : forall a0,
            Main.thread_run w Target_transcribe [] a0 = (Ok tt, a0, [])).
  { intro a0. unfold Main.thread_run, try_except, bind, App.on_transcriber,
      on_field. rewrite Ht. cbn. now rewrite set_transcriber_same. }
  split; [apply Ht | split; [apply Hrun|]].
  intro Hinit. split.
  - unfold Main.run, bind at 1, get. unfold bind at 1. cbn [print emit].
    unfold bind at 1. cbn [Main.in_process App.start_thread emit Main.app
      Main.started Main.threads_of flat_map app].
    unfold bind at 1. cbn [Main.listen]. unfold bind at 1.
    unfold Main.deliver, bind at 1, get. cbn [Main.started nth_error].
    unfold bind at 1. cbn [modify Main.set_started Main.remove_nth Main.app].
    unfold Main.in_process. cbn [Main.app Main.started]. rewrite Hrun.
    cbn. unfold App.__init__ in Hinit.
    destruct (App._resolve_hotkey (Config.hotkey cfg)); [|discriminate].
    inversion Hinit. reflexivity.
  - unfold App.__init__ in Hinit.
    destruct (App._resolve_hotkey (Config.hotkey cfg)); [|discriminate].
    inversion Hinit. reflexivity.
Qed.

(** The warm-up on the example [App]: nothing is loaded. *)
Lemma transcribe_empty_does_not_load_witness :
  Main.thread_run Example.world Target_transcribe [] Example.app
  = (Ok tt, Example.app, [])
  /\ Transcriber._model (App.transcriber Example.app) = None.
Proof.
  split.
  - refine (proj1 (proj2 (transcribe_empty_does_not_load Example.world
      (App.transcriber Example.app) [] Example.cfg Example.app _))).
    reflexivity.
  - refine (proj2 (proj2 (proj2 (transcribe_empty_does_not_load Example.world
      (App.transcriber Example.app) [] Example.cfg Example.app _)) _));
      reflexivity.
Defined.

(** C10. [cleanup] on a string that is empty or all whitespace returns
    that string, leaves the processor as it was (no client is
    constructed) and has no effect at all (no call of the service, no
    line), whatever the API key of the configuration. *)
Theorem cleanup_blank_is_identity
  (w : World) (p : Processor.Processor) (raw_text : str) :
  Str.blank raw_text = true ->
  Processor.cleanup w raw_text p = (Ok raw_text, p, []).
Proof.
  intro B. unfold Processor.cleanup.
  rewrite truthy_strip, B. reflexivity.
Qed.

(** A string of blanks and a tab, with and without an API key. *)
Lemma cleanup_blank_is_identity_witness :
  Processor.cleanup Example.world [32; 9; 32]%N
    (Processor.__init__ Example.cfg)
  = (Ok [32; 9; 32]%N, Processor.__init__ Example.cfg, [])
  /\ Processor.cleanup Example.world [] (Processor.__init__ Config.default)
     = (Ok [], Processor.__init__ Config.default, []).
Proof.
  split.
  - apply (cleanup_blank_is_identity Example.world
             (Processor.__init__ Example.cfg) [32; 9; 32]%N).
    reflexivity.
  - apply (cleanup_blank_is_identity Example.world
             (Processor.__init__ Config.default) []).
    reflexivity.
Defined.

(** [_ensure_client] either has or constructs the client, or raises what
    the constructor raised; it never calls the service. *)
Lemma ensure_client_cases (w : World) (p : Processor.Processor) :
  (exists p' t, Processor._ensure_client w p = (Ok tt, p', t)
     /\ Processor._cfg p' = Processor._cfg p
     /\ Processor._client p' <> None
     /\ Spec.free_of (fun e => match e with
                               | Messages_create _ _ => true
                               | _ => false
                               end) t)
  \/ (exists e, Processor._ensure_client w p
        = (Raised e, p,
           [Anthropic_new (Config.anthropic_api_key (Processor._cfg p))])
      /\ Processor._client p = None /\ Anthropic w = Some e).
Proof.
  unfold Processor._ensure_client, bind, get.
  destruct (Processor._client p) as [c|] eqn:C.
  - left. exists p, []. split; [reflexivity|].
    split; [reflexivity|]. split; [congruence|reflexivity].
  - destruct (Anthropic w) as [e|] eqn:A.
    + right. exists e. cbn. auto.
    + left. cbn. eexists. eexists.
      split; [reflexivity|]. split; [reflexivity|].
      split; [discriminate|reflexivity].
Qed.

(** [cleanup] of a text that is not blank, with an API key: after the
    client, the call of the service; whatever it raises, and whatever the
    decoding of its answer raises, is caught and gives the raw text. *)
Lemma cleanup_call (w : World) (p p1 : Processor.Processor) (t1 : trace)
  (raw_text : str) :
  Str.blank raw_text = false ->
  Str.truthy (Config.anthropic_api_key (Processor._cfg p)) = true ->
  Processor._ensure_client w p = (Ok tt, p1, t1) ->
  let model := Config.claude_model (Processor._cfg p) in
  Processor.cleanup w raw_text p
  = match messages_create w model raw_text with
    | Ok (Some text :: _) =>
        (Ok (Str.strip text), p1, t1 ++ [Messages_create model raw_text])
    | Ok (None :: _) =>
        (Ok raw_text, p1,
         t1 ++ [Messages_create model raw_text;
                Print (Cleanup_failed AttributeError)])
    | Ok [] =>
        (Ok raw_text, p1,
         t1 ++ [Messages_create model raw_text;
                Print (Cleanup_failed IndexError)])
    | Raised e =>
        (Ok raw_text, p1,
         t1 ++ [Messages_create model raw_text; Print (Cleanup_failed e)])
    end.
Proof.
  intros B K E model. unfold Processor.cleanup.
  rewrite truthy_strip, B. cbn [negb].
  unfold bind at 1, get. rewrite K. cbn [negb].
  unfold bind at 1. rewrite E. fold model.
  unfold try_except, bind, emit, call_value.
  destruct (messages_create w model raw_text) as [[|[text|] rest]|e];
    reflexivity.
Qed.

Lemma cleanup_no_key (w : World) (p : Processor.Processor) (raw_text : str) :
  Str.blank raw_text = false ->
  Str.truthy (Config.anthropic_api_key (Processor._cfg p)) = false ->
  Processor.cleanup w raw_text p = (Ok raw_text, p, [Print No_api_key]).
Proof.
  intros B K. unfold Processor.cleanup.
  rewrite truthy_strip, B. cbn [negb].
  unfold bind at 1, get. rewrite K. reflexivity.
Qed.

(** When the constructor of the client raises, [cleanup] raises: the
    construction is outside the [try], and the service is not called. *)
Lemma cleanup_no_client (w : World) (p : Processor.Processor)
  (raw_text : str) (e : exc) :
  Str.blank raw_text = false ->
  Str.truthy (Config.anthropic_api_key (Processor._cfg p)) = true ->
  Processor._client p = None ->
  Anthropic w = Some e ->
  Processor.cleanup w raw_text p
  = (Raised e, p,
     [Anthropic_new (Config.anthropic_api_key (Processor._cfg p))]).
Proof.
  intros B K C A. unfold Processor.cleanup.
  rewrite truthy_strip, B. cbn [negb].
  unfold bind at 1, get. rewrite K. cbn [negb].
  unfold bind at 1. unfold Processor._ensure_client, bind, get.
  rewrite C. cbn. rewrite A. reflexivity.
Qed.



(** [transcribe] returns a stripped string: when it is blank it is empty. *)
Lemma transcribe_blank_empty (w : World) (audio : array1)
  (t t' : Transcriber.Transcriber) (raw : str) (tr : trace) :
  Transcriber.transcribe w audio t = (Ok raw, t', tr) ->
  Str.blank raw = true ->
  raw = [].
Proof.
  unfold Transcriber.transcribe.
  destruct (size audio =? 0)%nat.
  - intros H _. inversion H. reflexivity.
  - unfold bind at 1, get. unfold bind at 1.
    destruct (match Transcriber._model t with
              | Some _ => ret tt
              | None => Transcriber._load_model w
              end t) as [[[[]|e] t1] tr1]; [|discriminate].
    unfold bind, emit, call_value.
    destruct (model_transcribe w audio) as [segments|e]; cbn.
    + intros H B. inversion H; subst. now apply strip_blank_nil.
    + discriminate.
Qed.

(** The transcription stage calls neither the cleanup service nor the
    insertion. *)
Lemma transcribe_free (w : World) (audio : array1)
  (t : Transcriber.Transcriber) :
  Spec.free_of Spec.cleanup_effect (snd (Transcriber.transcribe w audio t))
  /\ Spec.free_of Spec.insertion_effect
       (snd (Transcriber.transcribe w audio t)).
Proof.
  unfold Transcriber.transcribe, Transcriber._load_model.
  destruct (size audio =? 0)%nat; [split; reflexivity|].
  unfold bind, get, print, emit, call, call_value, modify, ret, raise.
  destruct (Transcriber._model t); destruct (WhisperModel w);
    destruct (model_transcribe w audio); split; reflexivity.
Qed.

(** Two traces that are the same list, written with [++] in two ways. *)
Ltac trace_eq :=
  cbn [app];
  repeat (rewrite <- app_assoc || rewrite <- app_comm_cons
          || rewrite app_nil_r);
  cbn [app]; reflexivity.

(** [_process] is the production of the text followed by the insertion. *)
Lemma process_split (w : World) (audio : array1) (a : App.App) :
  App._process w audio a
  = (o <- Spec.produce_text w audio ;;
     match o with
     | None => ret tt
     | Some final_text =>
         App.function (Inserter.insert_text w final_text) ;;
         print Done_inserted
     end) a.
Proof.
  unfold App._process, Spec.produce_text, bind, get, print, emit, ret.
  destruct (App.on_transcriber (Transcriber.transcribe w audio) a)
    as [[[raw|e] a1] t1]; [|reflexivity].
  destruct (Str.truthy raw); cbn [negb];
    [|cbn; rewrite ?app_nil_r; reflexivity].
  destruct (App.processor a1) as [p|].
  - destruct (App.on_processor p (Processor.cleanup w raw) a1)
      as [[[final|e] a2] t2]; [|reflexivity].
    destruct (Str.eqb final raw); cbn [negb];
      destruct (App.function (Inserter.insert_text w final) a2)
        as [[[[]|e] a3] t3]; trace_eq.
  - destruct (App.function (Inserter.insert_text w raw) a1)
      as [[[[]|e] a3] t3]; trace_eq.
Qed.

Lemma free_of_app (p : effect -> bool) (t1 t2 : trace) :
  Spec.free_of p t1 -> Spec.free_of p t2 -> Spec.free_of p (t1 ++ t2).
Proof.
  unfold Spec.free_of. intros H1 H2. now rewrite forallb_app, H1, H2.
Qed.

(** C4. In a run whose transcription returns a blank string (it is then
    the empty string), [_process] reports that no speech was detected and
    returns: its effects are those of the transcription followed by that
    line, with no effect of the cleanup stage and none of the insertion
    stage, and the processor is left as it was.  The thread of the run
    ends without an error. *)
Theorem silence_ends_the_run
  (w : World) (a : App.App) (audio : array1)
  (raw : str) (t' : Transcriber.Transcriber) (tr : trace) :
  Transcriber.transcribe w audio (App.transcriber a) = (Ok raw, t', tr) ->
  Str.blank raw = true ->
  let run := tr ++ [Print No_speech_detected] in
  App._process w audio a = (Ok tt, App.set_transcriber t' a, run)
  /\ Main.thread_run w Target_process audio a
     = (Ok tt, App.set_transcriber t' a, run)
  /\ Spec.free_of Spec.cleanup_effect run
  /\ Spec.free_of Spec.insertion_effect run
  /\ App.processor (App.set_transcriber t' a) = App.processor a.
Proof.
  intros Ht B run.
  assert (raw = []) by (eapply transcribe_blank_empty; eauto). subst raw.
  assert (Hp : App._process w audio a
               = (Ok tt, App.set_transcriber t' a, run)).
  { unfold App._process, bind at 1, App.on_transcriber, on_field.
    rewrite Ht. reflexivity. }
  split; [exact Hp|]. split.
  - unfold Main.thread_run, try_except. now rewrite Hp.
  - pose proof (transcribe_free w audio (App.transcriber a)) as [F1 F2].
    rewrite Ht in F1, F2. cbn [snd] in F1, F2.
    repeat split; try (apply free_of_app; [assumption|reflexivity]).
Qed.

(** A recording of silence on the example [App]: the model is loaded,
    the engine answers blank segments, and the run ends there. *)
Lemma silence_ends_the_run_witness :
  App._process Example.world_silence (mean_axis1 Example.chunk) Example.app
  = (Ok tt,
     App.set_transcriber
       (Transcriber.set_model
          (Some {| Transcriber.loaded_size := py "small.en";
                   Transcriber.loaded_device := py "cpu";
                   Transcriber.loaded_compute_type := py "int8" |})
          (App.transcriber Example.app))
       Example.app,
     [Print (Loading_model (py "small.en") (py "cpu") (py "int8"));
      WhisperModel_new (py "small.en") (py "cpu") (py "int8");
      Print Model_loaded;
      WhisperModel_transcribe (mean_axis1 Example.chunk);
      Print No_speech_detected]).
Proof.
  refine (proj1 (silence_ends_the_run Example.world_silence Example.app
    (mean_axis1 Example.chunk) []
    (Transcriber.set_model
       (Some {| Transcriber.loaded_size := py "small.en";
                Transcriber.loaded_device := py "cpu";
                Transcriber.loaded_compute_type := py "int8" |})
       (App.transcriber Example.app))
    [Print (Loading_model (py "small.en") (py "cpu") (py "int8"));
     WhisperModel_new (py "small.en") (py "cpu") (py "int8");
     Print Model_loaded;
     WhisperModel_transcribe (mean_axis1 Example.chunk)]
    _ _)); reflexivity.
Defined.

(* ===================================================================== *)
(** * Effects of composed methods *)
(* ===================================================================== *)

Section EffectsIn.

Variable P : effect -> Prop.

Lemma effects_in_ret {S A} (a : A) : Spec.effects_in P (@ret S A a).
Proof. intro s. constructor. Qed.

Lemma effects_in_raise {S A} (e : exc) : Spec.effects_in P (@raise S A e).
Proof. intro s. constructor. Qed.

Lemma effects_in_get {S} : Spec.effects_in P (@get S).
Proof. intro s. constructor. Qed.

Lemma effects_in_modify {S} (f : S -> S) : Spec.effects_in P (modify f).
Proof. intro s. constructor. Qed.

Lemma effects_in_emit {S} (x : effect) : P x -> Spec.effects_in P (@emit S x).
Proof. intros H s. repeat constructor. exact H. Qed.

Lemma effects_in_call {S} (o : option exc) : Spec.effects_in P (@call S o).
Proof. destruct o; intro s; constructor. Qed.

Lemma effects_in_call_value {S A} (o : result A) :
  Spec.effects_in P (@call_value S A o).
Proof. destruct o; intro s; constructor. Qed.

Lemma effects_in_bind {S A B} (m : M S A) (f : A -> M S B) :
  Spec.effects_in P m -> (forall a, Spec.effects_in P (f a)) ->
  Spec.effects_in P (bind m f).
Proof.
  intros Hm Hf s. unfold bind. specialize (Hm s).
  destruct (m s) as [[[a|e] s1] t1]; cbn [snd] in *; [|exact Hm].
  specialize (Hf a s1). destruct (f a s1) as [[r s2] t2]. cbn [snd] in *.
  apply Forall_app. split; assumption.
Qed.

Lemma effects_in_try_except {S A} (m : M S A) (h : exc -> M S A) :
  Spec.effects_in P m -> (forall e, Spec.effects_in P (h e)) ->
  Spec.effects_in P (try_except m h).
Proof.
  intros Hm Hh s. unfold try_except. specialize (Hm s).
  destruct (m s) as [[[a|e] s1] t1]; cbn [snd] in *; [exact Hm|].
  specialize (Hh e s1). destruct (h e s1) as [[r s2] t2]. cbn [snd] in *.
  apply Forall_app. split; assumption.
Qed.

Lemma effects_in_on_field {S F A} (proj : S -> F) (upd : F -> S -> S)
  (m : M F A) :
  Spec.effects_in P m -> Spec.effects_in P (on_field proj upd m).
Proof.
  intros Hm s. unfold on_field. specialize (Hm (proj s)).
  destruct (m (proj s)) as [[r f] t]. exact Hm.
Qed.

Lemma effects_in_on_processor {A} (p : Processor.Processor)
  (m : M Processor.Processor A) :
  Spec.effects_in P m -> Spec.effects_in P (App.on_processor p m).
Proof.
  intros Hm s. unfold App.on_processor. specialize (Hm p).
  destruct (m p) as [[r f] t]. exact Hm.
Qed.

Lemma effects_in_function {A} (m : M unit A) :
  Spec.effects_in P m -> Spec.effects_in P (App.function m).
Proof.
  intros Hm s. unfold App.function. specialize (Hm tt).
  destruct (m tt) as [[r f] t]. exact Hm.
Qed.

End EffectsIn.

(** The effects of a method, one construct of the monad at a time; what
    is left is a goal [P x] for every effect [x] the method emits. *)
Ltac effects :=
  repeat first
    [ apply effects_in_ret | apply effects_in_raise | apply effects_in_get
    | apply effects_in_modify | apply effects_in_call
    | apply effects_in_call_value
    | apply effects_in_bind; [|intro]
    | apply effects_in_try_except; [|intro]
    | apply effects_in_on_field | apply effects_in_on_processor
    | apply effects_in_function
    | apply effects_in_emit
    | match goal with
      | |- Spec.effects_in _ (if ?b then _ else _) => destruct b
      | |- Spec.effects_in _ (match ?x with _ => _ end) => destruct x
      end ].

(** No stage of the pipeline starts a thread. *)
Lemma process_starts_no_thread (w : World) (audio : array1) :
  Spec.effects_in Spec.starts_no_thread (App._process w audio).
Proof.
  unfold App._process, Transcriber.transcribe, Transcriber._load_model,
    Processor.cleanup, Processor._ensure_client, Processor.first_text,
    Inserter.insert_text, Inserter._insert_macos, Inserter._insert_linux,
    Inserter.run, print.
  effects; exact I.
Qed.

Lemma transcribe_starts_no_thread (w : World) (audio : array1) :
  Spec.effects_in Spec.starts_no_thread (Transcriber.transcribe w audio).
Proof.
  unfold Transcriber.transcribe, Transcriber._load_model, print.
  effects; exact I.
Qed.

Lemma threads_of_nil (t : trace) :
  Forall Spec.starts_no_thread t -> Main.threads_of t = [].
Proof.
  induction 1 as [|x t Hx _ IH]; [reflexivity|].
  unfold Main.threads_of in *. cbn [flat_map]. rewrite IH.
  destruct x; try reflexivity. destruct Hx.
Qed.

Lemma threads_of_app (t1 t2 : trace) :
  Main.threads_of (t1 ++ t2) = Main.threads_of t1 ++ Main.threads_of t2.
Proof. unfold Main.threads_of. apply flat_map_app. Qed.

(* ===================================================================== *)
(** * Pipeline runs in the process *)
(* ===================================================================== *)

(** A run whose text was produced: what is left is the insertion. *)
Lemma process_of_text (w : World) (audio : array1) (a a1 : App.App)
  (final : str) (t1 : trace) :
  Spec.produce_text w audio a = (Ok (Some final), a1, t1) ->
  App._process w audio a
  = match Inserter.insert_text w final tt with
    | (Ok _, _, ti) => (Ok tt, a1, t1 ++ ti ++ [Print Done_inserted])
    | (Raised e, _, ti) => (Raised e, a1, t1 ++ ti)
    end.
Proof.
  intro H. rewrite process_split. unfold bind at 1. rewrite H.
  unfold bind, App.function, print, emit.
  destruct (Inserter.insert_text w final tt) as [[[[]|e] []] ti];
    reflexivity.
Qed.

(** A started thread runs: it is taken off the started ones, and the
    process goes on whatever its target did. *)
Lemma deliver_run (w : World) (p : Main.Process) (i : nat)
  (audio : array1) :
  nth_error (Main.started p) i = Some (Target_process, audio) ->
  Main.deliver w (Main.Run i) p
  = let '(r, a', t) :=
      Main.thread_run w Target_process audio (Main.app p) in
    (r, {| Main.app := a';
           Main.started := Main.remove_nth i (Main.started p) |}, t).
Proof.
  intro H. unfold Main.deliver, bind at 1, get. rewrite H.
  unfold bind, modify, Main.in_process.
  cbn [Main.app Main.started Main.set_started].
  pose proof (effects_in_try_except Spec.starts_no_thread
                (App._process w audio)
                (fun e => emit (Thread_excepthook e))
                (process_starts_no_thread w audio)) as Hn.
  specialize (Hn (fun e => effects_in_emit _ (Thread_excepthook e) I)
                 (Main.app p)).
  unfold Main.thread_run.
  destruct (try_except (App._process w audio)
              (fun e => emit (Thread_excepthook e)) (Main.app p))
    as [[r a'] t].
  cbn [snd] in Hn. rewrite (threads_of_nil t Hn), app_nil_r.
  reflexivity.
Qed.

(** C2. In a dispatched run whose text was produced and whose insertion
    raises, the exception leaves [_process] after every stage has been
    called; the thread of the run hands it to [threading.excepthook],
    which reports it, and ends.  The process is not affected: the step
    returns, the [App] is the one the production of the text left, the
    same as after a run whose insertion returns, and the listener goes on
    with the steps that follow. *)
Theorem insertion_failure_is_reported
  (w : World) (p : Main.Process) (i : nat) (audio : array1)
  (final : str) (a1 : App.App) (t1 ti : trace) (e : exc) :
  nth_error (Main.started p) i = Some (Target_process, audio) ->
  Spec.produce_text w audio (Main.app p) = (Ok (Some final), a1, t1) ->
  Inserter.insert_text w final tt = (Raised e, tt, ti) ->
  let p' := {| Main.app := a1;
               Main.started := Main.remove_nth i (Main.started p) |} in
  let report := t1 ++ ti ++ [Thread_excepthook e] in
  App._process w audio (Main.app p) = (Raised e, a1, t1 ++ ti)
  /\ Main.thread_run w Target_process audio (Main.app p)
     = (Ok tt, a1, report)
  /\ Main.deliver w (Main.Run i) p = (Ok tt, p', report)
  /\ (forall rest,
        Main.listen ((w, Main.Run i) :: rest) p
        = let '(r, q, t) := Main.listen rest p' in (r, q, report ++ t))
  /\ (forall w_ok ti_ok,
        Spec.produce_text w_ok audio (Main.app p)
        = (Ok (Some final), a1, t1) ->
        Inserter.insert_text w_ok final tt = (Ok tt, tt, ti_ok) ->
        Main.deliver w_ok (Main.Run i) p
        = (Ok tt, p', t1 ++ ti_ok ++ [Print Done_inserted])).
Proof.
  intros Hn Ht Hi p' report.
  assert (Hp : App._process w audio (Main.app p) = (Raised e, a1, t1 ++ ti)).
  { rewrite (process_of_text w audio _ a1 final t1 Ht), Hi. reflexivity. }
  assert (Hr : Main.thread_run w Target_process audio (Main.app p)
               = (Ok tt, a1, report)).
  { unfold Main.thread_run, try_except. rewrite Hp. cbn [emit].
    subst report. now rewrite app_assoc. }
  assert (Hd : Main.deliver w (Main.Run i) p = (Ok tt, p', report)).
  { rewrite (deliver_run w p i audio Hn), Hr. reflexivity. }
  split; [exact Hp|]. split; [exact Hr|]. split; [exact Hd|]. split.
  - intro rest. cbn [Main.listen]. unfold bind. rewrite Hd. reflexivity.
  - intros w_ok ti_ok Ht' Hi'.
    rewrite (deliver_run w_ok p i audio Hn).
    unfold Main.thread_run, try_except.
    rewrite (process_of_text w_ok audio _ a1 final t1 Ht'), Hi'.
    reflexivity.
Qed.

(** The example [App] with one run started, on a machine where [xdotool]
    fails: the step of the run returns, and the failure is reported. *)
Lemma insertion_failure_is_reported_witness :
  fst (fst (Main.deliver Example.world_paste_fails (Main.Run 0)
              {| Main.app := Example.app;
                 Main.started :=
                   [(Target_process, mean_axis1 Example.chunk)] |}))
  = Ok tt
  /\ In (Thread_excepthook Example.paste_failed)
        (snd (Main.deliver Example.world_paste_fails (Main.Run 0)
                {| Main.app := Example.app;
                   Main.started :=
                     [(Target_process, mean_axis1 Example.chunk)] |})).
Proof.
  pose proof (insertion_failure_is_reported
    Example.world_paste_fails
    {| Main.app := Example.app;
       Main.started := [(Target_process, mean_axis1 Example.chunk)] |}
    0 (mean_axis1 Example.chunk) (py "Hello, world.")
    (snd (fst (Spec.produce_text Example.world_paste_fails
                 (mean_axis1 Example.chunk) Example.app)))
    (snd (Spec.produce_text Example.world_paste_fails
            (mean_axis1 Example.chunk) Example.app))
    (snd (Inserter.insert_text Example.world_paste_fails
            (py "Hello, world.") tt))
    Example.paste_failed) as H.
  destruct H as [_ [_ [Hd _]]]; [reflexivity | reflexivity | reflexivity |].
  rewrite Hd. split; [reflexivity|].
  cbn [snd]. apply in_or_app. right. apply in_or_app. right.
  left. reflexivity.
Defined.

(* ===================================================================== *)
(** * The orchestrator as a two-state automaton *)
(* ===================================================================== *)

(** [start] in one equation: the frames are cleared first; the stream is
    kept once its constructor returned. *)
Lemma start_eq (w : World) (r : Recorder.Recorder) :
  Recorder.start w r
  = let new := InputStream_new (Recorder.sample_rate r)
                 (Recorder.channels r) in
    match sd_InputStream w with
    | Some e => (Raised e, Recorder.set_frames [] r, [new])
    | None =>
        match sd_start w with
        | Some e => (Raised e, Spec.opened r, [new; InputStream_start])
        | None => (Ok tt, Spec.opened r, [new; InputStream_start])
        end
    end.
Proof.
  unfold Recorder.start, bind, get, modify, emit, call, ret, raise.
  destruct (sd_InputStream w); [reflexivity|].
  destruct (sd_start w); reflexivity.
Qed.

Lemma on_press_idle (w : World) (a : App.App) (k : Keyboard.key) :
  App._key_matches a k = true ->
  App._recording a = false ->
  App._on_press w k a
  = let '(r, rec, t) := Recorder.start w (App.recorder a) in
    (r, App.set_recorder rec (App.set_recording true a),
     Print Recording_started :: t).
Proof.
  intros Hm Hr. unfold App._on_press, bind at 1, get. rewrite Hm, Hr.
  cbn [andb negb]. unfold bind, modify, print, emit, App.on_recorder,
    on_field. cbn [App.recorder App.set_recording].
  destruct (Recorder.start w (App.recorder a)) as [[r rec] t]. reflexivity.
Qed.

Lemma on_press_noop (w : World) (a : App.App) (k : Keyboard.key) :
  App._key_matches a k = false \/ App._recording a = true ->
  App._on_press w k a = (Ok tt, a, []).
Proof.
  intro H. unfold App._on_press, bind, get.
  destruct H as [H|H]; rewrite H; [|rewrite andb_false_r]; reflexivity.
Qed.

Lemma on_release_noop (a : App.App) (k : Keyboard.key) :
  App._key_matches a k = false \/ App._recording a = false ->
  App._on_release k a = (Ok tt, a, []).
Proof.
  intro H. unfold App._on_release, bind, get.
  destruct H as [H|H]; rewrite H; [|rewrite andb_false_r]; reflexivity.
Qed.

Lemma on_release_stops (a : App.App) (k : Keyboard.key) :
  App._key_matches a k = true ->
  App._recording a = true ->
  exists r t,
    App._on_release k a
    = (r, App.set_recorder (Spec.stopped (App.recorder a))
            (App.set_recording false a), t).
Proof.
  intros Hm Hr. rewrite (on_release_recording a k Hm Hr). cbv zeta.
  destruct (size _ =? 0)%nat; [eauto|].
  destruct (Config.sample_rate _ =? 0)%Z; eauto.
Qed.

(** One event: the flag follows the automaton, the hotkey stays. *)
Lemma handle_step (w : World) (ev : Spec.key_event) (a : App.App) :
  let a' := snd (fst (Spec.handle w ev a)) in
  Spec.session_of (App._recording a')
  = Spec.next (Spec.session_of (App._recording a))
      (Spec.edge_of (App._hotkey a) ev)
  /\ App._hotkey a' = App._hotkey a.
Proof.
  cbv zeta. destruct ev as [k|k]; cbn [Spec.handle Spec.edge_of];
    fold (App._key_matches a k);
    destruct (App._key_matches a k) eqn:Hm;
    destruct (App._recording a) eqn:Hr.
  - rewrite (on_press_noop w a k (or_intror Hr)). cbn. now rewrite Hr.
  - rewrite (on_press_idle w a k Hm Hr).
    destruct (Recorder.start w (App.recorder a)) as [[r rec] t].
    split; reflexivity.
  - rewrite (on_press_noop w a k (or_introl Hm)). cbn. now rewrite Hr.
  - rewrite (on_press_noop w a k (or_introl Hm)). cbn. now rewrite Hr.
  - destruct (on_release_stops a k Hm Hr) as [r [t E]]. rewrite E.
    split; reflexivity.
  - rewrite (on_release_noop a k (or_intror Hr)). cbn. now rewrite Hr.
  - rewrite (on_release_noop a k (or_introl Hm)). cbn. now rewrite Hr.
  - rewrite (on_release_noop a k (or_introl Hm)). cbn. now rewrite Hr.
Qed.

Lemma handle_all_session (evs : list (World * Spec.key_event))
  (a : App.App) :
  Spec.session_of (App._recording (fst (Spec.handle_all evs a)))
  = Spec.run_session (Spec.session_of (App._recording a))
      (map (fun we => Spec.edge_of (App._hotkey a) (snd we)) evs).
Proof.
  revert a. induction evs as [|[w ev] evs IH]; intro a; [reflexivity|].
  cbn [Spec.handle_all map Spec.run_session fold_left snd].
  pose proof (handle_step w ev a) as [Hs Hk]. cbv zeta in Hs, Hk.
  destruct (Spec.handle w ev a) as [[r a1] t1]. cbn [fst snd] in Hs, Hk.
  specialize (IH a1).
  destruct (Spec.handle_all evs a1) as [a2 t2]. cbn [fst] in *.
  rewrite IH, Hs, Hk. reflexivity.
Qed.

(** C1. Whatever key events are delivered, in whatever worlds, the
    recording flag follows the automaton
    [Idle --matching press--> Recording --matching release--> Idle].
    A matching press while idle sets the flag and starts the session
    ([Recorder.start]: the frames are cleared and the stream is opened);
    a matching release while recording clears the flag and stops the
    session ([Recorder.stop]: no stream, no frames).  Every other event
    (a press or a release of a key that does not match, a matching press
    while recording, a matching release while idle) returns with the
    [App] as it was, flag and frames included, and no effect. *)
Theorem recording_flag_alternates
  (evs : list (World * Spec.key_event)) (w : World) (a : App.App)
  (k : Keyboard.key) :
  Spec.session_of (App._recording (fst (Spec.handle_all evs a)))
  = Spec.run_session (Spec.session_of (App._recording a))
      (map (fun we => Spec.edge_of (App._hotkey a) (snd we)) evs)
  /\ (App._key_matches a k = true -> App._recording a = false ->
      exists r rec t,
        Recorder.start w (App.recorder a) = (r, rec, t)
        /\ App._on_press w k a
           = (r, App.set_recorder rec (App.set_recording true a),
              Print Recording_started :: t)
        /\ Recorder._frames rec = []
        /\ (sd_InputStream w = None -> rec = Spec.opened (App.recorder a)))
  /\ (App._key_matches a k = true -> App._recording a = true ->
      exists r t,
        App._on_release k a
        = (r, App.set_recorder (Spec.stopped (App.recorder a))
                (App.set_recording false a), t))
  /\ (App._key_matches a k = false \/ App._recording a = true ->
      App._on_press w k a = (Ok tt, a, []))
  /\ (App._key_matches a k = false \/ App._recording a = false ->
      App._on_release k a = (Ok tt, a, [])).
Proof.
  split; [apply handle_all_session|].
  split; [|split; [apply on_release_stops|]; split;
            [apply on_press_noop | apply on_release_noop]].
  intros Hm Hr. rewrite (on_press_idle w a k Hm Hr), start_eq. cbv zeta.
  destruct (sd_InputStream w) as [e|].
  - eexists. eexists. eexists. repeat split. discriminate.
  - destruct (sd_start w) as [e|];
      eexists; eexists; eexists; repeat split.
Qed.

(** The left ctrl key goes down, the right one goes down too, the key
    [a] is released, the right ctrl key is released, and the left one:
    recording starts at the first event and ends at the fourth. *)
Lemma recording_flag_alternates_witness :
  Spec.session_of
    (App._recording
       (fst (Spec.handle_all
               [ (Example.world, Spec.Pressed (Keyboard.Key (py "ctrl_l")));
                 (Example.world, Spec.Pressed (Keyboard.Key (py "ctrl_r")));
                 (Example.world, Spec.Released (Keyboard.from_char (py "a")));
                 (Example.world, Spec.Released (Keyboard.Key (py "ctrl_r")));
                 (Example.world, Spec.Released (Keyboard.Key (py "ctrl_l"))) ]
               Example.app)))
  = Spec.run_session Spec.Idle
      [ Spec.Matching_press; Spec.Matching_press; Spec.Other;
        Spec.Matching_release; Spec.Matching_release ]
  /\ App._on_release (Keyboard.Key (py "ctrl_l")) Example.app
     = (Ok tt, Example.app, []).
Proof.
  split.
  - exact (proj1 (recording_flag_alternates
      [ (Example.world, Spec.Pressed (Keyboard.Key (py "ctrl_l")));
        (Example.world, Spec.Pressed (Keyboard.Key (py "ctrl_r")));
        (Example.world, Spec.Released (Keyboard.from_char (py "a")));
        (Example.world, Spec.Released (Keyboard.Key (py "ctrl_r")));
        (Example.world, Spec.Released (Keyboard.Key (py "ctrl_l"))) ]
      Example.world Example.app (Keyboard.Key (py "ctrl_l")))).
  - refine (proj2 (proj2 (proj2 (proj2 (recording_flag_alternates
      [] Example.world Example.app (Keyboard.Key (py "ctrl_l")))))) _).
    right. reflexivity.
Defined.

(* ===================================================================== *)
(** * Further properties of the recording session *)
(* ===================================================================== *)



(** X2. [stop] drains the recorder: a second [stop] right after the
    first returns the empty array and has no effect, whatever the first
    one returned. *)
Theorem stop_twice_is_empty (r : Recorder.Recorder) :
  (Recorder.stop ;; Recorder.stop) r
  = (Ok [], Spec.stopped r, Spec.teardown r)
  /\ Recorder.stop (Spec.stopped r) = (Ok [], Spec.stopped r, []).
Proof.
  assert (H : Recorder.stop (Spec.stopped r) = (Ok [], Spec.stopped r, [])).
  { rewrite stop_eq. destruct r as [rate ch frames stream]. reflexivity. }
  split; [|exact H].
  unfold bind. rewrite stop_eq, H. now rewrite app_nil_r.
Qed.

Lemma length_mean_axis1 (a : array2) : size (mean_axis1 a) = length a.
Proof. apply length_map. Qed.

Lemma length_concat_sum {A} (l : list (list A)) :
  length (concat l) = list_sum (map (@length A) l).
Proof.
  induction l as [|x l IH]; [reflexivity|].
  cbn [concat map list_sum]. now rewrite length_app, IH.
Qed.

(** X3. The array [stop] returns has one sample for every captured
    frame, whatever the number of channels: its size is the sum of the
    numbers of frames of the chunks. *)
Theorem stop_size_is_frame_count (r : Recorder.Recorder) (audio : array1) :
  fst (fst (Recorder.stop r)) = Ok audio ->
  size audio = list_sum (map (@length (list F32.t)) (Recorder._frames r)).
Proof.
  rewrite stop_eq. cbn [fst]. intro H. inversion H.
  rewrite length_mean_axis1. apply length_concat_sum.
Qed.

Lemma stop_size_is_frame_count_witness :
  size Example.mono = 2%nat.
Proof.
  exact (stop_size_is_frame_count
           {| Recorder.sample_rate := 16000; Recorder.channels := 2;
              Recorder._frames := [Example.stereo];
              Recorder._stream := None |}
           Example.mono eq_refl).
Defined.

(** X4. Whatever [start] did, a [stop] after it returns the empty array
    and leaves no stream and no frames: the frames are cleared before the
    stream is constructed.  When the constructor of the stream raises,
    the stream field is left as it was; when [stream.start()] raises, the
    new stream is already assigned and [stop] tears it down. *)
Theorem stop_after_start_is_empty (w : World) (r : Recorder.Recorder) :
  let r1 := snd (fst (Recorder.start w r)) in
  Recorder._frames r1 = []
  /\ Recorder.stop r1 = (Ok [], Spec.stopped r, Spec.teardown r1)
  /\ (sd_InputStream w <> None -> Recorder._stream r1 = Recorder._stream r)
  /\ (sd_InputStream w = None ->
      Spec.teardown r1 = [InputStream_stop; InputStream_close]).
Proof.
  cbv zeta. rewrite start_eq. cbv zeta.
  destruct r as [rate ch frames stream].
  destruct (sd_InputStream w) as [e|]; [|destruct (sd_start w) as [e|]];
    cbn [fst snd]; rewrite stop_eq;
    (split; [reflexivity|]); (split; [reflexivity|]);
    split; intro H; try reflexivity; try discriminate;
      exfalso; now apply H.
Qed.

(* ===================================================================== *)
(** * Further properties of the hotkey *)
(* ===================================================================== *)

(** The names of the special keys have two code points or more. *)
Lemma special_names_long :
  Forall (fun name => 2 <= length name) Spec.special_names.
Proof. repeat constructor. Qed.

Lemma lower_length (s : str) : length (Str.lower s) = length s.
Proof. apply length_map. Qed.

(** X5. A spec of one character resolves to the key code of that very
    character, whatever its case, and the resolved key matches the key
    codes that carry this character and are not dead keys, and nothing
    else a listener delivers: no member of [Key], not [None], no other
    character, the same letter in the other case included.  (The one
    other match of [KeyCode.__eq__] is a key code with neither [char] nor
    [vk].) *)
Theorem char_hotkey_matches_its_char (name : str) (k : Keyboard.key) :
  length name = 1%nat ->
  App._resolve_hotkey name = Ok (Keyboard.from_char name)
  /\ (App.key_matches (Keyboard.from_char name) k = true <->
      (exists vk, k = Keyboard.KeyCode vk (Some name) false)
      \/ (exists dead, k = Keyboard.KeyCode None None dead)).
Proof.
  intro L. split.
  - destruct (resolve_hotkey_cases name) as [[Hin _] | [_ Hr]].
    + pose proof special_names_long as F. rewrite Forall_forall in F.
      specialize (F _ Hin). rewrite lower_length in F. lia.
    + rewrite Hr, L. reflexivity.
  - unfold App.key_matches, Keyboard.from_char.
    destruct k as [n | vk [c|] d | ]; cbn.
    + split; [discriminate|]. intros [[vk H]|[d H]]; discriminate.
    + split.
      * intro H. apply andb_prop in H. destruct H as [Hc Hd].
        apply Str_eqb_eq in Hc. subst c. destruct d; [discriminate|].
        left. eauto.
      * intros [[vk' H]|[d' H]]; inversion H; subst.
        now rewrite Str_eqb_refl.
    + destruct vk as [z|]; cbn.
      * split; [discriminate|]. intros [[vk H]|[d' H]]; discriminate.
      * split; [eauto|reflexivity].
    + split; [discriminate|]. intros [[vk H]|[d H]]; discriminate.
Qed.

(** The hotkey [a]: the key [a] matches, the key [A] does not. *)
Lemma char_hotkey_matches_its_char_witness :
  App._resolve_hotkey (py "a") = Ok (Keyboard.from_char (py "a"))
  /\ App.key_matches (Keyboard.from_char (py "a"))
       (Keyboard.KeyCode (Some 65%Z) (Some (py "a")) false) = true.
Proof.
  split.
  - apply (char_hotkey_matches_its_char (py "a") Keyboard.NoKey).
    reflexivity.
  - apply (char_hotkey_matches_its_char (py "a")
             (Keyboard.KeyCode (Some 65%Z) (Some (py "a")) false)).
    + reflexivity.
    + left. exists (Some 65%Z). reflexivity.
Defined.

(** A named hotkey matches the members of [Key] whose name is its own up
    to the trailing [_], [l] and [r]. *)
Lemma key_matches_named (h : str) (k : Keyboard.key) :
  App.key_matches (Keyboard.Key h) k = true <->
  exists n, k = Keyboard.Key n
            /\ Str.rstrip (py "_lr") n = Str.rstrip (py "_lr") h.
Proof.
  unfold App.key_matches. destruct k as [n | vk c d | ].
  - split.
    + intro H. exists n. split; [reflexivity|].
      apply orb_prop in H. destruct H as [H|H].
      * now apply Str_eqb_eq.
      * cbn in H. apply Str_eqb_eq in H. now subst.
    + intros [n' [E H]]. inversion E; subst n'.
      rewrite H, Str_eqb_refl. reflexivity.
  - split; [discriminate|]. intros [n [E _]]. discriminate.
  - split; [discriminate|]. intros [n [E _]]. discriminate.
Qed.

(** Two keys of the table whose names agree up to the trailing [_], [l]
    and [r] are one key. *)
Lemma special_keys_apart :
  forallb (fun e1 =>
    forallb (fun e2 =>
      match snd e1, snd e2 with
      | Keyboard.Key h1, Keyboard.Key h2 =>
          implb (Str.eqb (Str.rstrip (py "_lr") h1)
                         (Str.rstrip (py "_lr") h2))
                (Str.eqb h1 h2)
      | _, _ => false
      end) App._SPECIAL_KEYS) App._SPECIAL_KEYS = true.
Proof. vm_compute. reflexivity. Qed.

Lemma lookup_In (k : str) (d : list (str * Keyboard.key)) (v : Keyboard.key) :
  App.lookup k d = Some v -> In (k, v) d.
Proof.
  induction d as [|[k' v'] d IH]; cbn; [discriminate|].
  destruct (Str.eqb k k') eqn:E.
  - apply Str_eqb_eq in E. subst. intro H. inversion H. now left.
  - intro H. right. now apply IH.
Qed.

(** X6. No key triggers two special hotkeys: when the keys two names of
    [_SPECIAL_KEYS] resolve to both match one key event, they are the
    same key (as for [alt] and [option]).  So a ctrl hotkey is not
    triggered by a shift, alt or cmd key, nor [f1] by [f11].  A named
    hotkey matches members of [Key] only, never a character. *)
Theorem special_hotkeys_do_not_overlap
  (n1 n2 : str) (hk1 hk2 k : Keyboard.key) :
  App.lookup n1 App._SPECIAL_KEYS = Some hk1 ->
  App.lookup n2 App._SPECIAL_KEYS = Some hk2 ->
  App.key_matches hk1 k = true ->
  App.key_matches hk2 k = true ->
  hk1 = hk2 /\ exists name, k = Keyboard.Key name.
Proof.
  intros L1 L2 M1 M2.
  apply lookup_In in L1. apply lookup_In in L2.
  pose proof special_keys_apart as A.
  rewrite forallb_forall in A. specialize (A _ L1).
  rewrite forallb_forall in A. specialize (A _ L2). cbn [snd] in A.
  destruct hk1 as [h1| |]; try discriminate.
  destruct hk2 as [h2| |]; try discriminate.
  apply key_matches_named in M1. destruct M1 as [m1 [E1 R1]].
  apply key_matches_named in M2. destruct M2 as [m2 [E2 R2]].
  subst k. inversion E2; subst m2.
  rewrite <- R1, R2, Str_eqb_refl in A. cbn in A.
  apply Str_eqb_eq in A. subst. split; [reflexivity|eauto].
Qed.

(** The right alt key triggers [alt] and [option], which are one key. *)
Lemma special_hotkeys_do_not_overlap_witness :
  Keyboard.Key (py "alt_l") = Keyboard.Key (py "alt_l")
  /\ exists name, Keyboard.Key (py "alt_r") = Keyboard.Key name.
Proof.
  apply (special_hotkeys_do_not_overlap (py "alt") (py "option")
           (Keyboard.Key (py "alt_l")) (Keyboard.Key (py "alt_l"))
           (Keyboard.Key (py "alt_r"))); reflexivity.
Defined.

(* ===================================================================== *)
(** * Key handlers and pipeline runs on the one [App] *)
(* ===================================================================== *)

(** A key handler leaves the stages as they are, and does not look at
    them. *)
Lemma handle_frame (w : World) (ev : Spec.key_event) (a : App.App) :
  Session.same_stages a (snd (fst (Spec.handle w ev a))).
Proof.
  unfold Session.same_stages.
  destruct ev as [k|k]; cbn [Spec.handle];
    destruct (App._key_matches a k) eqn:Hm;
    destruct (App._recording a) eqn:Hr.
  - rewrite (on_press_noop w a k (or_intror Hr)). now destruct a.
  - rewrite (on_press_idle w a k Hm Hr).
    destruct (Recorder.start w (App.recorder a)) as [[r rec] t].
    now destruct a.
  - rewrite (on_press_noop w a k (or_introl Hm)). now destruct a.
  - rewrite (on_press_noop w a k (or_introl Hm)). now destruct a.
  - destruct (on_release_stops a k Hm Hr) as [r [t E]]. rewrite E.
    now destruct a.
  - rewrite (on_release_noop a k (or_intror Hr)). now destruct a.
  - rewrite (on_release_noop a k (or_introl Hm)). now destruct a.
  - rewrite (on_release_noop a k (or_introl Hm)). now destruct a.
Qed.

(** The fields of an [App] that is given field by field. *)
Ltac app_fields :=
  cbv beta iota zeta delta
    [App.recorder App.transcriber App.processor App.cfg App._recording
     App._hotkey App.set_recording App.set_recorder App.set_transcriber
     App.set_processor fst snd].

Lemma handle_local (w : World) (ev : Spec.key_event)
  (t : Transcriber.Transcriber) (p : option Processor.Processor)
  (a : App.App) :
  Spec.handle w ev (Session.set_stages t p a)
  = let '(r, a', tr) := Spec.handle w ev a in
    (r, Session.set_stages t p a', tr).
Proof.
  destruct a as [cfg0 rec0 tr0 pr0 flag0 hk0].
  destruct ev as [k|k]; cbn [Spec.handle].
  - unfold App._on_press, App.on_recorder, App._key_matches.
    remember (Recorder.start w) as start eqn:Es. clear Es.
    unfold bind, get, modify, print, emit, on_field, Session.set_stages.
    app_fields.
    destruct (App.key_matches hk0 k && negb flag0); [|reflexivity].
    destruct (start rec0) as [[r rec] t1]. reflexivity.
  - unfold App._on_release, App.on_recorder, App._key_matches,
      App.start_thread.
    remember Recorder.stop as stop eqn:Es. clear Es.
    unfold bind, get, modify, print, emit, raise, ret, on_field,
      Session.set_stages.
    app_fields.
    destruct (App.key_matches hk0 k && flag0); [|reflexivity].
    destruct (stop rec0) as [[[audio|e] rec] t1]; [|reflexivity].
    destruct (size audio =? 0)%nat; [reflexivity|].
    destruct (Config.sample_rate (Config.audio cfg0) =? 0)%Z; reflexivity.
Qed.

(** A thread of the program leaves the session as it is, and does not
    look at it. *)
Lemma thread_run_local (w : World) (target : thread_target)
  (audio : array1) (b : bool) (rec : Recorder.Recorder) (a : App.App) :
  Main.thread_run w target audio (Session.set_session b rec a)
  = let '(r, a', tr) := Main.thread_run w target audio a in
    (r, Session.set_session b rec a', tr).
Proof.
  destruct a as [cfg0 rec0 tr0 pr0 flag0 hk0].
  unfold Main.thread_run, App._process, App.on_transcriber,
    App.on_processor, App.function.
  remember (Transcriber.transcribe w audio) as transcribe eqn:E1. clear E1.
  remember (Processor.cleanup w) as cleanup eqn:E2. clear E2.
  remember (Inserter.insert_text w) as insert_text eqn:E3. clear E3.
  unfold try_except, bind, get, print, emit, ret, on_field, Session.set_session.
  app_fields.
  destruct target.
  - destruct (transcribe tr0) as [[[raw|e] tr1] t1]; reflexivity.
  - destruct (transcribe tr0) as [[[raw|e] tr1] t1]; [|reflexivity].
    destruct (Str.truthy raw); cbn [negb]; [|reflexivity].
    destruct pr0 as [p|].
    + destruct (cleanup raw p) as [[[final|e] p1] t2]; [|reflexivity].
      destruct (Str.eqb final raw); cbn [negb];
        destruct (insert_text final tt) as [[[[]|e] []] t3]; reflexivity.
    + destruct (insert_text raw tt) as [[[[]|e] []] t3]; reflexivity.
Qed.

Lemma thread_run_frame (w : World) (target : thread_target)
  (audio : array1) (a : App.App) :
  Session.same_session a (snd (fst (Main.thread_run w target audio a))).
Proof.
  unfold Session.same_session.
  destruct a as [cfg0 rec0 tr0 pr0 flag0 hk0].
  unfold Main.thread_run, App._process, App.on_transcriber,
    App.on_processor, App.function.
  remember (Transcriber.transcribe w audio) as transcribe eqn:E1. clear E1.
  remember (Processor.cleanup w) as cleanup eqn:E2. clear E2.
  remember (Inserter.insert_text w) as insert_text eqn:E3. clear E3.
  unfold try_except, bind, get, print, emit, ret, on_field, Session.set_stages.
  app_fields.
  destruct target.
  - destruct (transcribe tr0) as [[[raw|e] tr1] t1]; reflexivity.
  - destruct (transcribe tr0) as [[[raw|e] tr1] t1]; [|reflexivity].
    destruct (Str.truthy raw); cbn [negb]; [|reflexivity].
    destruct pr0 as [p|].
    + destruct (cleanup raw p) as [[[final|e] p1] t2]; [|reflexivity].
      destruct (Str.eqb final raw); cbn [negb];
        destruct (insert_text final tt) as [[[[]|e] []] t3]; reflexivity.
    + destruct (insert_text raw tt) as [[[[]|e] []] t3]; reflexivity.
Qed.

(** X7. The key handlers and the threads work on two parts of the [App]
    that do not meet.  A key handler leaves the transcriber, the
    processor, the configuration and the hotkey as they are; a thread
    (a pipeline run or the warm-up) leaves the recording flag, the
    recorder, the configuration and the hotkey as they are.  So a run
    that is still going never disturbs a recording, and a key event
    never disturbs a run. *)
Theorem handlers_and_runs_are_disjoint
  (w : World) (ev : Spec.key_event) (target : thread_target)
  (audio : array1) (a : App.App) :
  (let a' := snd (fst (Spec.handle w ev a)) in
   App.transcriber a' = App.transcriber a
   /\ App.processor a' = App.processor a
   /\ App.cfg a' = App.cfg a
   /\ App._hotkey a' = App._hotkey a)
  /\ (let a' := snd (fst (Main.thread_run w target audio a)) in
      App._recording a' = App._recording a
      /\ App.recorder a' = App.recorder a
      /\ App.cfg a' = App.cfg a
      /\ App._hotkey a' = App._hotkey a).
Proof.
  split; cbv zeta.
  - pose proof (handle_frame w ev a) as H. unfold Session.same_stages in H.
    rewrite H. now destruct a.
  - pose proof (thread_run_frame w target audio a) as H.
    unfold Session.same_session in H. rewrite H. now destruct a.
Qed.

(** X8. A key handler and a thread commute: run one after the other on
    the same [App], in either order, each returns what it returns in the
    other order, with the same effects, and the [App] they leave is the
    same.  That is what makes it sound to let a run go on while key
    events are handled. *)
Theorem handler_and_run_commute
  (w1 w2 : World) (ev : Spec.key_event) (target : thread_target)
  (audio : array1) (a : App.App) :
  let '(r1, a1, t1) := Spec.handle w1 ev a in
  let '(r2, a2, t2) := Main.thread_run w2 target audio a1 in
  let '(r2', b1, t2') := Main.thread_run w2 target audio a in
  let '(r1', b2, t1') := Spec.handle w1 ev b1 in
  a2 = b2 /\ r1 = r1' /\ t1 = t1' /\ r2 = r2' /\ t2 = t2'.
Proof.
  pose proof (handle_frame w1 ev a) as Hf.
  pose proof (thread_run_frame w2 target audio a) as Tf.
  destruct (Spec.handle w1 ev a) as [[r1 a1] t1] eqn:H1.
  destruct (Main.thread_run w2 target audio a) as [[r2' b1] t2'] eqn:T1.
  cbn [fst snd] in Hf, Tf. unfold Session.same_stages in Hf.
  unfold Session.same_session in Tf.
  assert (Ha : exists fl rec, a1 = Session.set_session fl rec a) by eauto.
  assert (Hb : exists tr pr, b1 = Session.set_stages tr pr a) by eauto.
  clear Hf Tf. destruct Ha as [fl [rec Ha]]. destruct Hb as [tr [pr Hb]].
  subst a1 b1.
  rewrite thread_run_local, T1, handle_local, H1.
  repeat split.
Qed.

(* ===================================================================== *)
(** * The process from startup on *)
(* ===================================================================== *)

Lemma in_process_eq {A} (m : M App.App A) (p : Main.Process) :
  Main.in_process m p
  = (fst (fst (m (Main.app p))),
     {| Main.app := snd (fst (m (Main.app p)));
        Main.started :=
          Main.started p ++ Main.threads_of (snd (m (Main.app p))) |},
     snd (m (Main.app p))).
Proof.
  unfold Main.in_process. destruct (m (Main.app p)) as [[r a] t].
  reflexivity.
Qed.

(** What one step of the process does to the [App]. *)
Lemma deliver_app (w : World) (s : Main.step) (p : Main.Process) :
  Main.app (snd (fst (Main.deliver w s p)))
  = match s with
    | Main.Press k => snd (fst (App._on_press w k (Main.app p)))
    | Main.Release k => snd (fst (App._on_release k (Main.app p)))
    | Main.Callback indata status =>
        match Recorder._stream (App.recorder (Main.app p)) with
        | Some _ =>
            App.set_recorder
              (Recorder.set_frames
                 (Recorder._frames (App.recorder (Main.app p)) ++ [indata])
                 (App.recorder (Main.app p)))
              (Main.app p)
        | None => Main.app p
        end
    | Main.Run i =>
        match nth_error (Main.started p) i with
        | Some (target, audio) =>
            snd (fst (Main.thread_run w target audio (Main.app p)))
        | None => Main.app p
        end
    end.
Proof.
  destruct s as [k|k|indata status|i]; cbn [Main.deliver].
  - now rewrite in_process_eq.
  - now rewrite in_process_eq.
  - unfold bind at 1, get.
    destruct (Recorder._stream (App.recorder (Main.app p))); [|reflexivity].
    rewrite in_process_eq. cbn [fst snd Main.app].
    unfold App.on_recorder, on_field, Recorder._callback, bind, get, modify.
    destruct status; reflexivity.
  - unfold bind at 1, get.
    destruct (nth_error (Main.started p) i) as [[target audio]|];
      [|reflexivity].
    unfold bind, modify. rewrite in_process_eq. reflexivity.
Qed.

(** A thread ends without raising, whatever its target does. *)
Lemma thread_run_ok (w : World) (target : thread_target) (audio : array1)
  (a : App.App) :
  fst (fst (Main.thread_run w target audio a)) = Ok tt.
Proof.
  unfold Main.thread_run, try_except. destruct target.
  - destruct ((App.on_transcriber (Transcriber.transcribe w audio) ;; ret tt)
                a) as [[[[]|e] a1] t1]; reflexivity.
  - destruct (App._process w audio a) as [[[[]|e] a1] t1]; reflexivity.
Qed.

(** Only the handler of a key event can raise in a step. *)
Lemma deliver_result (w : World) (s : Main.step) (p : Main.Process) :
  fst (fst (Main.deliver w s p))
  = match s with
    | Main.Press k => fst (fst (App._on_press w k (Main.app p)))
    | Main.Release k => fst (fst (App._on_release k (Main.app p)))
    | _ => Ok tt
    end.
Proof.
  destruct s as [k|k|indata status|i]; cbn [Main.deliver].
  - now rewrite in_process_eq.
  - now rewrite in_process_eq.
  - unfold bind at 1, get.
    destruct (Recorder._stream (App.recorder (Main.app p))); [|reflexivity].
    rewrite in_process_eq. cbn [fst snd Main.app].
    unfold App.on_recorder, on_field, Recorder._callback, bind, get, modify.
    destruct status; reflexivity.
  - unfold bind at 1, get.
    destruct (nth_error (Main.started p) i) as [[target audio]|];
      [|reflexivity].
    unfold bind, modify. rewrite in_process_eq. cbn [fst snd].
    rewrite thread_run_ok. reflexivity.
Qed.

Lemma thread_run_session (w : World) (target : thread_target)
  (audio : array1) (a : App.App) :
  App._recording (snd (fst (Main.thread_run w target audio a)))
  = App._recording a
  /\ App.recorder (snd (fst (Main.thread_run w target audio a)))
     = App.recorder a.
Proof.
  pose proof (thread_run_frame w target audio a) as H.
  unfold Session.same_session in H. rewrite H. now destruct a.
Qed.

Lemma deliver_invariant (w : World) (s : Main.step) (p : Main.Process) :
  Session.idle_clean (Main.app p) ->
  Session.idle_clean (Main.app (snd (fst (Main.deliver w s p))))
  /\ (Session.armed_open (Main.app p) ->
      fst (fst (Main.deliver w s p)) = Ok tt ->
      Session.armed_open (Main.app (snd (fst (Main.deliver w s p))))).
Proof.
  intro Hi. rewrite deliver_app, deliver_result.
  set (a := Main.app p) in *.
  unfold Session.idle_clean, Session.armed_open in *.
  destruct s as [k|k|indata status|i].
  - destruct (App._key_matches a k) eqn:Hm;
      destruct (App._recording a) eqn:Hr;
      try (rewrite (on_press_noop w a k (or_introl Hm)); cbn [fst snd];
           rewrite Hr; tauto).
    + rewrite (on_press_noop w a k (or_intror Hr)). cbn [fst snd].
      rewrite Hr. tauto.
    + rewrite (on_press_idle w a k Hm Hr), start_eq. cbv zeta.
      destruct (sd_InputStream w); [|destruct (sd_start w)];
        cbn [fst snd]; (split; [discriminate|]); intros _ H _;
        try discriminate H.
      destruct a as [c r t pr fl hk]. destruct r. discriminate.
  - destruct (App._key_matches a k) eqn:Hm;
      destruct (App._recording a) eqn:Hr;
      try (rewrite (on_release_noop a k (or_introl Hm)); cbn [fst snd];
           rewrite Hr; tauto).
    + destruct (on_release_stops a k Hm Hr) as [r [t E]]. rewrite E.
      cbn [fst snd]. split; [|discriminate].
      intros _. destruct a as [c rc tr pr fl hk]. destruct rc. split;
        reflexivity.
    + rewrite (on_release_noop a k (or_intror Hr)). cbn [fst snd].
      rewrite Hr. tauto.
  - destruct (Recorder._stream (App.recorder a)) eqn:Hs; [|tauto].
    destruct (App._recording a) eqn:Hr.
    + destruct a as [c rc tr pr fl hk]. destruct rc.
      cbn in *. subst. split; [discriminate|]. intros _ _ _. discriminate.
    + destruct (Hi eq_refl) as [H _]. discriminate.
  - destruct (nth_error (Main.started p) i) as [[target audio]|]; [|tauto].
    pose proof (thread_run_session w target audio a)
      as [Hfl Hrec].
    rewrite Hfl, Hrec. tauto.
Qed.

Lemma listen_invariant (steps : list (World * Main.step))
  (p : Main.Process) :
  Session.idle_clean (Main.app p) ->
  Session.idle_clean (Main.app (snd (fst (Main.listen steps p))))
  /\ (Session.armed_open (Main.app p) ->
      fst (fst (Main.listen steps p)) = Ok tt ->
      Session.armed_open (Main.app (snd (fst (Main.listen steps p))))).
Proof.
  revert p. induction steps as [|[w s] steps IH]; intros p Hi.
  - cbn. tauto.
  - cbn [Main.listen]. unfold bind.
    pose proof (deliver_invariant w s p Hi) as [Hi1 Ha1].
    destruct (Main.deliver w s p) as [[[[]|e] p1] t1]; cbn [fst snd] in *.
    + specialize (IH p1 Hi1).
      destruct (Main.listen steps p1) as [[r p2] t2]. cbn [fst snd] in *.
      destruct IH as [Hi2 Ha2]. split; [exact Hi2|].
      intros Ha Hr. apply Ha2; [now apply Ha1|exact Hr].
    + split; [exact Hi1|discriminate].
Qed.

(** [run] around the listener. *)
Lemma run_eq (steps : list (World * Main.step)) (p : Main.Process) :
  Main.run steps p
  = let p0 := {| Main.app := Main.app p;
                 Main.started :=
                   Main.started p ++ [(Target_transcribe, [])] |} in
    let before := [Print (Ready (Config.hotkey (App.cfg (Main.app p))));
                   Thread_start Target_transcribe []] in
    match Main.listen steps p0 with
    | (Ok _, p', t) => (Ok tt, p', before ++ t ++ [Print Bye])
    | (Raised e, p', t) => (Raised e, p', before ++ t)
    end.
Proof.
  unfold Main.run, bind at 1, get. unfold bind at 1. cbn [print emit].
  unfold bind at 1. rewrite in_process_eq. cbn [fst snd App.start_thread emit
    Main.threads_of flat_map app].
  unfold bind, print, emit. cbv zeta.
  destruct (Main.listen steps _) as [[[[]|e] p1] t1]; reflexivity.
Qed.

(** X9. From startup on, an idle [App] holds no stream and no frames,
    whatever key events, chunks and runs the process has seen and
    however the listener ended; and as long as no handler has raised, a
    recording [App] holds an open stream.  So [start] is never called
    while a stream is open, and no stream is left open behind. *)
Theorem idle_app_holds_no_stream
  (cfg : Config.Config) (a : App.App) (steps : list (World * Main.step)) :
  App.__init__ cfg = Ok a ->
  let outcome := Main.run steps {| Main.app := a; Main.started := [] |} in
  let a' := Main.app (snd (fst outcome)) in
  (App._recording a' = false ->
   Recorder._stream (App.recorder a') = None
   /\ Recorder._frames (App.recorder a') = [])
  /\ (fst (fst outcome) = Ok tt ->
      App._recording a' = true ->
      Recorder._stream (App.recorder a') <> None).
Proof.
  intros Hinit.
  assert (Ha : Session.idle_clean a /\ Session.armed_open a).
  { unfold App.__init__ in Hinit.
    destruct (App._resolve_hotkey (Config.hotkey cfg)); [|discriminate].
    inversion Hinit. split; [intros _; split; reflexivity|discriminate]. }
  cbv zeta. rewrite run_eq. cbv zeta.
  set (p0 := {| Main.app := _; Main.started := _ |}).
  change a with (Main.app p0) in Ha.
  destruct Ha as [Hi Ha].
  pose proof (listen_invariant steps p0 Hi) as [Hi' Ha'].
  destruct (Main.listen steps p0) as [[[[]|e] p1] t1]; cbn [fst snd] in *.
  - split; [exact Hi'|]. intros _. now apply Ha'.
  - split; [exact Hi'|discriminate].
Qed.

(** The example [App] after a press and a release of the right ctrl key:
    idle, no stream, no frames. *)
Lemma idle_app_holds_no_stream_witness :
  Recorder._stream
    (App.recorder
       (Main.app (snd (fst (Main.run
          [ (Example.world, Main.Press (Keyboard.Key (py "ctrl_r")));
            (Example.world, Main.Release (Keyboard.Key (py "ctrl_r"))) ]
          {| Main.app := Example.app; Main.started := [] |})))))
  = None.
Proof.
  refine (proj1 (proj1 (idle_app_holds_no_stream Example.cfg Example.app
    [ (Example.world, Main.Press (Keyboard.Key (py "ctrl_r")));
      (Example.world, Main.Release (Keyboard.Key (py "ctrl_r"))) ] _) _));
    reflexivity.
Defined.





(** X11. When the input stream cannot be opened, the exception leaves
    the press handler with the recording flag already set and the frames
    cleared; the listener ends with that exception, and the key events
    that follow are not handled. *)
Theorem unopened_device_ends_the_listener
  (w : World) (k : Keyboard.key) (e : exc)
  (rest : list (World * Main.step)) (p : Main.Process) :
  App._key_matches (Main.app p) k = true ->
  App._recording (Main.app p) = false ->
  sd_InputStream w = Some e ->
  let a := Main.app p in
  Main.listen ((w, Main.Press k) :: rest) p
  = (Raised e,
     {| Main.app :=
          Session.set_session true
            (Recorder.set_frames [] (App.recorder a)) a;
        Main.started := Main.started p |},
     [Print Recording_started;
      InputStream_new (Recorder.sample_rate (App.recorder a))
        (Recorder.channels (App.recorder a))]).
Proof.
  intros Hm Hr Hnew a. cbn [Main.listen]. unfold bind. cbn [Main.deliver].
  rewrite in_process_eq. fold a.
  rewrite (on_press_idle w a k Hm Hr), start_eq. cbv zeta. rewrite Hnew.
  cbn [fst snd Main.threads_of flat_map app]. rewrite app_nil_r.
  destruct a as [cf rc tr pr fl hk]. reflexivity.
Qed.

(** No input device on the example [App]: the press of the left ctrl key
    ends the listener, the release is not handled. *)
Lemma unopened_device_ends_the_listener_witness :
  fst (fst (Main.listen
              [ (Case.world_no_device,
                 Main.Press (Keyboard.Key (py "ctrl_l")));
                (Case.world_no_device,
                 Main.Release (Keyboard.Key (py "ctrl_l"))) ]
              {| Main.app := Example.app; Main.started := [] |}))
  = Raised Case.no_device.
Proof.
  rewrite (unopened_device_ends_the_listener Case.world_no_device
             (Keyboard.Key (py "ctrl_l")) Case.no_device
             [ (Case.world_no_device,
                Main.Release (Keyboard.Key (py "ctrl_l"))) ]
             {| Main.app := Example.app; Main.started := [] |}
             eq_refl eq_refl eq_refl).
  reflexivity.
Defined.

(* ===================================================================== *)
(** * Further properties of the stages *)
(* ===================================================================== *)

Section StripFacts.

Variable p : N -> bool.

Lemma dropwhile_fixed (s : str) :
  match s with [] => True | c :: _ => p c = false end ->
  Str.dropwhile p s = s.
Proof. destruct s as [|c s]; cbn; [reflexivity|]. now intros ->. Qed.

(** What [dropwhile] drops is a prefix. *)
Lemma dropwhile_suffix (s : str) :
  exists dropped, s = dropped ++ Str.dropwhile p s.
Proof.
  induction s as [|c s [d IH]]; [now exists []|].
  cbn. destruct (p c).
  - exists (c :: d). cbn. now f_equal.
  - now exists [].
Qed.

(** What [rstrip_by] leaves is a prefix that it leaves as it is. *)
Lemma rstrip_by_prefix (s : str) :
  exists dropped, s = Str.rstrip_by p s ++ dropped.
Proof.
  unfold Str.rstrip_by. destruct (dropwhile_suffix (rev s)) as [d H].
  exists (rev d). apply (f_equal (@rev N)) in H.
  now rewrite rev_involutive, rev_app_distr in H.
Qed.

Lemma rstrip_by_idempotent (s : str) :
  Str.rstrip_by p (Str.rstrip_by p s) = Str.rstrip_by p s.
Proof.
  unfold Str.rstrip_by. rewrite rev_involutive.
  rewrite (dropwhile_fixed (Str.dropwhile p (rev s))); [reflexivity|].
  apply dropwhile_head.
Qed.

End StripFacts.

(** [strip] leaves a stripped string as it is. *)
Lemma strip_idempotent (s : str) : Str.strip (Str.strip s) = Str.strip s.
Proof.
  unfold Str.strip, Str.lstrip_by.
  set (l := Str.dropwhile Str.isspace s).
  rewrite (dropwhile_fixed Str.isspace (Str.rstrip_by Str.isspace l)).
  - apply rstrip_by_idempotent.
  - destruct (rstrip_by_prefix Str.isspace l) as [d H].
    pose proof (dropwhile_head Str.isspace s) as Hh. fold l in Hh.
    destruct (Str.rstrip_by Str.isspace l) as [|c m]; [exact I|].
    rewrite H in Hh. exact Hh.
Qed.

(** X12. What [transcribe] returns has no whitespace at its ends: it is
    the empty string, or it starts and ends with a code point that is not
    whitespace, whatever the segments of the engine are.  Stripping it
    again changes nothing. *)
Theorem transcribe_returns_stripped
  (w : World) (audio : array1) (t t' : Transcriber.Transcriber)
  (raw : str) (tr : trace) :
  Transcriber.transcribe w audio t = (Ok raw, t', tr) ->
  Str.strip raw = raw
  /\ Str.isspace (hd 0%N raw) = false
  /\ Str.isspace (last raw 0%N) = false.
Proof.
  intro H.
  assert (E : Str.strip raw = raw).
  { revert H. unfold Transcriber.transcribe.
    destruct (size audio =? 0)%nat.
    - intro H. inversion H. reflexivity.
    - unfold bind at 1, get. unfold bind at 1.
      destruct (match Transcriber._model t with
                | Some _ => ret tt
                | None => Transcriber._load_model w
                end t) as [[[[]|e] t1] tr1]; [|discriminate].
      unfold bind, emit, call_value.
      destruct (model_transcribe w audio) as [segments|e]; cbn.
      + intro H. inversion H. apply strip_idempotent.
      + discriminate. }
  split; [exact E|]. split.
  - rewrite <- E. unfold Str.strip, Str.lstrip_by.
    set (l := Str.dropwhile Str.isspace raw).
    destruct (rstrip_by_prefix Str.isspace l) as [d Hd].
    pose proof (dropwhile_head Str.isspace raw) as Hh. fold l in Hh.
    destruct (Str.rstrip_by Str.isspace l) as [|c m]; [reflexivity|].
    rewrite Hd in Hh. exact Hh.
  - rewrite <- E. unfold Str.strip, Str.rstrip_by.
    set (l := rev (Str.lstrip_by Str.isspace raw)).
    pose proof (dropwhile_head Str.isspace l) as Hh.
    destruct (Str.dropwhile Str.isspace l) as [|c m]; [reflexivity|].
    cbn [rev]. now rewrite last_last.
Qed.

(** The segments [ hello] and [world ] of the example world. *)
Lemma transcribe_returns_stripped_witness :
  Str.strip (py "hello world") = py "hello world"
  /\ Str.isspace (hd 0%N (py "hello world")) = false
  /\ Str.isspace (last (py "hello world") 0%N) = false.
Proof.
  apply (transcribe_returns_stripped Example.world
           (mean_axis1 Example.chunk)
           (App.transcriber Example.app)
           (snd (fst (Transcriber.transcribe Example.world
                        (mean_axis1 Example.chunk)
                        (App.transcriber Example.app))))
           (py "hello world")
           (snd (Transcriber.transcribe Example.world
                   (mean_axis1 Example.chunk)
                   (App.transcriber Example.app)))).
  reflexivity.
Defined.

(** [transcribe] on audio that is not empty, case by case. *)
Lemma transcribe_cases (w : World) (audio : array1)
  (t : Transcriber.Transcriber) :
  size audio <> 0%nat ->
  let device := if Str.eqb (Config.device (Transcriber._cfg t)) (py "auto")
                then py "cpu" else Config.device (Transcriber._cfg t) in
  let size_ := Config.model_size (Transcriber._cfg t) in
  let compute := Config.compute_type (Transcriber._cfg t) in
  let loading := [Print (Loading_model size_ device compute);
                  WhisperModel_new size_ device compute] in
  let engine t' before :=
    match model_transcribe w audio with
    | Ok segments =>
        (Ok (Str.strip (Str.join (py " ") (map Str.strip segments))), t',
         before ++ [WhisperModel_transcribe audio])
    | Raised e => (Raised e, t', before ++ [WhisperModel_transcribe audio])
    end in
  Transcriber.transcribe w audio t
  = match Transcriber._model t with
    | Some _ => engine t []
    | None =>
        match WhisperModel w with
        | Some e => (Raised e, t, loading)
        | None =>
            engine
              (Transcriber.set_model
                 (Some {| Transcriber.loaded_size := size_;
                          Transcriber.loaded_device := device;
                          Transcriber.loaded_compute_type := compute |}) t)
              (loading ++ [Print Model_loaded])
        end
    end.
Proof.
  intro H. apply Nat.eqb_neq in H. cbv zeta.
  unfold Transcriber.transcribe. rewrite H.
  unfold Transcriber._load_model, bind, get, print, emit, call, call_value,
    modify, ret, raise.
  destruct (Transcriber._model t); [|destruct (WhisperModel w)];
    destruct (model_transcribe w audio); reflexivity.
Qed.

(** X13. The model is loaded lazily and once.  A transcriber that holds a
    model keeps it and never constructs another, whatever it is asked to
    transcribe; and once a transcription of audio that is not empty has
    returned, the transcriber holds a model.  So after the first
    recording that went through, no run loads the model again. *)
Theorem model_is_loaded_once
  (w : World) (audio : array1) (t : Transcriber.Transcriber) :
  let outcome := Transcriber.transcribe w audio t in
  (Transcriber._model t <> None ->
   Transcriber._model (snd (fst outcome)) = Transcriber._model t
   /\ Spec.free_of Pipeline.load_effect (snd outcome))
  /\ (size audio <> 0%nat ->
      (exists raw, fst (fst outcome) = Ok raw) ->
      Transcriber._model (snd (fst outcome)) <> None).
Proof.
  cbv zeta. destruct (Nat.eq_dec (size audio) 0) as [Z|NZ].
  - destruct audio; [|discriminate]. cbn. split.
    + intros _. split; reflexivity.
    + intro H. now contradiction H.
  - rewrite (transcribe_cases w audio t NZ). cbv zeta. split.
    + intro Hm. destruct (Transcriber._model t) as [m|] eqn:E;
        [|contradiction].
      destruct (model_transcribe w audio); cbn; rewrite E;
        split; reflexivity.
    + intros _ [raw Hr].
      destruct (Transcriber._model t) as [m|] eqn:E.
      * destruct (model_transcribe w audio); cbn; rewrite E; discriminate.
      * destruct (WhisperModel w); [discriminate|].
        destruct (model_transcribe w audio); cbn; discriminate.
Qed.

(** Two recordings in a row on the example [App]: the second one does
    not load the model. *)
Lemma model_is_loaded_once_witness :
  Spec.free_of Pipeline.load_effect
    (snd (Transcriber.transcribe Example.world (mean_axis1 Example.chunk)
            (snd (fst (Transcriber.transcribe Example.world
                         (mean_axis1 Example.chunk)
                         (App.transcriber Example.app)))))).
Proof.
  refine (proj2 (proj1 (model_is_loaded_once Example.world
    (mean_axis1 Example.chunk)
    (snd (fst (Transcriber.transcribe Example.world
                 (mean_axis1 Example.chunk)
                 (App.transcriber Example.app))))) _)).
  cbn. discriminate.
Defined.

(** X14. A failure of the transcription aborts the run.  When
    [transcribe] raises, because the model cannot be loaded or because
    the engine raises, [_process] raises the same exception at once: no
    effect of the cleanup stage, none of the insertion stage, and the
    processor is left as it was.  The thread of the run reports the
    exception and ends.  After a failed load the transcriber still holds
    no model and the engine was not called, so the next run tries the
    load again. *)
Theorem transcription_failure_aborts_the_run
  (w : World) (a : App.App) (audio : array1) (e : exc)
  (t' : Transcriber.Transcriber) (tr : trace) :
  Transcriber.transcribe w audio (App.transcriber a) = (Raised e, t', tr) ->
  App._process w audio a = (Raised e, App.set_transcriber t' a, tr)
  /\ Main.thread_run w Target_process audio a
     = (Ok tt, App.set_transcriber t' a, tr ++ [Thread_excepthook e])
  /\ Spec.free_of Spec.cleanup_effect tr
  /\ Spec.free_of Spec.insertion_effect tr
  /\ (Transcriber._model (App.transcriber a) = None ->
      WhisperModel w <> None ->
      t' = App.transcriber a /\ Spec.free_of Pipeline.engine_call tr).
Proof.
  intro Ht.
  assert (Hp : App._process w audio a
               = (Raised e, App.set_transcriber t' a, tr)).
  { unfold App._process, bind at 1, App.on_transcriber, on_field.
    rewrite Ht. reflexivity. }
  split; [exact Hp|]. split.
  - unfold Main.thread_run, try_except. rewrite Hp. reflexivity.
  - pose proof (transcribe_free w audio (App.transcriber a)) as [F1 F2].
    rewrite Ht in F1, F2. cbn [snd] in F1, F2.
    split; [exact F1|]. split; [exact F2|].
    intros Hm Hw.
    destruct (Nat.eq_dec (size audio) 0) as [Z|NZ].
    + destruct audio; [|discriminate]. discriminate Ht.
    + rewrite (transcribe_cases w audio _ NZ) in Ht. cbv zeta in Ht.
      rewrite Hm in Ht. destruct (WhisperModel w); [|contradiction].
      inversion Ht. split; reflexivity.
Qed.

(** The engine raises on the example [App]: the run ends there. *)
Lemma transcription_failure_aborts_the_run_witness :
  fst (fst (App._process Case.world_engine_fails Case.audio Example.app))
  = Raised Case.engine_failed.
Proof.
  rewrite (proj1 (transcription_failure_aborts_the_run
    Case.world_engine_fails Example.app Case.audio Case.engine_failed
    (snd (fst (Transcriber.transcribe Case.world_engine_fails Case.audio
                 (App.transcriber Example.app))))
    (snd (Transcriber.transcribe Case.world_engine_fails Case.audio
            (App.transcriber Example.app)))
    eq_refl)).
  reflexivity.
Defined.

(** X15. [cleanup] raises in one case only: the text is not blank, an
    API key is configured, no client was constructed yet, and the
    constructor of the client raises; it then raises that exception.  In
    every other case it returns a text. *)
Theorem cleanup_raises_only_without_client
  (w : World) (p : Processor.Processor) (raw_text : str) (e : exc) :
  fst (fst (Processor.cleanup w raw_text p)) = Raised e
  <-> Str.blank raw_text = false
      /\ Str.truthy (Config.anthropic_api_key (Processor._cfg p)) = true
      /\ Processor._client p = None
      /\ Anthropic w = Some e.
Proof.
  destruct (Str.blank raw_text) eqn:B.
  - unfold Processor.cleanup. rewrite truthy_strip, B. cbn.
    split; [discriminate|]. intros [H _]. discriminate.
  - destruct (Str.truthy (Config.anthropic_api_key (Processor._cfg p)))
      eqn:K.
    + destruct (ensure_client_cases w p)
        as [[p1 [t1 [E1 [_ [Hc _]]]]] | [e1 [E1 [C A]]]].
      * rewrite (cleanup_call w p p1 t1 raw_text B K E1). cbv zeta.
        assert (N : ~ (Processor._client p = None /\ Anthropic w = Some e)).
        { intros [C A]. revert E1.
          unfold Processor._ensure_client, bind, get. rewrite C. cbn.
          rewrite A. discriminate. }
        destruct (messages_create w _ raw_text) as [[|[text|] rest]|e'];
          cbn [fst]; (split; [discriminate|]);
          intros [_ [_ [C A]]]; exfalso; apply N; now split.
      * rewrite (cleanup_no_client w p raw_text e1 B K C A). cbn [fst].
        split.
        -- intro H. inversion H. subst. repeat split; assumption.
        -- intros [_ [_ [_ A']]]. congruence.
    + rewrite (cleanup_no_key w p raw_text B K). cbn [fst].
      split; [discriminate|]. intros [_ [H _]]. discriminate.
Qed.

(** The package of the client is missing: the first cleanup raises. *)
Lemma cleanup_raises_only_without_client_witness :
  fst (fst (Processor.cleanup Case.world_no_client (py "um hello")
              (Processor.__init__ Example.cfg)))
  = Raised Case.no_package.
Proof.
  apply (cleanup_raises_only_without_client Case.world_no_client
           (Processor.__init__ Example.cfg) (py "um hello")
           Case.no_package).
  repeat split.
Defined.

(** X16. The client of the cleanup service is constructed lazily and
    once.  A processor that holds a client keeps it and constructs no
    other; once a cleanup of a text that is not blank has returned with
    an API key configured, the processor holds a client.  The
    configuration of the processor is never changed. *)
Theorem client_is_constructed_once
  (w : World) (p : Processor.Processor) (raw_text : str) :
  let outcome := Processor.cleanup w raw_text p in
  let p' := snd (fst outcome) in
  Processor._cfg p' = Processor._cfg p
  /\ (Processor._client p <> None ->
      Processor._client p' = Processor._client p
      /\ Spec.free_of Pipeline.client_effect (snd outcome))
  /\ (Str.blank raw_text = false ->
      Str.truthy (Config.anthropic_api_key (Processor._cfg p)) = true ->
      (exists text, fst (fst outcome) = Ok text) ->
      Processor._client p' <> None).
Proof.
  cbv zeta. destruct (Str.blank raw_text) eqn:B.
  - unfold Processor.cleanup. rewrite truthy_strip, B. cbn.
    repeat split; discriminate.
  - destruct (Str.truthy (Config.anthropic_api_key (Processor._cfg p)))
      eqn:K.
    + assert (E : Processor._client p <> None ->
                  Processor._ensure_client w p = (Ok tt, p, [])).
      { intro H. unfold Processor._ensure_client, bind, get.
        destruct (Processor._client p); [reflexivity|contradiction]. }
      destruct (ensure_client_cases w p)
        as [[p1 [t1 [E1 [Hcfg [Hc _]]]]] | [e1 [E1 [C A]]]].
      * rewrite (cleanup_call w p p1 t1 raw_text B K E1). cbv zeta.
        split; [|split].
        -- destruct (messages_create w _ raw_text)
             as [[|[text|] rest]|e']; exact Hcfg.
        -- intro H. rewrite (E H) in E1. inversion E1; subst.
           destruct (messages_create w _ raw_text)
             as [[|[text|] rest]|e']; split; reflexivity.
        -- intros _ _ _.
           destruct (messages_create w _ raw_text)
             as [[|[text|] rest]|e']; exact Hc.
      * rewrite (cleanup_no_client w p raw_text e1 B K C A).
        cbn [fst snd]. split; [reflexivity|]. split.
        -- intro H. contradiction.
        -- intros _ _ [text H]. discriminate.
    + rewrite (cleanup_no_key w p raw_text B K). cbn [fst snd].
      split; [reflexivity|]. split.
      * intros _. split; reflexivity.
      * discriminate.
Qed.

(** Two cleanups in a row: the second one constructs no client. *)
Lemma client_is_constructed_once_witness :
  Spec.free_of Pipeline.client_effect
    (snd (Processor.cleanup Example.world (py "um hello")
            (snd (fst (Processor.cleanup Example.world (py "um hello")
                         (Processor.__init__ Example.cfg)))))).
Proof.
  refine (proj2 (proj1 (proj2 (client_is_constructed_once Example.world
    (snd (fst (Processor.cleanup Example.world (py "um hello")
                 (Processor.__init__ Example.cfg))))
    (py "um hello"))) _)).
  cbn. discriminate.
Defined.

(** X17. An answer of the service that cannot be read is a failure like
    any other: when [response.content] is empty, or its first block has
    no text, [cleanup] returns the raw text and prints the failure
    ([IndexError], [AttributeError]).  When the first block has a text,
    [cleanup] returns that text stripped, whatever else the answer
    holds; for a text of whitespace this is the empty string. *)
Theorem cleanup_reads_the_first_block
  (w : World) (p p1 : Processor.Processor) (t1 : trace) (raw_text : str)
  (content : list (option str)) :
  Str.blank raw_text = false ->
  Str.truthy (Config.anthropic_api_key (Processor._cfg p)) = true ->
  Processor._ensure_client w p = (Ok tt, p1, t1) ->
  let model := Config.claude_model (Processor._cfg p) in
  messages_create w model raw_text = Ok content ->
  let call := t1 ++ [Messages_create model raw_text] in
  Processor.cleanup w raw_text p
  = match content with
    | [] =>
        (Ok raw_text, p1, call ++ [Print (Cleanup_failed IndexError)])
    | None :: _ =>
        (Ok raw_text, p1, call ++ [Print (Cleanup_failed AttributeError)])
    | Some text :: _ =>
        (Ok (if Str.blank text then [] else Str.strip text), p1, call)
    end.
Proof.
  intros B K E model Hc call.
  rewrite (cleanup_call w p p1 t1 raw_text B K E). cbv zeta.
  fold model. rewrite Hc. subst call.
  destruct content as [|[text|] rest].
  - now rewrite <- app_assoc.
  - destruct (Str.blank text) eqn:Bt; [|reflexivity].
    now rewrite (strip_blank text Bt).
  - now rewrite <- app_assoc.
Qed.

(** The service answers no block: the raw text comes back. *)
Lemma cleanup_reads_the_first_block_witness :
  fst (fst (Processor.cleanup Case.world_no_block (py "um hello")
              (Processor.__init__ Example.cfg)))
  = Ok (py "um hello").
Proof.
  rewrite (cleanup_reads_the_first_block Case.world_no_block
             (Processor.__init__ Example.cfg)
             (snd (fst (Processor._ensure_client Case.world_no_block
                          (Processor.__init__ Example.cfg))))
             (snd (Processor._ensure_client Case.world_no_block
                     (Processor.__init__ Example.cfg)))
             (py "um hello") []).
  - reflexivity.
  - reflexivity.
  - reflexivity.
  - reflexivity.
  - reflexivity.
Defined.

(* ===================================================================== *)
(** * Further properties of a pipeline run *)
(* ===================================================================== *)

(** A run whose transcription returned a text that is not empty. *)
Lemma process_after_transcription (w : World) (audio : array1)
  (a : App.App) (raw : str) (t' : Transcriber.Transcriber) (tr : trace) :
  Transcriber.transcribe w audio (App.transcriber a) = (Ok raw, t', tr) ->
  raw <> [] ->
  let a1 := App.set_transcriber t' a in
  let said := tr ++ [Print (Raw raw)] in
  App._process w audio a
  = match App.processor a with
    | None => Pipeline.insertion w raw a1 said
    | Some p =>
        match Processor.cleanup w raw p with
        | (Ok final, p1, tc) =>
            Pipeline.insertion w final (App.set_processor p1 a1)
              (said ++ tc ++ if Str.eqb final raw then []
                             else [Print (Cleaned final)])
        | (Raised e, p1, tc) =>
            (Raised e, App.set_processor p1 a1, said ++ tc)
        end
    end.
Proof.
  intros Ht Hraw. cbv zeta.
  assert (Htr : Str.truthy raw = true)
    by (destruct raw; [contradiction|reflexivity]).
  destruct a as [cfg0 rec0 tr0 pr0 flag0 hk0].
  unfold App._process, App.on_transcriber, App.on_processor, App.function,
    Pipeline.insertion.
  cbn [App.transcriber App.processor] in *.
  remember (Processor.cleanup w) as cleanup eqn:E2. clear E2.
  remember (Inserter.insert_text w) as insert_text eqn:E3. clear E3.
  unfold bind, get, print, emit, ret, on_field.
  cbn [App.transcriber]. rewrite Ht, Htr. cbn [negb]. app_fields.
  destruct pr0 as [p|].
  - destruct (cleanup raw p) as [[[final|e] p1] t2]; [|trace_eq].
    destruct (Str.eqb final raw); cbn [negb];
      destruct (insert_text final tt) as [[[[]|e] []] t3]; trace_eq.
  - destruct (insert_text raw tt) as [[[[]|e] []] t3]; trace_eq.
Qed.

Lemma free_of_app_iff (p : effect -> bool) (t1 t2 : trace) :
  Spec.free_of p (t1 ++ t2) <-> Spec.free_of p t1 /\ Spec.free_of p t2.
Proof.
  unfold Spec.free_of. rewrite forallb_app. apply andb_true_iff.
Qed.

(** The insertion has no effect of the cleanup stage. *)
Lemma insert_text_free (w : World) (text : str) :
  Spec.free_of Spec.cleanup_effect (snd (Inserter.insert_text w text tt)).
Proof.
  unfold Inserter.insert_text, Inserter._insert_macos,
    Inserter._insert_linux, Inserter.run, bind, emit, call, print, ret,
    raise.
  destruct (Str.eqb (platform_system w) (py "Darwin")).
  - destruct (subprocess_run w [py "pbcopy"]); [reflexivity|].
    destruct (subprocess_run w _); reflexivity.
  - destruct (Str.eqb (platform_system w) (py "Linux")).
    + destruct (subprocess_run w _); [reflexivity|].
      destruct (subprocess_run w _); reflexivity.
    + destruct (pyperclip_copy w); reflexivity.
Qed.

Lemma insertion_free (w : World) (text : str) (a : App.App)
  (before : trace) :
  Spec.free_of Spec.cleanup_effect before ->
  Spec.free_of Spec.cleanup_effect
    (snd (Pipeline.insertion w text a before)).
Proof.
  intro H. unfold Pipeline.insertion.
  pose proof (insert_text_free w text) as F.
  destruct (Inserter.insert_text w text tt) as [[[[]|e] u] ti];
    cbn [snd] in *; repeat (apply free_of_app; try assumption);
    reflexivity.
Qed.

(** X18. With the cleanup disabled the transcription is what is
    inserted.  When the [App] has no processor, as [App(cfg)] builds it
    for [enable_cleanup = False], a run whose transcription returned a
    text goes on to the insertion of this very text; it has no effect of
    the cleanup stage (no client, no call of the service, no line), and
    the [App] still has no processor afterwards. *)
Theorem without_cleanup_the_transcription_is_inserted
  (w : World) (cfg : Config.Config) (a : App.App) (audio : array1)
  (raw : str) (t' : Transcriber.Transcriber) (tr : trace) :
  App.processor a = None ->
  Transcriber.transcribe w audio (App.transcriber a) = (Ok raw, t', tr) ->
  raw <> [] ->
  App._process w audio a
  = Pipeline.insertion w raw (App.set_transcriber t' a)
      (tr ++ [Print (Raw raw)])
  /\ Spec.free_of Spec.cleanup_effect (snd (App._process w audio a))
  /\ App.processor (snd (fst (App._process w audio a))) = None
  /\ (Config.enable_cleanup cfg = false ->
      forall a0, App.__init__ cfg = Ok a0 -> App.processor a0 = None).
Proof.
  intros Hp Ht Hraw.
  pose proof (process_after_transcription w audio a raw t' tr Ht Hraw) as E.
  cbv zeta in E. rewrite Hp in E. rewrite E.
  split; [reflexivity|]. split; [|split].
  - apply insertion_free. apply free_of_app; [|reflexivity].
    pose proof (transcribe_free w audio (App.transcriber a)) as [F _].
    now rewrite Ht in F.
  - unfold Pipeline.insertion.
    destruct (Inserter.insert_text w raw tt) as [[[[]|e] u] ti];
      cbn [fst snd]; destruct a; exact Hp.
  - intros Hc a0 Hi. unfold App.__init__ in Hi.
    destruct (App._resolve_hotkey (Config.hotkey cfg)); [|discriminate].
    inversion Hi. cbn. now rewrite Hc.
Qed.

(** The example [App] without a processor: the text of the engine is
    what is copied to the clipboard. *)
Lemma without_cleanup_the_transcription_is_inserted_witness :
  In (Subprocess_run [py "xclip"; py "-selection"; py "clipboard"]
        (Some (py "hello world")))
     (snd (App._process Example.world Case.audio Case.app_no_cleanup)).
Proof.
  rewrite (proj1 (without_cleanup_the_transcription_is_inserted
    Example.world Example.cfg Case.app_no_cleanup Case.audio
    (py "hello world")
    (snd (fst (Transcriber.transcribe Example.world Case.audio
                 (App.transcriber Case.app_no_cleanup))))
    (snd (Transcriber.transcribe Example.world Case.audio
            (App.transcriber Case.app_no_cleanup)))
    eq_refl eq_refl ltac:(discriminate))).
  cbn. right. right. right. right. right. left. reflexivity.
Defined.

Lemma count_app (p : effect -> bool) (t1 t2 : trace) :
  Pipeline.count p (t1 ++ t2) = Pipeline.count p t1 + Pipeline.count p t2.
Proof. unfold Pipeline.count. now rewrite filter_app, length_app. Qed.

(** A trace free of a kind of effect has none of a narrower kind. *)
Lemma count_free (p q : effect -> bool) (t : trace) :
  (forall e, q e = true -> p e = true) ->
  Spec.free_of p t -> Pipeline.count q t = 0%nat.
Proof.
  intros Hq. unfold Spec.free_of, Pipeline.count.
  induction t as [|x t IH]; [reflexivity|].
  cbn. intro H. apply andb_prop in H. destruct H as [Hx Ht].
  destruct (q x) eqn:Q.
  - rewrite (Hq x Q) in Hx. discriminate.
  - now apply IH.
Qed.

Lemma failure_line_cleanup (e : effect) :
  Pipeline.failure_line e = true -> Spec.cleanup_effect e = true.
Proof. destruct e as [[]| | | | | | | | | | | |]; cbn; congruence. Qed.

Lemma ensure_client_trace (w : World) (p p1 : Processor.Processor)
  (t1 : trace) :
  Processor._ensure_client w p = (Ok tt, p1, t1) ->
  Pipeline.count Pipeline.failure_line t1 = 0%nat.
Proof.
  unfold Processor._ensure_client, bind, get, emit, call, modify, ret, raise.
  destruct (Processor._client p); [intro H; now inversion H|].
  destruct (Anthropic w); [discriminate|].
  intro H. now inversion H.
Qed.

Lemma transcribed_not_blank (w : World) (audio : array1)
  (t t' : Transcriber.Transcriber) (raw : str) (tr : trace) :
  Transcriber.transcribe w audio t = (Ok raw, t', tr) ->
  raw <> [] -> Str.blank raw = false.
Proof.
  intros H Hraw. destruct (Str.blank raw) eqn:B; [|reflexivity].
  contradiction Hraw. eapply transcribe_blank_empty; eauto.
Qed.

(** X19. A failure of the cleanup service does not stop the run.  When
    the transcription returned a text and the call of the service
    raises, the run goes on to the insertion of the raw text, on the
    [App] with the client kept; the failure is reported by one line, no
    cleaned text is printed. *)
Theorem cleanup_failure_inserts_the_raw_text
  (w : World) (a : App.App) (audio : array1) (raw : str)
  (t' : Transcriber.Transcriber) (tr : trace)
  (p p1 : Processor.Processor) (t1 : trace) (e : exc) :
  App.processor a = Some p ->
  Transcriber.transcribe w audio (App.transcriber a) = (Ok raw, t', tr) ->
  raw <> [] ->
  Str.truthy (Config.anthropic_api_key (Processor._cfg p)) = true ->
  Processor._ensure_client w p = (Ok tt, p1, t1) ->
  let model := Config.claude_model (Processor._cfg p) in
  messages_create w model raw = Raised e ->
  App._process w audio a
  = Pipeline.insertion w raw
      (App.set_processor p1 (App.set_transcriber t' a))
      (tr ++ [Print (Raw raw)] ++ t1
       ++ [Messages_create model raw; Print (Cleanup_failed e)])
  /\ Pipeline.count Pipeline.failure_line (snd (App._process w audio a))
     = 1%nat.
Proof.
  intros Hp Ht Hraw K E model Hc.
  pose proof (transcribed_not_blank w audio _ t' raw tr Ht Hraw) as B.
  pose proof (process_after_transcription w audio a raw t' tr Ht Hraw) as P.
  cbv zeta in P. rewrite Hp in P.
  rewrite (cleanup_call w p p1 t1 raw B K E) in P. cbv zeta in P.
  fold model in P. rewrite Hc, Str_eqb_refl in P.
  assert (P' : App._process w audio a
               = Pipeline.insertion w raw
                   (App.set_processor p1 (App.set_transcriber t' a))
                   (tr ++ [Print (Raw raw)] ++ t1
                    ++ [Messages_create model raw;
                        Print (Cleanup_failed e)])).
  { rewrite P. f_equal. rewrite app_nil_r. now rewrite <- !app_assoc. }
  split; [exact P'|]. rewrite P'. unfold Pipeline.insertion.
  pose proof (insert_text_free w raw) as F.
  pose proof (transcribe_free w audio (App.transcriber a)) as [Ft _].
  rewrite Ht in Ft. cbn [snd] in Ft.
  assert (C0 : Pipeline.count Pipeline.failure_line tr = 0%nat)
    by (eapply count_free; [apply failure_line_cleanup|exact Ft]).
  assert (C1 := ensure_client_trace w p p1 t1 E).
  destruct (Inserter.insert_text w raw tt) as [[[[]|e'] u] ti];
    cbn [snd] in *;
    assert (C2 : Pipeline.count Pipeline.failure_line ti = 0%nat)
      by (eapply count_free; [apply failure_line_cleanup|exact F]);
    rewrite !count_app, C0, C1, ?C2; reflexivity.
Qed.

(** The service times out on the example [App]: the raw text is copied
    to the clipboard. *)
Lemma cleanup_failure_inserts_the_raw_text_witness :
  Pipeline.count Pipeline.failure_line
    (snd (App._process Example.world_cleanup_down Case.audio Example.app))
  = 1%nat.
Proof.
  refine (proj2 (cleanup_failure_inserts_the_raw_text
    Example.world_cleanup_down Example.app Case.audio (py "hello world")
    (snd (fst (Transcriber.transcribe Example.world_cleanup_down Case.audio
                 (App.transcriber Example.app))))
    (snd (Transcriber.transcribe Example.world_cleanup_down Case.audio
            (App.transcriber Example.app)))
    (Processor.__init__ Example.cfg)
    (snd (fst (Processor._ensure_client Example.world_cleanup_down
                 (Processor.__init__ Example.cfg))))
    (snd (Processor._ensure_client Example.world_cleanup_down
            (Processor.__init__ Example.cfg)))
    Example.timeout _ _ _ _ _ _)); try reflexivity.
  discriminate.
Defined.

(** X20. An answer of whitespace empties the text: when the first block
    of the answer of the service is blank, the run prints an empty
    cleaned text and goes on to the insertion of the empty string. *)
Theorem blank_answer_inserts_the_empty_string
  (w : World) (a : App.App) (audio : array1) (raw : str)
  (t' : Transcriber.Transcriber) (tr : trace)
  (p p1 : Processor.Processor) (t1 : trace)
  (text : str) (rest : list (option str)) :
  App.processor a = Some p ->
  Transcriber.transcribe w audio (App.transcriber a) = (Ok raw, t', tr) ->
  raw <> [] ->
  Str.truthy (Config.anthropic_api_key (Processor._cfg p)) = true ->
  Processor._ensure_client w p = (Ok tt, p1, t1) ->
  let model := Config.claude_model (Processor._cfg p) in
  messages_create w model raw = Ok (Some text :: rest) ->
  Str.blank text = true ->
  App._process w audio a
  = Pipeline.insertion w []
      (App.set_processor p1 (App.set_transcriber t' a))
      (tr ++ [Print (Raw raw)] ++ t1
       ++ [Messages_create model raw; Print (Cleaned [])]).
Proof.
  intros Hp Ht Hraw K E model Hc Bt.
  pose proof (transcribed_not_blank w audio _ t' raw tr Ht Hraw) as B.
  pose proof (process_after_transcription w audio a raw t' tr Ht Hraw) as P.
  cbv zeta in P. rewrite Hp in P.
  rewrite (cleanup_call w p p1 t1 raw B K E) in P. cbv zeta in P.
  fold model in P. rewrite Hc, (strip_blank text Bt) in P.
  assert (Ne : Str.eqb [] raw = false)
    by (apply Str_eqb_neq; congruence).
  rewrite Ne in P. rewrite P. f_equal. now rewrite <- !app_assoc.
Qed.

(** The service answers two blanks on the example [App]: the empty
    string is copied to the clipboard. *)
Lemma blank_answer_inserts_the_empty_string_witness :
  In (Subprocess_run [py "xclip"; py "-selection"; py "clipboard"] (Some []))
     (snd (App._process Case.world_blank_answer Case.audio Example.app)).
Proof.
  rewrite (blank_answer_inserts_the_empty_string
    Case.world_blank_answer Example.app Case.audio (py "hello world")
    (snd (fst (Transcriber.transcribe Case.world_blank_answer Case.audio
                 (App.transcriber Example.app))))
    (snd (Transcriber.transcribe Case.world_blank_answer Case.audio
            (App.transcriber Example.app)))
    (Processor.__init__ Example.cfg)
    (snd (fst (Processor._ensure_client Case.world_blank_answer
                 (Processor.__init__ Example.cfg))))
    (snd (Processor._ensure_client Case.world_blank_answer
            (Processor.__init__ Example.cfg)))
    (py "  ") [] eq_refl eq_refl ltac:(discriminate) eq_refl eq_refl
    eq_refl eq_refl).
  cbn. do 8 right. left. reflexivity.
Defined.

(* ===================================================================== *)
(** * The insertion, and the calls of a run *)
(* ===================================================================== *)


Section AtMost.

Variable p : effect -> bool.

Lemma at_most_ret {S A} (n : nat) (a : A) :
  Pipeline.at_most p n (@ret S A a).
Proof. intro s. cbn. lia. Qed.

Lemma at_most_raise {S A} (n : nat) (e : exc) :
  Pipeline.at_most p n (@raise S A e).
Proof. intro s. cbn. lia. Qed.

Lemma at_most_get {S} (n : nat) : Pipeline.at_most p n (@get S).
Proof. intro s. cbn. lia. Qed.

Lemma at_most_modify {S} (n : nat) (f : S -> S) :
  Pipeline.at_most p n (modify f).
Proof. intro s. cbn. lia. Qed.

Lemma at_most_call {S} (n : nat) (o : option exc) :
  Pipeline.at_most p n (@call S o).
Proof. destruct o; intro s; cbn; lia. Qed.

Lemma at_most_call_value {S A} (n : nat) (o : result A) :
  Pipeline.at_most p n (@call_value S A o).
Proof. destruct o; intro s; cbn; lia. Qed.

Lemma at_most_emit {S} (n : nat) (x : effect) :
  (if p x then 1 else 0) <= n -> Pipeline.at_most p n (@emit S x).
Proof.
  intros H s. unfold Pipeline.count. cbn. destruct (p x); cbn; lia.
Qed.

Lemma at_most_bind {S A B} (n1 n2 n : nat) (m : M S A) (f : A -> M S B) :
  n1 + n2 <= n ->
  Pipeline.at_most p n1 m -> (forall a, Pipeline.at_most p n2 (f a)) ->
  Pipeline.at_most p n (bind m f).
Proof.
  intros Hn Hm Hf s. unfold bind. specialize (Hm s).
  destruct (m s) as [[[a|e] s1] t1]; cbn [snd] in *; [|lia].
  specialize (Hf a s1). destruct (f a s1) as [[r s2] t2]. cbn [snd] in *.
  rewrite count_app. lia.
Qed.

Lemma at_most_try_except {S A} (n1 n2 n : nat) (m : M S A)
  (h : exc -> M S A) :
  n1 + n2 <= n ->
  Pipeline.at_most p n1 m -> (forall e, Pipeline.at_most p n2 (h e)) ->
  Pipeline.at_most p n (try_except m h).
Proof.
  intros Hn Hm Hh s. unfold try_except. specialize (Hm s).
  destruct (m s) as [[[a|e] s1] t1]; cbn [snd] in *; [lia|].
  specialize (Hh e s1). destruct (h e s1) as [[r s2] t2]. cbn [snd] in *.
  rewrite count_app. lia.
Qed.

Lemma at_most_on_field {S F A} (n : nat) (proj : S -> F)
  (upd : F -> S -> S) (m : M F A) :
  Pipeline.at_most p n m -> Pipeline.at_most p n (on_field proj upd m).
Proof.
  intros Hm s. unfold on_field. specialize (Hm (proj s)).
  destruct (m (proj s)) as [[r f] t]. exact Hm.
Qed.

Lemma at_most_on_processor {A} (n : nat) (q : Processor.Processor)
  (m : M Processor.Processor A) :
  Pipeline.at_most p n m -> Pipeline.at_most p n (App.on_processor q m).
Proof.
  intros Hm s. unfold App.on_processor. specialize (Hm q).
  destruct (m q) as [[r f] t]. exact Hm.
Qed.

Lemma at_most_function {A} (n : nat) (m : M unit A) :
  Pipeline.at_most p n m -> Pipeline.at_most p n (App.function m).
Proof.
  intros Hm s. unfold App.function. specialize (Hm tt).
  destruct (m tt) as [[r f] t]. exact Hm.
Qed.

End AtMost.

(** A bound on the effects of a kind, one construct of the monad at a
    time: the budget of a sequence goes to its head or to its tail. *)
Ltac at_most :=
  lazymatch goal with
  | |- Pipeline.at_most _ _ (let _ := _ in _) => cbv zeta; at_most
  | |- Pipeline.at_most _ _ (ret _) => apply at_most_ret
  | |- Pipeline.at_most _ _ (raise _) => apply at_most_raise
  | |- Pipeline.at_most _ _ (@get _) => apply at_most_get
  | |- Pipeline.at_most _ _ (modify _) => apply at_most_modify
  | |- Pipeline.at_most _ _ (call _) => apply at_most_call
  | |- Pipeline.at_most _ _ (call_value _) => apply at_most_call_value
  | |- Pipeline.at_most _ _ (emit _) => apply at_most_emit; cbn; lia
  | |- Pipeline.at_most _ _ (on_field _ _ _) =>
      apply at_most_on_field; at_most
  | |- Pipeline.at_most _ _ (App.on_processor _ _) =>
      apply at_most_on_processor; at_most
  | |- Pipeline.at_most _ _ (App.function _) =>
      apply at_most_function; at_most
  | |- Pipeline.at_most _ _ (if ?b then _ else _) => destruct b; at_most
  | |- Pipeline.at_most _ _ (match ?x with _ => _ end) =>
      destruct x; at_most
  | |- Pipeline.at_most _ ?n (bind _ _) =>
      first
        [ solve [apply (at_most_bind _ 0 n n);
                 [lia | at_most | intro; at_most]]
        | solve [apply (at_most_bind _ n 0 n);
                 [lia | at_most | intro; at_most]] ]
  | |- Pipeline.at_most _ ?n (try_except _ _) =>
      first
        [ solve [apply (at_most_try_except _ 0 n n);
                 [lia | at_most | intro; at_most]]
        | solve [apply (at_most_try_except _ n 0 n);
                 [lia | at_most | intro; at_most]] ]
  end.

(** X22. Nothing is retried: in one run of the pipeline the model is
    constructed at most once, the engine is called at most once, the
    client is constructed at most once, the cleanup service is called at
    most once, the text is copied at most once and at most one paste
    keystroke is sent, whatever the collaborators answer. *)
Theorem a_run_calls_each_collaborator_once
  (w : World) (audio : array1) (a : App.App) :
  let t := snd (App._process w audio a) in
  Pipeline.count Pipeline.model_effect t <= 1
  /\ Pipeline.count Pipeline.engine_call t <= 1
  /\ Pipeline.count Pipeline.client_effect t <= 1
  /\ Pipeline.count Pipeline.service_call t <= 1
  /\ Pipeline.count Pipeline.copy_effect t <= 1
  /\ Pipeline.count Pipeline.paste_effect t <= 1.
Proof.
  cbv zeta.
  assert (H : forall p,
            In p [Pipeline.model_effect; Pipeline.engine_call;
                  Pipeline.client_effect; Pipeline.service_call;
                  Pipeline.copy_effect; Pipeline.paste_effect] ->
            Pipeline.at_most p 1 (App._process w audio)).
  { intros p Hp.
    unfold App._process, App.on_transcriber, Transcriber.transcribe,
      Transcriber._load_model, Processor.cleanup,
      Processor._ensure_client, Processor.first_text,
      Inserter.insert_text, Inserter._insert_macos,
      Inserter._insert_linux, Inserter.run, print.
    cbn [In] in Hp.
    repeat (destruct Hp as [Hp|Hp]; [subst p; at_most|]).
    destruct Hp. }
  repeat split; apply H; cbn; tauto.
Qed.

(* ===================================================================== *)
(** * The configuration, from the file to the [App] *)
(* ===================================================================== *)

(** The fields of a configuration, one by one. *)
Ltac config_fields :=
  cbv beta iota zeta delta
    [Config.anthropic_api_key Config.claude_model Config.whisper
     Config.audio Config.hotkey Config.enable_cleanup Config.model_size
     Config.device Config.compute_type Config.sample_rate Config.channels
     Loader.set_anthropic_api_key Loader.set_claude_model Loader.set_hotkey
     Loader.set_enable_cleanup Loader.set_whisper Loader.set_audio
     Loader.set_model_size Loader.set_device Loader.set_compute_type
     Loader.merge_str].

(** What the blocks of [_merge] leave in the fields the program reads. *)
Lemma merge_top_fields (d : list (str * Loader.value))
  (c0 : Config.Config) :
  let c := Loader.merge_top d c0 in
  Config.hotkey c
  = match Loader.get (py "hotkey") d with
    | Some v => Loader.text v
    | None => Config.hotkey c0
    end
  /\ Config.anthropic_api_key c
     = match Loader.get (py "anthropic_api_key") d with
       | Some v => Loader.text v
       | None => Config.anthropic_api_key c0
       end
  /\ Config.enable_cleanup c
     = match Loader.get (py "enable_cleanup") d with
       | Some v => Loader.truth v
       | None => Config.enable_cleanup c0
       end
  /\ Config.whisper c = Config.whisper c0
  /\ Config.audio c = Config.audio c0.
Proof.
  cbv zeta. unfold Loader.merge_top. destruct c0 as [k0 m0 w0 a0 h0 e0].
  config_fields.
  destruct (Loader.get (py "anthropic_api_key") d) as [v1|];
    destruct (Loader.get (py "claude_model") d) as [v2|];
    destruct (Loader.get (py "hotkey") d) as [v3|];
    destruct (Loader.get (py "enable_cleanup") d) as [v4|];
    repeat split.
Qed.

Lemma merge_whisper_fields (d : list (str * Loader.value))
  (c0 : Config.Config) :
  let c := Loader.merge_whisper d c0 in
  Config.hotkey c = Config.hotkey c0
  /\ Config.anthropic_api_key c = Config.anthropic_api_key c0
  /\ Config.enable_cleanup c = Config.enable_cleanup c0
  /\ Config.audio c = Config.audio c0
  /\ Config.model_size (Config.whisper c)
     = match Loader.section d (py "whisper") with
       | Some whisper_data =>
           match Loader.get (py "model_size") whisper_data with
           | Some v => Loader.text v
           | None => Config.model_size (Config.whisper c0)
           end
       | None => Config.model_size (Config.whisper c0)
       end.
Proof.
  cbv zeta. unfold Loader.merge_whisper.
  destruct c0 as [k0 m0 [ms0 dv0 ct0] a0 h0 e0].
  destruct (Loader.section d (py "whisper")) as [wd|]; [|repeat split].
  config_fields.
  destruct (Loader.get (py "model_size") wd) as [v5|];
    destruct (Loader.get (py "device") wd) as [v6|];
    destruct (Loader.get (py "compute_type") wd) as [v7|];
    repeat split.
Qed.

Lemma merge_audio_fields (d : list (str * Loader.value))
  (c0 c : Config.Config) :
  Loader.merge_audio d c0 = Loader.Loaded c ->
  Config.hotkey c = Config.hotkey c0
  /\ Config.anthropic_api_key c = Config.anthropic_api_key c0
  /\ Config.enable_cleanup c = Config.enable_cleanup c0
  /\ Config.whisper c = Config.whisper c0
  /\ match Loader.section d (py "audio") with
     | Some audio_data =>
         match Loader.get (py "sample_rate") audio_data with
         | Some v =>
             Loader.number v = Some (Config.sample_rate (Config.audio c))
         | None => Config.sample_rate (Config.audio c)
                   = Config.sample_rate (Config.audio c0)
         end
         /\ match Loader.get (py "channels") audio_data with
            | Some v =>
                Loader.number v = Some (Config.channels (Config.audio c))
            | None => Config.channels (Config.audio c)
                      = Config.channels (Config.audio c0)
            end
     | None => Config.audio c = Config.audio c0
     end.
Proof.
  unfold Loader.merge_audio, Loader.merge_int.
  destruct c0 as [k0 m0 w0 [sr0 ch0] h0 e0].
  destruct (Loader.section d (py "audio")) as [ad|].
  - config_fields.
    destruct (Loader.get (py "sample_rate") ad) as [v8|];
      [destruct (Loader.number v8) as [z8|] eqn:N8; [|discriminate]|];
      (destruct (Loader.get (py "channels") ad) as [v9|];
       [destruct (Loader.number v9) as [z9|] eqn:N9; [|discriminate]|]);
      intro H; injection H as <-; repeat split; assumption.
  - intro H. injection H as <-. repeat split.
Qed.

(** What [_merge] leaves in the fields the program reads. *)
Lemma merge_fields (c0 c : Config.Config) (data : Loader.value) :
  Loader._merge c0 data = Loader.Loaded c ->
  exists d,
    Loader.mapping data = Some d
    /\ Config.hotkey c
       = match Loader.get (py "hotkey") d with
         | Some v => Loader.text v
         | None => Config.hotkey c0
         end
    /\ Config.anthropic_api_key c
       = match Loader.get (py "anthropic_api_key") d with
         | Some v => Loader.text v
         | None => Config.anthropic_api_key c0
         end
    /\ Config.enable_cleanup c
       = match Loader.get (py "enable_cleanup") d with
         | Some v => Loader.truth v
         | None => Config.enable_cleanup c0
         end
    /\ Config.model_size (Config.whisper c)
       = match Loader.section d (py "whisper") with
         | Some whisper_data =>
             match Loader.get (py "model_size") whisper_data with
             | Some v => Loader.text v
             | None => Config.model_size (Config.whisper c0)
             end
         | None => Config.model_size (Config.whisper c0)
         end
    /\ match Loader.section d (py "audio") with
       | Some audio_data =>
           match Loader.get (py "sample_rate") audio_data with
           | Some v => Loader.number v = Some (Config.sample_rate (Config.audio c))
           | None => Config.sample_rate (Config.audio c)
                     = Config.sample_rate (Config.audio c0)
           end
           /\ match Loader.get (py "channels") audio_data with
              | Some v => Loader.number v = Some (Config.channels (Config.audio c))
              | None => Config.channels (Config.audio c)
                        = Config.channels (Config.audio c0)
              end
       | None => Config.audio c = Config.audio c0
       end.
Proof.
  unfold Loader._merge.
  destruct (Loader.mapping data) as [d|]; [|discriminate].
  intro H. exists d. split; [reflexivity|].
  pose proof (merge_top_fields d c0) as [T1 [T2 [T3 [T4 T5]]]].
  pose proof (merge_whisper_fields d (Loader.merge_top d c0))
    as [W1 [W2 [W3 [W4 W5]]]].
  pose proof (merge_audio_fields d _ c H) as [A1 [A2 [A3 [A4 A5]]]].
  cbv zeta in *.
  rewrite A1, W1, T1. split; [reflexivity|].
  rewrite A2, W2, T2. split; [reflexivity|].
  rewrite A3, W3, T3. split; [reflexivity|].
  rewrite A4, W5, T4. split; [reflexivity|].
  rewrite W4, T5 in A5. exact A5.
Qed.

(** The configuration [load] merges the file into, when it returns. *)
Lemma load_cases (env : Loader.Env) (args : Cli.Args) (cfg : Config.Config) :
  Loader.load env (Cli.config_path env args) = Loader.Loaded cfg ->
  exists merged,
    cfg = Loader.env_overrides env merged
    /\ (Cli.file_entries env args = [] /\ merged = Config.default
        \/ exists data,
             Loader._merge Config.default data = Loader.Loaded merged
             /\ Loader.mapping data = Some (Cli.file_entries env args)).
Proof.
  unfold Loader.load, Cli.file_entries.
  destruct (Cli.config_path env args) as [p|].
  - destruct (Loader.path_exists env p).
    + destruct (Loader.safe_load env p) as [data|e]; [|discriminate].
      destruct (Loader.truth data).
      * destruct (Loader._merge Config.default data) as [m|f] eqn:E;
          [|discriminate].
        intro H. inversion H. exists m. split; [reflexivity|].
        right. exists data. split; [exact E|].
        destruct (merge_fields _ _ _ E) as [d [Hd _]]. now rewrite Hd.
      * cbn. intro H. inversion H. eexists. split; [reflexivity|].
        left. split; reflexivity.
    + intro H. inversion H. eexists. split; [reflexivity|].
      left. split; reflexivity.
  - intro H. inversion H. eexists. split; [reflexivity|].
    left. split; reflexivity.
Qed.

(** What the overrides of the environment and of the command line leave
    in the fields the program reads. *)
Lemma env_overrides_fields (env : Loader.Env) (c0 : Config.Config) :
  let c := Loader.env_overrides env c0 in
  Config.hotkey c
  = match Loader.env_set env (py "OPENMUMBLE_HOTKEY") with
    | Some s => s
    | None => Config.hotkey c0
    end
  /\ Config.model_size (Config.whisper c)
     = match Loader.env_set env (py "OPENMUMBLE_MODEL") with
       | Some s => s
       | None => Config.model_size (Config.whisper c0)
       end
  /\ Config.anthropic_api_key c
     = match Loader.env_set env (py "ANTHROPIC_API_KEY") with
       | Some s => s
       | None => Config.anthropic_api_key c0
       end
  /\ Config.enable_cleanup c = Config.enable_cleanup c0
  /\ Config.audio c = Config.audio c0.
Proof.
  cbv zeta. unfold Loader.env_overrides.
  destruct c0 as [k0 m0 [ms0 dv0 ct0] a0 h0 e0].
  destruct (Loader.env_set env (py "ANTHROPIC_API_KEY"));
    destruct (Loader.env_set env (py "OPENMUMBLE_MODEL"));
    destruct (Loader.env_set env (py "OPENMUMBLE_HOTKEY"));
    repeat split.
Qed.

Lemma cli_overrides_fields (args : Cli.Args) (c0 : Config.Config) :
  let c := Cli.cli_overrides args c0 in
  Config.hotkey c
  = match Cli.given (Cli.hotkey args) with
    | Some s => s
    | None => Config.hotkey c0
    end
  /\ Config.model_size (Config.whisper c)
     = match Cli.given (Cli.model args) with
       | Some s => s
       | None => Config.model_size (Config.whisper c0)
       end
  /\ Config.anthropic_api_key c = Config.anthropic_api_key c0
  /\ Config.enable_cleanup c
     = negb (Cli.no_cleanup args) && Config.enable_cleanup c0
  /\ Config.audio c = Config.audio c0.
Proof.
  cbv zeta. unfold Cli.cli_overrides.
  destruct c0 as [k0 m0 [ms0 dv0 ct0] a0 h0 e0].
  destruct (Cli.given (Cli.model args));
    destruct (Cli.given (Cli.hotkey args));
    destruct (Cli.no_cleanup args);
    repeat split.
Qed.

(** The configuration of [main], when it is loaded: the overrides of
    the command line and of the environment on what the file gave. *)
Lemma configure_cases (env : Loader.Env) (args : Cli.Args)
  (cfg : Config.Config) :
  Cli.configure env args = Loader.Loaded cfg ->
  exists merged,
    cfg = Cli.cli_overrides args (Loader.env_overrides env merged)
    /\ (Cli.file_entries env args = [] /\ merged = Config.default
        \/ exists data,
             Loader._merge Config.default data = Loader.Loaded merged
             /\ Loader.mapping data = Some (Cli.file_entries env args)).
Proof.
  unfold Cli.configure.
  destruct (Loader.load env (Cli.config_path env args)) as [c|f] eqn:L;
    [|discriminate].
  intro H. injection H as <-.
  destruct (load_cases env args c L) as [m [Hc Hm]]. subst c.
  exists m. split; [reflexivity|exact Hm].
Qed.

(** X23. The command line beats the environment, the environment beats
    the config file, the file beats the defaults.  When the
    configuration is loaded, the hotkey is the one of [--hotkey] if it
    is given and not empty, else the one of [OPENMUMBLE_HOTKEY] if it is
    set and not empty, else [str] of the [hotkey] entry of the file if
    there is one, else [ctrl]; likewise for the model size ([--model],
    [OPENMUMBLE_MODEL], [whisper.model_size], [small.en]) and for the
    API key ([ANTHROPIC_API_KEY], [anthropic_api_key], the empty
    string). *)
Theorem configuration_precedence
  (env : Loader.Env) (args : Cli.Args) (cfg : Config.Config) :
  Cli.configure env args = Loader.Loaded cfg ->
  let file := Cli.file_entries env args in
  let entry key d := option_map Loader.text (Loader.get key d) in
  Config.hotkey cfg
  = Cli.first_of [Cli.given (Cli.hotkey args);
                  Loader.env_set env (py "OPENMUMBLE_HOTKEY");
                  entry (py "hotkey") file] (py "ctrl")
  /\ Config.model_size (Config.whisper cfg)
     = Cli.first_of [Cli.given (Cli.model args);
                     Loader.env_set env (py "OPENMUMBLE_MODEL");
                     match Loader.section file (py "whisper") with
                     | Some whisper_data =>
                         entry (py "model_size") whisper_data
                     | None => None
                     end] (py "small.en")
  /\ Config.anthropic_api_key cfg
     = Cli.first_of [Loader.env_set env (py "ANTHROPIC_API_KEY");
                     entry (py "anthropic_api_key") file] [].
Proof.
  intros Hc. cbv zeta.
  destruct (configure_cases env args cfg Hc) as [m [E Hm]]. subst cfg.
  pose proof (cli_overrides_fields args (Loader.env_overrides env m))
    as [C1 [C2 [C3 _]]].
  pose proof (env_overrides_fields env m) as [E1 [E2 [E3 _]]].
  cbv zeta in *. rewrite C1, C2, C3, E1, E2, E3. clear C1 C2 C3 E1 E2 E3.
  assert (F : Config.hotkey m
              = match Loader.get (py "hotkey") (Cli.file_entries env args)
                with Some v => Loader.text v | None => py "ctrl" end
              /\ Config.model_size (Config.whisper m)
                 = match Loader.section (Cli.file_entries env args)
                           (py "whisper") with
                   | Some wd =>
                       match Loader.get (py "model_size") wd with
                       | Some v => Loader.text v
                       | None => py "small.en"
                       end
                   | None => py "small.en"
                   end
              /\ Config.anthropic_api_key m
                 = match Loader.get (py "anthropic_api_key")
                           (Cli.file_entries env args)
                   with Some v => Loader.text v | None => [] end).
  { destruct Hm as [[He Hd]|[data [Hmerge Hmap]]].
    - rewrite He, Hd. repeat split.
    - destruct (merge_fields _ _ _ Hmerge) as [d [Hd [H1 [H2 [_ [H4 _]]]]]].
      rewrite Hmap in Hd. inversion Hd. subst d.
      rewrite H1, H2, H4. repeat split. }
  destruct F as [F1 [F2 F3]]. rewrite F1, F2, F3.
  cbn [Cli.first_of].
  split; [|split].
  - destruct (Cli.given (Cli.hotkey args)); [reflexivity|].
    destruct (Loader.env_set env (py "OPENMUMBLE_HOTKEY")); [reflexivity|].
    destruct (Loader.get (py "hotkey") _); reflexivity.
  - destruct (Cli.given (Cli.model args)); [reflexivity|].
    destruct (Loader.env_set env (py "OPENMUMBLE_MODEL")); [reflexivity|].
    destruct (Loader.section _ (py "whisper")) as [wd|]; [|reflexivity].
    destruct (Loader.get (py "model_size") wd); reflexivity.
  - destruct (Loader.env_set env (py "ANTHROPIC_API_KEY")); [reflexivity|].
    destruct (Loader.get (py "anthropic_api_key") _); reflexivity.
Qed.

(** The file says [alt], the environment says [f9], the command line
    says nothing about the hotkey and [medium] for the model. *)
Lemma configuration_precedence_witness :
  exists cfg,
    Cli.configure Setup.env Setup.args = Loader.Loaded cfg
    /\ Config.hotkey cfg = py "f9"
    /\ Config.model_size (Config.whisper cfg) = py "medium"
    /\ Config.anthropic_api_key cfg = [].
Proof.
  eexists. split; [reflexivity|].
  exact (configuration_precedence Setup.env Setup.args _ eq_refl).
Defined.

(** X24. A config file that is not there is no error, and neither is an
    empty one: when no config file is found, when the given path does
    not exist, or when the document is falsy (an empty file, [null],
    an empty mapping), the configuration is the defaults with the
    overrides of the environment and of the command line; with none of
    these it is the defaults. *)
Theorem missing_config_file_gives_defaults
  (env : Loader.Env) (args : Cli.Args) :
  match Cli.config_path env args with
  | None => True
  | Some p =>
      Loader.path_exists env p = false
      \/ exists data,
           Loader.safe_load env p = Ok data /\ Loader.truth data = false
  end ->
  Cli.configure env args
  = Loader.Loaded
      (Cli.cli_overrides args (Loader.env_overrides env Config.default))
  /\ ((forall name, Loader.environ env name = None) ->
      Cli.model args = None -> Cli.hotkey args = None ->
      Cli.no_cleanup args = false ->
      Cli.configure env args = Loader.Loaded Config.default).
Proof.
  intro H.
  assert (L : Loader.load env (Cli.config_path env args)
              = Loader.Loaded (Loader.env_overrides env Config.default)).
  { unfold Loader.load. destruct (Cli.config_path env args) as [p|];
      [|reflexivity].
    destruct H as [H|[data [Hd Ht]]].
    - now rewrite H.
    - destruct (Loader.path_exists env p); [|reflexivity].
      rewrite Hd, Ht. reflexivity. }
  unfold Cli.configure. rewrite L. split; [reflexivity|].
  intros He Hm Hh Hn. unfold Cli.cli_overrides, Loader.env_overrides,
    Loader.env_set. rewrite !He, Hm, Hh, Hn. reflexivity.
Qed.

Lemma missing_config_file_gives_defaults_witness :
  Cli.configure Setup.env_bare Setup.args_none
  = Loader.Loaded Config.default.
Proof.
  apply (missing_config_file_gives_defaults Setup.env_bare Setup.args_none);
    (exact I || reflexivity).
Defined.

(** X25. A config file that cannot be used stops the program before it
    starts: when the file exists and reading it raises, when its
    document is neither falsy nor a mapping, or when [audio.sample_rate]
    or [audio.channels] is a value [int] rejects, [main] raises; no
    [App] is built and nothing is printed, whatever the environment and
    the command line say. *)
Theorem unusable_config_file_stops_startup
  (env : Loader.Env) (args : Cli.Args) (p : str)
  (steps : list (World * Main.step)) :
  Cli.config_path env args = Some p ->
  Loader.path_exists env p = true ->
  (forall e, Loader.safe_load env p = Raised e ->
     Cli.main env args steps = Loader.Failed (Loader.Read_failed e))
  /\ (forall data,
        Loader.safe_load env p = Ok data ->
        Loader.truth data = true ->
        Loader.mapping data = None ->
        Cli.main env args steps = Loader.Failed Loader.Not_a_mapping)
  /\ (forall data d audio_data key v,
        Loader.safe_load env p = Ok data ->
        Loader.truth data = true ->
        Loader.mapping data = Some d ->
        Loader.section d (py "audio") = Some audio_data ->
        key = py "sample_rate" \/ key = py "channels" ->
        Loader.get key audio_data = Some v ->
        Loader.number v = None ->
        exists v', Cli.main env args steps
                   = Loader.Failed (Loader.Not_an_int v')
                   /\ Loader.number v' = None).
Proof.
  intros Hp He. unfold Cli.main, Cli.configure, Loader.load.
  rewrite Hp, He. split; [|split].
  - intros e Hl. now rewrite Hl.
  - intros data Hl Ht Hm. rewrite Hl, Ht. unfold Loader._merge.
    now rewrite Hm.
  - intros data d ad key v Hl Ht Hm Hs Hk Hg Hn. rewrite Hl, Ht.
    unfold Loader._merge. rewrite Hm. unfold Loader.merge_audio.
    rewrite Hs. unfold Loader.merge_int.
    destruct Hk as [Hk|Hk]; subst key.
    + rewrite Hg, Hn. eauto.
    + destruct (Loader.get (py "sample_rate") ad) as [v0|].
      * destruct (Loader.number v0) eqn:N0; [|eauto].
        rewrite Hg, Hn. eauto.
      * rewrite Hg, Hn. eauto.
Qed.

(** A [config.yaml] that holds a plain string. *)
Lemma unusable_config_file_stops_startup_witness :
  Cli.main Setup.env_text Setup.args_none []
  = Loader.Failed Loader.Not_a_mapping.
Proof.
  refine (proj1 (proj2 (unusable_config_file_stops_startup Setup.env_text
    Setup.args_none (py "config.yaml") [] _ _))
    (Setup.str_value (py "hotkey alt")) _ _ _); reflexivity.
Defined.

(** X26. The cleanup runs only when nothing switches it off: the
    configuration enables it unless [--no-cleanup] is given or the
    [enable_cleanup] entry of the file is falsy, whatever the
    environment says; and the [App] has a processor exactly when the
    configuration enables the cleanup. *)
Theorem cleanup_switch
  (env : Loader.Env) (args : Cli.Args) (cfg : Config.Config) (a : App.App) :
  Cli.configure env args = Loader.Loaded cfg ->
  App.__init__ cfg = Ok a ->
  Config.enable_cleanup cfg
  = negb (Cli.no_cleanup args)
    && match Loader.get (py "enable_cleanup") (Cli.file_entries env args)
       with
       | Some v => Loader.truth v
       | None => true
       end
  /\ (App.processor a = None <-> Config.enable_cleanup cfg = false)
  /\ (Cli.no_cleanup args = true -> App.processor a = None).
Proof.
  intros Hc Hi.
  destruct (configure_cases env args cfg Hc) as [m [E Hm]].
  pose proof (cli_overrides_fields args (Loader.env_overrides env m))
    as [_ [_ [_ [C4 _]]]].
  pose proof (env_overrides_fields env m) as [_ [_ [_ [E4 _]]]].
  cbv zeta in *. rewrite <- E in C4. rewrite E4 in C4.
  assert (F : Config.enable_cleanup m
              = match Loader.get (py "enable_cleanup")
                        (Cli.file_entries env args) with
                | Some v => Loader.truth v
                | None => true
                end).
  { destruct Hm as [[He Hd]|[data [Hmerge Hmap]]].
    - now rewrite He, Hd.
    - destruct (merge_fields _ _ _ Hmerge) as [d [Hd [_ [_ [H3 _]]]]].
      rewrite Hmap in Hd. inversion Hd. subst d. exact H3. }
  rewrite F in C4.
  assert (P : App.processor a = None <-> Config.enable_cleanup cfg = false).
  { unfold App.__init__ in Hi.
    destruct (App._resolve_hotkey (Config.hotkey cfg)); [|discriminate].
    inversion Hi. cbn.
    destruct (Config.enable_cleanup cfg); split; congruence. }
  split; [exact C4|]. split; [exact P|].
  intro Hn. apply P. rewrite C4, Hn. reflexivity.
Qed.

(** [openmumble --no-cleanup] with no file: no processor. *)
Lemma cleanup_switch_witness :
  App.processor
    (Setup.app_of (Loader.set_enable_cleanup false Config.default))
  = None.
Proof.
  refine (proj2 (proj2 (cleanup_switch Setup.env_bare Setup.args_no_cleanup
    (Loader.set_enable_cleanup false Config.default)
    (Setup.app_of (Loader.set_enable_cleanup false Config.default))
    eq_refl eq_refl)) eq_refl).
Defined.

(** X27. The audio settings come from the config file alone and are not
    checked: when the configuration is loaded, the sample rate and the
    number of channels are [int] of the entries of the [audio] section,
    whatever integers these are (zero and negative ones included), and
    16000 and 1 when there is no entry; the recorder of the [App] is
    built with exactly these. *)
Theorem audio_settings_are_taken_as_they_are
  (env : Loader.Env) (args : Cli.Args) (cfg : Config.Config) (a : App.App) :
  Cli.configure env args = Loader.Loaded cfg ->
  App.__init__ cfg = Ok a ->
  let audio_data :=
    match Loader.section (Cli.file_entries env args) (py "audio") with
    | Some d => d
    | None => []
    end in
  let setting key default :=
    match Loader.get key audio_data with
    | Some v => Loader.number v
    | None => Some default
    end in
  setting (py "sample_rate") 16000%Z
  = Some (Recorder.sample_rate (App.recorder a))
  /\ setting (py "channels") 1%Z
     = Some (Recorder.channels (App.recorder a))
  /\ Recorder.sample_rate (App.recorder a)
     = Config.sample_rate (Config.audio cfg)
  /\ Recorder.channels (App.recorder a)
     = Config.channels (Config.audio cfg).
Proof.
  intros Hc Hi. cbv zeta.
  assert (R : Recorder.sample_rate (App.recorder a)
              = Config.sample_rate (Config.audio cfg)
              /\ Recorder.channels (App.recorder a)
                 = Config.channels (Config.audio cfg)).
  { unfold App.__init__ in Hi.
    destruct (App._resolve_hotkey (Config.hotkey cfg)); [|discriminate].
    inversion Hi. split; reflexivity. }
  destruct R as [R1 R2]. rewrite R1, R2.
  destruct (configure_cases env args cfg Hc) as [m [E Hm]].
  pose proof (cli_overrides_fields args (Loader.env_overrides env m))
    as [_ [_ [_ [_ C5]]]].
  pose proof (env_overrides_fields env m) as [_ [_ [_ [_ E5]]]].
  cbv zeta in *. rewrite <- E in C5. rewrite E5 in C5. rewrite C5.
  destruct Hm as [[He Hd]|[data [Hmerge Hmap]]].
  - rewrite He, Hd. repeat split.
  - destruct (merge_fields _ _ _ Hmerge) as [d [Hd [_ [_ [_ [_ H5]]]]]].
    rewrite Hmap in Hd. inversion Hd. subst d.
    destruct (Loader.section (Cli.file_entries env args) (py "audio"))
      as [ad|].
    + destruct H5 as [S C].
      destruct (Loader.get (py "sample_rate") ad);
        destruct (Loader.get (py "channels") ad);
        rewrite ?S, ?C; repeat split.
    + rewrite H5. repeat split.
Qed.

(** The file of the example sets the sample rate to 44100. *)
Lemma audio_settings_are_taken_as_they_are_witness :
  Some 44100%Z
  = Some (Recorder.sample_rate
            (App.recorder (Setup.app_of (Setup.configured Setup.env
                                           Setup.args)))).
Proof.
  exact (proj1 (audio_settings_are_taken_as_they_are Setup.env Setup.args
                  (Setup.configured Setup.env Setup.args)
                  (Setup.app_of (Setup.configured Setup.env Setup.args))
                  eq_refl eq_refl)).
Defined.
